(** * go-zfs-rebalance: the per-file replace protocol and its coordinator

    A shallow embedding of [pkg/rebalance/rebalance.go],
    [internal/database/database.go], [internal/fileutil/fileutil.go] and of
    [calculateConcurrency] from [cmd/rebalance/main.go].

    The Go code talks to three pieces of mutable state: the file system, the
    SQLite pass ledger and the shutdown channel of the [Rebalancer].  They are
    the fields of [World], threaded through a small state monad with Go's
    [return] and [panic] as extra outcomes.  Every call into the operating
    system or the database asks an environment oracle [env] what happens to
    it: nothing special, an injected failure, garbled data, or an action of
    another process that runs just before the call.  Each call is recorded in
    the [trace] of the world, so that statements can refer to what a run of
    [RebalanceFile] actually did.

    Not modelled: logging, the throughput computation (floating point),
    symbolic links ([Stat] and [Lstat] agree), inode sharing between hard
    links (the link count is an attribute of the path), device nodes as the
    target of a copy, the modification time of directories, partial writes
    of a failed [io.Copy], the interleaving of two calls of [RebalanceFile]
    (a call is one turn of the scheduler of [Run]) and a progress channel
    that nobody drains (a send on the channel is an event).  Statements
    that would depend on one of these say so in a hypothesis: what a
    replacement leaves behind is stated for a temp path without an entry,
    and that [Run] returns for a nil progress channel. *)

From stdpp Require Import gmap strings list fin_maps.
From Stdlib Require Import ZArith Strings.Byte Lia.

Local Open Scope Z_scope.

(** ** Go values *)

Inductive errno := ENOENT | EACCES | EIO | ENOSPC | EISDIR | EXDEV | EROFS.

Global Instance errno_eq_dec : EqDecision errno.
Proof. solve_decision. Defined.

Definition errno_string (e : errno) : string :=
  match e with
  | ENOENT => "no such file or directory"
  | EACCES => "permission denied"
  | EIO => "input/output error"
  | ENOSPC => "no space left on device"
  | EISDIR => "is a directory"
  | EXDEV => "invalid cross-device link"
  | EROFS => "read-only file system"
  end.

(** Go's [error] values as this program builds them: [*os.PathError] and
    [*os.LinkError] from the [os] package, a driver error from
    [database/sql], and [fmt.Errorf]: [Errorf] without and [Wrapf] with an
    error wrapped by [%w]; both keep the rendered message. *)
Inductive error :=
| PathError (op path : string) (e : errno)
| LinkError (op old new : string) (e : errno)
| SqlError (e : errno)
| Errorf (msg : string)
| Wrapf (msg : string) (wrapped : error).

Definition Error (err : error) : string :=
  match err with
  | PathError op path e => op +:+ " " +:+ path +:+ ": " +:+ errno_string e
  | LinkError op old new e =>
      op +:+ " " +:+ old +:+ " " +:+ new +:+ ": " +:+ errno_string e
  | SqlError e => "sql: " +:+ errno_string e
  | Errorf msg => msg
  | Wrapf msg _ => msg
  end.

(** [os.IsNotExist] looks through [PathError] and [LinkError] only. *)
Definition IsNotExist (err : error) : bool :=
  match err with
  | PathError _ _ ENOENT | LinkError _ _ _ ENOENT => true
  | _ => false
  end.

Inductive result (E A : Type) := Ok (a : A) | Err (e : E).
Arguments Ok {E A} a.
Arguments Err {E A} e.

(** A Go [error] result is an [option error]; [None] is Go's [nil]. *)

(** [strings.HasSuffix]: [len(s) >= len(suffix) && s[len(s)-len(suffix):] == suffix]. *)
Definition HasSuffix (s suffix : string) : bool :=
  (String.length suffix <=? String.length s)%nat
  && String.eqb
       (String.substring (String.length s - String.length suffix)
          (String.length suffix) s)
       suffix.

(** Go's [int] is 64 bits wide here; [int_add] is [+] with its wrap-around. *)
Definition int_min : Z := - 2 ^ 63.
Definition int_max : Z := 2 ^ 63 - 1.
Definition int_range (z : Z) : Prop := int_min <= z <= int_max.
Definition int_wrap (z : Z) : Z := (z + 2 ^ 63) mod 2 ^ 64 - 2 ^ 63.
Definition int_add (a b : Z) : Z := int_wrap (a + b).

(** ** Files *)

Inductive FileKind := Regular | Directory | Special.

Global Instance FileKind_eq_dec : EqDecision FileKind.
Proof. solve_decision. Defined.

(** One directory entry.  It doubles as the [os.FileInfo] that [Stat]
    returns and as the snapshot an open file handle reads from. *)
Record File := mkFile {
  kind : FileKind;
  perm : N;
  mtime : Z;
  content : list byte;
  nlink : N;
}.

(** [os.FileMode]: the type bits and the permission bits. *)
Definition Mode (f : File) : FileKind * N := (kind f, perm f).
Definition IsRegular (m : FileKind * N) : bool := bool_decide (m.1 = Regular).
Definition ModTime (f : File) : Z := mtime f.
Definition Size (f : File) : Z := Z.of_nat (length (content f)).

Global Instance Mode_eq_dec : EqDecision (FileKind * N).
Proof. solve_decision. Defined.

(** ** Configuration ([Config] in rebalance.go; the logger is left out) *)

Record Config := mkConfig {
  SkipHardlinks : bool;
  PassesLimit : Z;
  Concurrency : Z;
  RootPath : string;
  CleanupBalanceFiles : bool;
  RandomOrder : bool;
  SizeThresholdMB : Z;
  ChecksumType : string;
  HaltOnFileMissing : bool;
  ShowFullPaths : bool;
}.

(** ** Calls, events and the environment *)

Inductive Op :=
| OpLstat (p : string)
| OpStat (p : string)
| OpOpen (p : string)
| OpFstat (p : string)
| OpOpenFile (p : string) (md : N)
| OpIoCopy (src dst : string)
| OpHashRead (p : string)
| OpChtimes (p : string) (t : Z)
| OpChmod (p : string) (md : N)
| OpRemove (p : string)
| OpRename (old new : string)
| OpDbGet (p : string)
| OpDbSet (p : string) (n : Z).

Inductive Event :=
| EvSys (op : Op) (err : option errno)
| EvFileHash (p : string) (digest : string)
| EvIsShuttingDown (b : bool)
| EvInitiateShutdown
| EvGather (files : list string)
| EvGo (i : nat)
| EvWorker (f : string) (e : option error)
| EvProgress (n : Z).

(** What another process may do between two calls of this program. *)
Inductive ExtAction :=
| ExtRemove (p : string)
| ExtWrite (p : string) (bs : list byte).

(** The environment's verdict on one call. *)
Inductive Inj :=
| Pass
| Fail (e : errno)
| Garble (bs : list byte)
| Ext (a : ExtAction).

Definition inj_fail (i : Inj) : option errno :=
  match i with Fail e => Some e | _ => None end.
Definition inj_data (i : Inj) : option (list byte) :=
  match i with Garble bs => Some bs | _ => None end.
Definition inj_ext (i : Inj) : option ExtAction :=
  match i with Ext a => Some a | _ => None end.

(** The oracle sees the history of the run and the call about to be made. *)
Definition Env := list Event → Op → Inj.

(** ** The world *)

Inductive chan := ChOpen | ChClosed.

Global Instance chan_eq_dec : EqDecision chan.
Proof. solve_decision. Defined.

Record World := mkWorld {
  fs : gmap string File;
  db : gmap string Z;
  shutdownChan : chan;
  umask : N;
  clock : Z;
  trace : list Event;
}.

Definition set_fs (m : gmap string File) (w : World) : World :=
  mkWorld m (db w) (shutdownChan w) (umask w) (clock w) (trace w).
Definition set_db (d : gmap string Z) (w : World) : World :=
  mkWorld (fs w) d (shutdownChan w) (umask w) (clock w) (trace w).
Definition set_shutdownChan (c : chan) (w : World) : World :=
  mkWorld (fs w) (db w) c (umask w) (clock w) (trace w).
Definition emit (ev : Event) (w : World) : World :=
  mkWorld (fs w) (db w) (shutdownChan w) (umask w) (clock w) (trace w ++ [ev]).
Definition tick (w : World) : World :=
  mkWorld (fs w) (db w) (shutdownChan w) (umask w) (clock w + 1) (trace w).

(** The events a computation added when it took [w] to [w']. *)
Definition events_since (w w' : World) : list Event :=
  drop (length (trace w)) (trace w').

(** ** The monad: state, Go's [return], Go's [panic] *)

Inductive Res (R A : Type) :=
| Val (a : A) (w : World)
| Ret (r : R) (w : World)
| Panic (w : World).
Arguments Val {R A} a w.
Arguments Ret {R A} r w.
Arguments Panic {R A} w.

Definition M (R A : Type) : Type := World → Res R A.

Global Instance M_ret {R} : MRet (M R) := λ A a w, Val a w.
Global Instance M_bind {R} : MBind (M R) := λ A B f m w,
  match m w with
  | Val a w' => f a w'
  | Ret r w' => Ret r w'
  | Panic w' => Panic w'
  end.

(** [return r] inside a function body. *)
Definition return_ {R A} (r : R) : M R A := λ w, Ret r w.

(** [if c { body }] for a body that yields no value. *)
Definition when_ {R} (c : bool) (body : M R ()) : M R () :=
  if c then body else mret ().

(** A finished call: the value returned, or a panic that unwinds. *)
Inductive Result (A : Type) :=
| Done (a : A) (w : World)
| Panicked (w : World).
Arguments Done {A} a w.
Arguments Panicked {A} w.

Definition Fn (A : Type) : Type := World → Result A.

(** A function declaration: the body runs until it returns. *)
Definition func {A} (body : M A A) : Fn A := λ w,
  match body w with
  | Val a w' | Ret a w' => Done a w'
  | Panic w' => Panicked w'
  end.

(** A call of a function from inside another body. *)
Definition call {R A} (f : Fn A) : M R A := λ w,
  match f w with
  | Done a w' => Val a w'
  | Panicked w' => Panic w'
  end.

(** ** The operating system, as the program sees it

    What each call does to the directory tree when the environment lets it
    run: the result, or the errno the kernel answers.  The arguments are the
    garbled data (if any), the time and the tree. *)

Definition Sem (A : Type) : Type :=
  option (list byte) → Z → gmap string File → result errno (A * gmap string File).

(** [stat], [lstat] and [open] for reading find the entry or fail. *)
Definition stat_sem (path : string) : Sem File := λ _ _ m,
  match m !! path with
  | Some f => Ok (f, m)
  | None => Err ENOENT
  end.

(** [fstat] on an open handle returns what the handle holds. *)
Definition fstat_sem (h : File) : Sem File := λ _ _ m, Ok (h, m).

(** Why [open(O_CREATE|O_WRONLY|O_TRUNC)] refuses an existing entry. *)
Definition open_err (old : option File) : option errno :=
  match old with
  | Some f =>
      match kind f with
      | Regular => None
      | Directory => Some EISDIR
      | Special => Some EACCES
      end
  | None => None
  end.

(** [open(O_CREATE|O_WRONLY|O_TRUNC, md)]: a new file gets the permission
    bits that the umask leaves; an existing regular file is truncated and
    keeps its bits and links. *)
Definition creat_sem (path : string) (md : N) (um : N) : Sem () := λ _ now m,
  match open_err (m !! path) with
  | Some e => Err e
  | None =>
      Ok ((), <[path := mkFile Regular
                          (from_option perm (N.ldiff md um) (m !! path))
                          now []
                          (from_option nlink 1%N (m !! path))]> m)
  end.

(** Reading from a handle: a directory cannot be read. *)
Definition read_handle (h : File) : result errno (list byte) :=
  match kind h with
  | Directory => Err EISDIR
  | _ => Ok (content h)
  end.

(** Writing through the handle opened at [dst]: the bytes land in the file
    if it still is where it was opened. *)
Definition write_file (dst : string) (bs : list byte) (now : Z)
    (m : gmap string File) : gmap string File :=
  match m !! dst with
  | Some f =>
      match kind f with
      | Regular => <[dst := mkFile Regular (perm f) now bs (nlink f)]> m
      | _ => m
      end
  | None => m
  end.

(** [io.Copy(d, s)]; garbled data stands for a copy that silently wrote
    other bytes than it read. *)
Definition copy_sem (dst : string) (h : File) : Sem () := λ data now m,
  match read_handle h with
  | Ok bs => Ok ((), write_file dst (default bs data) now m)
  | Err e => Err e
  end.

(** [io.Copy(hash, f)]: the bytes that reach the hash. *)
Definition hash_read_sem (h : File) : Sem (list byte) := λ _ _ m,
  match read_handle h with
  | Ok bs => Ok (bs, m)
  | Err e => Err e
  end.

Definition chtimes_sem (path : string) (t : Z) : Sem () := λ _ _ m,
  match m !! path with
  | Some f =>
      Ok ((), <[path := mkFile (kind f) (perm f) t (content f) (nlink f)]> m)
  | None => Err ENOENT
  end.

Definition chmod_sem (path : string) (md : N) : Sem () := λ _ _ m,
  match m !! path with
  | Some f =>
      Ok ((), <[path := mkFile (kind f) md (mtime f) (content f) (nlink f)]> m)
  | None => Err ENOENT
  end.

Definition remove_sem (path : string) : Sem () := λ _ _ m,
  match m !! path with
  | Some _ => Ok ((), delete path m)
  | None => Err ENOENT
  end.

(** [rename] replaces the target, unless that is a directory. *)
Definition rename_sem (old new : string) : Sem () := λ _ _ m,
  match m !! old with
  | Some f =>
      match kind <$> m !! new with
      | Some Directory => Err EISDIR
      | _ => Ok ((), <[new := f]> (delete old m))
      end
  | None => Err ENOENT
  end.

(** What another process does to the file system. *)
Definition apply_ext (a : ExtAction) (now : Z) (m : gmap string File)
    : gmap string File :=
  match a with
  | ExtRemove p => delete p m
  | ExtWrite p bs =>
      <[p := mkFile Regular (from_option perm 420%N (m !! p)) now bs
               (from_option nlink 1%N (m !! p))]> m
  end.

Section Program.

(** The environment oracle, the two digests of the Go standard library
    ([%x] of [sha256.Sum] and of [md5.Sum]), the paths [filepath.Walk] visits
    under a root, in its order, and the permutation [rand.Shuffle] picks. *)
Context (env : Env) (SHA256 MD5 : list byte → string).
Context (Walk : gmap string File → string → list string).
Context (Shuffle : list string → list string).

(** The world after the other process has had its turn before [op]. *)
Definition interfered (op : Op) (w : World) : World :=
  match inj_ext (env (trace w) op) with
  | Some a => set_fs (apply_ext a (clock w) (fs w)) w
  | None => w
  end.

(** One call into the file system.  The oracle is asked first; an external
    action runs before the call, an injected failure replaces it. *)
Definition sys_fs {R A} (op : Op) (sem : Sem A) : M R (result errno A) := λ w,
  let inj := env (trace w) op in
  let w1 := interfered op w in
  match inj_fail inj with
  | Some e => Val (Err e) (emit (EvSys op (Some e)) (tick w1))
  | None =>
      match sem (inj_data inj) (clock w1) (fs w1) with
      | Ok (a, m2) => Val (Ok a) (emit (EvSys op None) (tick (set_fs m2 w1)))
      | Err e => Val (Err e) (emit (EvSys op (Some e)) (tick w1))
      end
  end.

(** One call into the SQLite ledger. *)
Definition sys_db {R A} (op : Op)
    (sem : gmap string Z → A * gmap string Z) : M R (result errno A) := λ w,
  let inj := env (trace w) op in
  let w1 := interfered op w in
  match inj_fail inj with
  | Some e => Val (Err e) (emit (EvSys op (Some e)) (tick w1))
  | None =>
      Val (Ok (sem (db w1)).1)
        (emit (EvSys op None) (tick (set_db (sem (db w1)).2 w1)))
  end.

(** Turning the errno of a failed call into the Go error. *)
Definition os_result {R A} (mk : errno → error) (m : M R (result errno A))
    : M R (result error A) :=
  r ← m;
  mret (match r with
        | Ok a => Ok a
        | Err e => Err (mk e)
        end).

Definition os_error {R} (mk : errno → error) (m : M R (result errno ()))
    : M R (option error) :=
  r ← m;
  mret (match r with
        | Ok _ => None
        | Err e => Some (mk e)
        end).

Definition os_Lstat {R} (path : string) : M R (result error File) :=
  os_result (PathError "lstat" path) (sys_fs (OpLstat path) (stat_sem path)).

Definition os_Stat {R} (path : string) : M R (result error File) :=
  os_result (PathError "stat" path) (sys_fs (OpStat path) (stat_sem path)).

(** [os.Open]: the handle is the file as it is when opened. *)
Definition os_Open {R} (path : string) : M R (result error File) :=
  os_result (PathError "open" path) (sys_fs (OpOpen path) (stat_sem path)).

(** [Stat] of [os.File], on an open handle. *)
Definition File_Stat {R} (path : string) (h : File) : M R (result error File) :=
  os_result (PathError "stat" path) (sys_fs (OpFstat path) (fstat_sem h)).

(** [os.OpenFile(dst, O_CREATE|O_WRONLY|O_TRUNC, mode)]. *)
Definition os_OpenFile_create_trunc {R} (path : string) (md : N)
    : M R (result error ()) := λ w,
  os_result (PathError "open" path)
    (sys_fs (OpOpenFile path md) (creat_sem path md (umask w))) w.

(** [io.Copy(d, s)] from the handle [h] of [src] to the file opened at
    [dst].  Which side of a failed copy the error names is not modelled: it
    is rendered as a failed read of the source. *)
Definition io_Copy {R} (src dst : string) (h : File) : M R (result error ()) :=
  os_result (PathError "read" src) (sys_fs (OpIoCopy src dst) (copy_sem dst h)).

(** [io.Copy(h, f)] into a hash: the bytes read from the handle. *)
Definition io_Copy_hash {R} (path : string) (h : File)
    : M R (result error (list byte)) :=
  os_result (PathError "read" path) (sys_fs (OpHashRead path) (hash_read_sem h)).

Definition os_Chtimes {R} (path : string) (t : Z) : M R (option error) :=
  os_error (PathError "chtimes" path) (sys_fs (OpChtimes path t) (chtimes_sem path t)).

Definition os_Chmod {R} (path : string) (md : FileKind * N) : M R (option error) :=
  os_error (PathError "chmod" path) (sys_fs (OpChmod path md.2) (chmod_sem path md.2)).

Definition os_Remove {R} (path : string) : M R (option error) :=
  os_error (PathError "remove" path) (sys_fs (OpRemove path) (remove_sem path)).

Definition os_Rename {R} (old new : string) : M R (option error) :=
  os_error (LinkError "rename" old new) (sys_fs (OpRename old new) (rename_sem old new)).

(** [QueryRow(...).Scan(&count)] and [Exec] of the upsert on the ledger. *)
Definition sql_select_count {R} (filePath : string)
    : M R (result errno (option Z)) :=
  sys_db (OpDbGet filePath) (λ d, (d !! filePath, d)).

Definition sql_upsert_count {R} (filePath : string) (newCount : Z)
    : M R (result errno ()) :=
  sys_db (OpDbSet filePath newCount) (λ d, ((), <[filePath := newCount]> d)).

(** [close(r.shutdownChan)]: closing a closed channel panics. *)
Definition close_shutdownChan {R} : M R () := λ w,
  match shutdownChan w with
  | ChOpen => Val () (set_shutdownChan ChClosed w)
  | ChClosed => Panic w
  end.

(** The non-blocking receive of [isShuttingDown]. *)
Definition select_shutdownChan {R} : M R bool := λ w,
  Val (bool_decide (shutdownChan w = ChClosed)) w.

Definition log_event {R} (ev : Event) : M R () := λ w, Val () (emit ev w).

(** ** internal/database/database.go *)

Definition GetRebalanceCount (filePath : string) : Fn (Z * option error) := func (
  row ← sql_select_count filePath;
  match row with
  | Ok None => return_ (0, None)
  | Ok (Some count) => return_ (count, None)
  | Err e => return_ (0, Some (SqlError e))
  end).

Definition SetRebalanceCount (filePath : string) (newCount : Z)
    : Fn (option error) := func (
  res ← sql_upsert_count filePath newCount;
  match res with
  | Ok _ => return_ None
  | Err e => return_ (Some (SqlError e))
  end).

(** ** internal/fileutil/fileutil.go *)

(** The Unix build: the link count is [Stat_t.Nlink]. *)
Definition getLinkCountForPlatform (info : File) : N * option error :=
  (nlink info, None).

Definition GetLinkCount (path : string) : Fn (N * option error) := func (
  st ← os_Lstat path;
  match st with
  | Err err => return_ (0%N, Some err)
  | Ok info =>
      let '(n, err) := getLinkCountForPlatform info in
      match err with
      | Some err =>
          return_ (0%N, Some (Wrapf ("unsupported system for file " +:+ path
                                      +:+ ": " +:+ Error err) err))
      | None => return_ (n, None)
      end
  end).

Definition ChecksumSHA256 : string := "sha256".
Definition ChecksumMD5 : string := "md5".

Definition FileHashMD5 (path : string) : Fn (string * option error) := func (
  o ← os_Open path;
  match o with
  | Err err => return_ ("", Some err)
  | Ok f =>
      rd ← io_Copy_hash path f;
      match rd with
      | Err err => return_ ("", Some err)
      | Ok bs =>
          log_event (EvFileHash path (MD5 bs));;
          return_ (MD5 bs, None)
      end
  end).

Definition FileHashSHA256 (path : string) : Fn (string * option error) := func (
  o ← os_Open path;
  match o with
  | Err err => return_ ("", Some err)
  | Ok f =>
      rd ← io_Copy_hash path f;
      match rd with
      | Err err => return_ ("", Some err)
      | Ok bs =>
          log_event (EvFileHash path (SHA256 bs));;
          return_ (SHA256 bs, None)
      end
  end).

Definition CompareFileMD5 (orig copy : string) : Fn (bool * string) := func (
  '(origHash, err) ← call (FileHashMD5 orig);
  match err with
  | Some err => return_ (false, "error hashing original: " +:+ Error err)
  | None =>
      '(copyHash, err) ← call (FileHashMD5 copy);
      match err with
      | Some err => return_ (false, "error hashing copy: " +:+ Error err)
      | None =>
          when_ (negb (String.eqb origHash copyHash))
            (return_ (false, "MD5 mismatch: " +:+ origHash +:+ " != " +:+ copyHash));;
          return_ (true, "")
      end
  end).

Definition CompareFileSHA256 (orig copy : string) : Fn (bool * string) := func (
  '(origHash, err) ← call (FileHashSHA256 orig);
  match err with
  | Some err => return_ (false, "error hashing original: " +:+ Error err)
  | None =>
      '(copyHash, err) ← call (FileHashSHA256 copy);
      match err with
      | Some err => return_ (false, "error hashing copy: " +:+ Error err)
      | None =>
          when_ (negb (String.eqb origHash copyHash))
            (return_ (false, "SHA256 mismatch: " +:+ origHash +:+ " != " +:+ copyHash));;
          return_ (true, "")
      end
  end).

Definition CompareFileChecksum (orig copy checksumType : string)
    : Fn (bool * string) :=
  if String.eqb checksumType ChecksumMD5 then CompareFileMD5 orig copy
  else if String.eqb checksumType ChecksumSHA256 then CompareFileSHA256 orig copy
  else CompareFileSHA256 orig copy.

Definition CopyFile (src dst : string) : Fn (option error) := func (
  o ← os_Open src;
  match o with
  | Err err => return_ (Some err)
  | Ok s =>
      st ← File_Stat src s;
      match st with
      | Err err => return_ (Some err)
      | Ok statSrc =>
          d ← os_OpenFile_create_trunc dst (Mode statSrc).2;
          match d with
          | Err err => return_ (Some err)
          | Ok _ =>
              cp ← io_Copy src dst s;
              match cp with
              | Err err => return_ (Some err)
              | Ok _ =>
                  err ← os_Chtimes dst (ModTime statSrc);
                  return_ err
              end
          end
      end
  end).

(** ** pkg/rebalance/rebalance.go: the per-file protocol *)

Definition InitiateShutdown : Fn () := func (
  log_event EvInitiateShutdown;;
  close_shutdownChan).

Definition isShuttingDown : Fn bool := func (
  b ← select_shutdownChan;
  log_event (EvIsShuttingDown b);;
  return_ b).

(** [RebalanceFile], in the three parts its comments mark.  First the
    checks before anything is touched (lines 55-110); they hand [oldCount]
    and [srcInfo] to the rest. *)
Definition rebalance_checks (r : Config) (filePath : string)
    : M (option error) (Z * File) :=
  (* Skip files that already have .balance extension *)
  when_ (HasSuffix filePath ".balance") (return_ None);;
  (* Check for hardlinks - skip by default *)
  when_ (SkipHardlinks r) (
    '(linkCount, err) ← call (GetLinkCount filePath);
    match err with
    | Some err =>
        when_ (IsNotExist err) (
          when_ (HaltOnFileMissing r) (call InitiateShutdown);;
          return_ None);;
        return_ (Some (Wrapf ("hardlink check failed for " +:+ filePath +:+ ": "
                                +:+ Error err) err))
    | None => when_ (1 <? linkCount)%N (return_ None)
    end);;
  (* Check if passes are exceeded *)
  '(oldCount, err) ← call (GetRebalanceCount filePath);
  match err with
  | Some err => return_ (Some (Wrapf ("db read error: " +:+ Error err) err))
  | None => mret ()
  end;;
  when_ (bool_decide (PassesLimit r > 0) && bool_decide (oldCount >= PassesLimit r))
    (return_ None);;
  (* Check if file exists *)
  st ← os_Stat filePath;
  match st with
  | Err err =>
      when_ (IsNotExist err) (
        when_ (HaltOnFileMissing r) (call InitiateShutdown);;
        return_ None);;
      return_ (Some (Wrapf ("failed to stat: " +:+ filePath +:+ " => "
                              +:+ Error err) err))
  | Ok srcInfo =>
      when_ (negb (IsRegular (Mode srcInfo))) (return_ None);;
      mret (oldCount, srcInfo)
  end.

(** Steps 1 to 4 (lines 112-183): copy, verify, remove, rename. *)
Definition rebalance_replace (r : Config) (filePath : string) (srcInfo : File)
    : M (option error) () :=
  let tmpFilePath := filePath +:+ ".balance" in
  (* Check for shutdown before starting a long operation *)
  down ← call isShuttingDown;
  when_ down (return_ None);;
  (* Step 1: Copy file to file.balance *)
  err ← call (CopyFile filePath tmpFilePath);
  match err with
  | Some err => return_ (Some (Wrapf ("copy failed: " +:+ Error err) err))
  | None => mret ()
  end;;
  (* Step 2: Check checksums *)
  let checksumType :=
    if String.eqb (ChecksumType r) "" then ChecksumSHA256 else ChecksumType r in
  '(ok, reason) ← call (CompareFileChecksum filePath tmpFilePath checksumType);
  when_ (negb ok) (
    (* Clean up the temporary file on checksum mismatch *)
    os_Remove tmpFilePath;;
    return_ (Some (Errorf (checksumType +:+ " checksum mismatch for file "
                             +:+ filePath +:+ ": " +:+ reason))));;
  (* Step 3: Remove original file *)
  err ← os_Remove filePath;
  match err with
  | Some err =>
      (* Clean up the temporary file on error *)
      os_Remove tmpFilePath;;
      (* Check if file was removed by another process *)
      when_ (IsNotExist err) (
        when_ (HaltOnFileMissing r) (call InitiateShutdown);;
        return_ None);;
      return_ (Some (Wrapf ("remove failed: " +:+ Error err) err))
  | None => mret ()
  end;;
  (* Step 4: Rename temporary copy to original name *)
  err ← os_Rename tmpFilePath filePath;
  match err with
  | Some err =>
      (* This is a critical failure - we've removed the original but can't
         rename the temp file.  Try to put the temp file in a safe location *)
      let emergencyPath := filePath +:+ ".recovered" in
      os_Rename tmpFilePath emergencyPath;;
      return_ (Some (Wrapf ("CRITICAL: rename failed, data saved to "
                              +:+ emergencyPath +:+ ": " +:+ Error err) err))
  | None => mret ()
  end.

(** Step 5 and the ledger update (lines 185-237). *)
Definition rebalance_finish (r : Config) (filePath : string) (oldCount : Z)
    (srcInfo : File) : M (option error) (option error) :=
  let originalMode := Mode srcInfo in
  let originalTime := ModTime srcInfo in
  (* Step 5: Check permissions are the same as when it started *)
  st ← os_Stat filePath;
  match st with
  | Err err =>
      when_ (IsNotExist err) (return_ (Some (Errorf "file disappeared after rename")));;
      return_ (Some (Wrapf ("failed to stat file after rename: " +:+ Error err) err))
  | Ok newInfo =>
      when_ (negb (bool_decide (Mode newInfo = originalMode))) (
        (* Fix permissions quietly *)
        err ← os_Chmod filePath originalMode;
        match err with
        | Some err =>
            return_ (Some (Wrapf ("failed to fix permissions: " +:+ Error err) err))
        | None => mret ()
        end);;
      when_ (negb (bool_decide (ModTime newInfo = originalTime))) (
        (* Fix timestamps quietly *)
        err ← os_Chtimes filePath originalTime;
        match err with
        | Some err =>
            return_ (Some (Wrapf ("failed to fix timestamps: " +:+ Error err) err))
        | None => mret ()
        end);;
      (* Update DB if passesLimit is in use *)
      when_ (bool_decide (PassesLimit r > 0)) (
        let newCount := int_add oldCount 1 in
        err ← call (SetRebalanceCount filePath newCount);
        match err with
        | Some err => return_ (Some (Wrapf ("db update error: " +:+ Error err) err))
        | None => mret ()
        end);;
      return_ None
  end.

Definition RebalanceFile (r : Config) (filePath : string) : Fn (option error) := func (
  '(oldCount, srcInfo) ← rebalance_checks r filePath;
  rebalance_replace r filePath srcInfo;;
  rebalance_finish r filePath oldCount srcInfo).

(** ** pkg/rebalance/rebalance.go: the coordinator *)

(** [for _, x := range l { body }]. *)
Fixpoint for_range {R A} (l : list A) (body : A → M R ()) : M R () :=
  match l with
  | [] => mret ()
  | x :: l' => body x;; for_range l' body
  end.

(** [filepath.Walk] with a callback that swallows walk errors and keeps the
    paths whose [Lstat] info passes [keep]. *)
Definition walk_collect {R} (root : string) (keep : string → File → bool)
    : M R (list string) := λ w,
  Val (List.filter (λ p, match fs w !! p with
                    | Some info => keep p info
                    | None => false
                    end) (Walk (fs w) root)) w.

Definition GatherFiles (r : Config) : Fn (list string * option error) := func (
  files ← walk_collect (RootPath r) (λ _ info, IsRegular (Mode info));
  return_ (files, None)).

Definition cleanupBalanceFiles (r : Config) : Fn (option error) := func (
  balanceFiles ← walk_collect (RootPath r)
    (λ path info, IsRegular (Mode info) && HasSuffix path ".balance");
  for_range balanceFiles (λ path, os_Remove path;; mret ());;
  return_ None).

(** The goroutines of [Run] share the two channels and the counter. *)
Record Pool := mkPool {
  pending : list string;
  fileChan : list string;
  fileChanClosed : bool;
  running : list bool;
  resultChan : list (option error);
  processedCount : Z;
}.

(** One turn of the scheduler: the coordinator's enqueue loop, one of the
    workers, or another goroutine that calls [InitiateShutdown]. *)
Inductive Action := Coordinate | Work (i : nat) | Signal.

(** The loop [for _, f := range files] of the coordinator, one iteration;
    after the loop, [close(fileChan)]. *)
Definition coordinator_step (p : Pool) : Fn Pool := func (
  when_ (fileChanClosed p) (return_ p);;
  match pending p with
  | f :: rest =>
      down ← call isShuttingDown;
      when_ down (return_ (mkPool (pending p) (fileChan p) true (running p)
                             (resultChan p) (processedCount p)));;
      return_ (mkPool rest (fileChan p ++ [f]) false (running p)
                 (resultChan p) (processedCount p))
  | [] =>
      return_ (mkPool [] (fileChan p) true (running p)
                 (resultChan p) (processedCount p))
  end).

(** The loop [for f := range fileChan] of worker [i], one iteration.  The
    call of [RebalanceFile] and the bookkeeping after it are one turn: no
    other goroutine runs in between.  The send [progressChan <-
    processedCount] is an event: it stands for a send that its receiver
    takes, as the reporter of [main] does. *)
Definition worker_step (r : Config) (progressChan : bool) (i : nat) (p : Pool)
    : Fn Pool := func (
  when_ (negb (default false (running p !! i))) (return_ p);;
  match fileChan p with
  | f :: queue =>
      down ← call isShuttingDown;
      when_ down (return_ (mkPool (pending p) queue (fileChanClosed p)
                             (<[i := false]> (running p))
                             (resultChan p) (processedCount p)));;
      e ← call (RebalanceFile r f);
      log_event (EvWorker f e);;
      let processedCount' := int_add (processedCount p) 1 in
      when_ progressChan (log_event (EvProgress processedCount'));;
      return_ (mkPool (pending p) queue (fileChanClosed p) (running p)
                 (resultChan p ++ [e]) processedCount')
  | [] =>
      when_ (fileChanClosed p)
        (return_ (mkPool (pending p) [] true (<[i := false]> (running p))
                    (resultChan p) (processedCount p)));;
      return_ p
  end).

Definition step (r : Config) (progressChan : bool) (a : Action) (p : Pool)
    : Fn Pool :=
  match a with
  | Coordinate => coordinator_step p
  | Work i => worker_step r progressChan i p
  | Signal => func (call InitiateShutdown;; return_ p)
  end.

Fixpoint run_schedule (r : Config) (progressChan : bool) (sched : list Action)
    (p : Pool) : Fn Pool :=
  match sched with
  | [] => λ w, Done p w
  | a :: sched' => λ w,
      match step r progressChan a p w with
      | Done p' w' => run_schedule r progressChan sched' p' w'
      | Panicked w' => Panicked w'
      end
  end.

(** Turns that let every goroutine finish: the coordinator first, then each
    worker until its loop ends. *)
Definition drain (p : Pool) : list Action :=
  replicate (S (length (pending p))) Coordinate
  ++ flat_map (λ i, replicate (S (length (pending p) + length (fileChan p))) (Work i))
       (seq 0 (length (running p))).

(** [Run].  [progressChan] tells whether the progress channel is non-nil,
    and a non-nil channel has a receiver that takes what is sent;
    [sched] is the interleaving of the goroutines up to the point where
    [wg.Wait] starts to wait, after which they run to completion. *)
Definition Run (r : Config) (progressChan : bool) (sched : list Action)
    : Fn (option error) := func (
  when_ (CleanupBalanceFiles r) (
    err ← call (cleanupBalanceFiles r);
    match err with
    | Some err =>
        return_ (Some (Wrapf ("failed to cleanup .balance files: " +:+ Error err) err))
    | None => mret ()
    end);;
  '(files, err) ← call (GatherFiles r);
  match err with
  | Some err => return_ (Some (Wrapf ("failed to gather files: " +:+ Error err) err))
  | None => mret ()
  end;;
  log_event (EvGather files);;
  when_ (bool_decide (length files = 0%nat)) (return_ None);;
  let files := if RandomOrder r then Shuffle files else files in
  (* Launch workers *)
  for_range (seq 0 (Z.to_nat (Concurrency r))) (λ i, log_event (EvGo i));;
  let pool := mkPool files [] false (replicate (Z.to_nat (Concurrency r)) true) [] 0 in
  pool ← call (run_schedule r progressChan sched pool);
  (* Wait for workers to finish *)
  pool ← call (run_schedule r progressChan (drain pool) pool);
  (* Final cleanup of any remaining .balance files if we're shutting down *)
  down ← call isShuttingDown;
  when_ down (call (cleanupBalanceFiles r);; mret ());;
  (* Final update to progress *)
  when_ progressChan (log_event (EvProgress (processedCount pool)));;
  (* Check for errors *)
  let failed := existsb (λ e : option error, bool_decide (is_Some e)) (resultChan pool) in
  when_ failed (return_ (Some (Errorf "some files failed to rebalance")));;
  return_ None).

End Program.

(** ** cmd/rebalance/main.go *)




(** ** Vocabulary of the statements *)

Section Vocabulary.
Context (env : Env) (SHA256 MD5 : list byte → string).

(** Classes of environments: no other process interferes; no call is made
    to fail; no copy is garbled. *)
Definition NoExt : Prop := ∀ h op, inj_ext (env h op) = None.
Definition NoFail : Prop := ∀ h op, inj_fail (env h op) = None.
Definition NoGarble : Prop := ∀ h op, inj_data (env h op) = None.

(** The digest that [RebalanceFile] verifies with under configuration [r]. *)
Definition digest_of (r : Config) : list byte → string :=
  let checksumType :=
    if String.eqb (ChecksumType r) "" then ChecksumSHA256 else ChecksumType r in
  if String.eqb checksumType ChecksumMD5 then MD5 else SHA256.

End Vocabulary.

(** The ledger's count for a path, [0] when there is no row. *)
Definition ledger_count (w : World) (path : string) : Z :=
  default 0 (db w !! path).

(** The error [RebalanceFile] returns when the digests [d1] of the original
    and [d2] of the copy differ. *)
Definition mismatch_error (r : Config) (filePath d1 d2 : string) : error :=
  let checksumType :=
    if String.eqb (ChecksumType r) "" then ChecksumSHA256 else ChecksumType r in
  Errorf (checksumType +:+ " checksum mismatch for file " +:+ filePath +:+ ": "
          +:+ (if String.eqb checksumType ChecksumMD5 then "MD5" else "SHA256")
          +:+ " mismatch: " +:+ d1 +:+ " != " +:+ d2).

(** The error it returns when the rename onto the original path has failed
    with [e]. *)
Definition critical_error (filePath : string) (e : errno) : error :=
  let err := LinkError "rename" (filePath +:+ ".balance") filePath e in
  Wrapf ("CRITICAL: rename failed, data saved to " +:+ (filePath +:+ ".recovered")
         +:+ ": " +:+ Error err) err.

(** Shapes of events, by the part of [RebalanceFile] that can emit them. *)
Definition ev_is_check (ev : Event) : bool :=
  match ev with
  | EvSys (OpLstat _ | OpDbGet _ | OpStat _) _ | EvInitiateShutdown => true
  | _ => false
  end.
Definition ev_is_replace (ev : Event) : bool :=
  match ev with
  | EvSys (OpOpen _ | OpFstat _ | OpOpenFile _ _ | OpIoCopy _ _ | OpHashRead _
           | OpChtimes _ _ | OpRemove _ | OpRename _ _) _
  | EvFileHash _ _ | EvInitiateShutdown => true
  | _ => false
  end.
Definition ev_is_finish (ev : Event) : bool :=
  match ev with
  | EvSys (OpStat _ | OpChmod _ _ | OpChtimes _ _ | OpDbSet _ _) _ => true
  | _ => false
  end.
Definition ev_ok (ev : Event) : bool :=
  match ev with
  | EvSys _ None => true
  | _ => false
  end.
(** The file was found missing by this call. *)
Definition ev_missing (path : string) (ev : Event) : bool :=
  match ev with
  | EvSys (OpLstat p | OpStat p | OpRemove p) (Some e) =>
      String.eqb p path && bool_decide (e = ENOENT)
  | _ => false
  end.
(** The copy was renamed onto the original path. *)
Definition ev_replaced (path : string) (ev : Event) : bool :=
  match ev with
  | EvSys (OpRename _ new) None => String.eqb new path
  | _ => false
  end.
(** A call that failed; and the failures [RebalanceFile] gets over: the
    file found missing, and the removal of the temp file on the way out. *)
Definition ev_failed (ev : Event) : bool :=
  match ev with
  | EvSys _ (Some _) => true
  | _ => false
  end.
Definition ev_tolerated (path : string) (ev : Event) : bool :=
  match ev with
  | EvSys op (Some _) =>
      ev_missing path ev
      || match op with
         | OpRemove p => String.eqb p (path +:+ ".balance")
         | _ => false
         end
  | _ => true
  end.

(** The digests a run computed and the renames it attempted, in order. *)
Fixpoint hashes (evs : list Event) : list (string * string) :=
  match evs with
  | [] => []
  | EvFileHash p d :: evs' => (p, d) :: hashes evs'
  | _ :: evs' => hashes evs'
  end.
Fixpoint renames (evs : list Event) : list (string * string * option errno) :=
  match evs with
  | [] => []
  | EvSys (OpRename old new) r :: evs' => (old, new, r) :: renames evs'
  | _ :: evs' => renames evs'
  end.

Definition world_of {R A} (x : Res R A) : World :=
  match x with Val _ w | Ret _ w | Panic w => w end.

Definition result_world {A} (x : Result A) : World :=
  match x with Done _ w | Panicked w => w end.

(** Other shapes of events: what changes the file system or the ledger, and
    what one call of [RebalanceFile] can emit at all. *)
Definition ev_mutates (ev : Event) : bool :=
  match ev with
  | EvSys (OpOpenFile _ _ | OpIoCopy _ _ | OpChtimes _ _ | OpChmod _ _
           | OpRemove _ | OpRename _ _ | OpDbSet _ _) _ => true
  | _ => false
  end.
Definition ev_is_file (ev : Event) : bool :=
  match ev with
  | EvSys _ _ | EvFileHash _ _ | EvIsShuttingDown _ | EvInitiateShutdown => true
  | _ => false
  end.
Definition ev_is_consult (ev : Event) : bool :=
  match ev with EvIsShuttingDown _ => true | _ => false end.
Definition ev_is_go (ev : Event) : bool :=
  match ev with EvGo _ => true | _ => false end.

Definition ev_is_work (ev : Event) : bool :=
  match ev with EvGo _ | EvGather _ => false | _ => true end.

(** What the coordinator of [Run] and the bookkeeping of a worker log:
    events that change neither files nor ledger nor the shutdown channel. *)
Definition ev_is_coord (ev : Event) : bool :=
  match ev with
  | EvGather _ | EvGo _ | EvIsShuttingDown _ | EvProgress _ => true
  | _ => false
  end.

(** Two states of a path that agree on whether there is an entry, on its
    type and its permission bits and, unless it is a directory, on its
    content and its modification time. *)
Definition same_entry (a b : option File) : Prop :=
  kind <$> a = kind <$> b ∧ perm <$> a = perm <$> b
  ∧ (kind <$> a ≠ Some Directory →
     content <$> a = content <$> b ∧ mtime <$> a = mtime <$> b).

(** [w'] continues [w] with events that all satisfy [P]. *)
Definition extends (P : Event → bool) (w w' : World) : Prop :=
  ∃ evs, trace w' = trace w ++ evs ∧ forallb P evs = true.

(** The calls of [RebalanceFile] that the workers made, with their results,
    in order. *)
Fixpoint attempted (evs : list Event) : list (string * option error) :=
  match evs with
  | [] => []
  | EvWorker f e :: evs' => (f, e) :: attempted evs'
  | _ :: evs' => attempted evs'
  end.

Section Copies.
Context (env : Env) (SHA256 MD5 : list byte → string).

(** [t] holds the content of [f], as far as the configured digest tells,
    and byte for byte when no copy is garbled. *)
Definition same_content (r : Config) (f t : File) : Prop :=
  digest_of SHA256 MD5 r (content t) = digest_of SHA256 MD5 r (content f)
  ∧ (NoGarble env → content t = content f).

(** [t] is a verified copy of [f]. *)
Definition copy_of (r : Config) (f t : File) : Prop :=
  kind t = Regular ∧ mtime t = mtime f
  ∧ digest_of SHA256 MD5 r (content t) = digest_of SHA256 MD5 r (content f)
  ∧ (NoGarble env → content t = content f).

End Copies.

Section Invariant.
Context (env : Env) (SHA256 MD5 : list byte → string).

(** [attempts r w l w']: the world goes from [w] to [w'] by the calls of
    [RebalanceFile] listed in [l], in this order and with these results,
    each followed by the worker's note of it, and by nothing else than
    events of the coordinator in between. *)
Inductive attempts (r : Config)
    : World → list (string * option error) → World → Prop :=
| attempts_nil w : attempts r w [] w
| attempts_call w f e w1 l w2 :
    RebalanceFile env SHA256 MD5 r f w = Done e w1 →
    attempts r (emit (EvWorker f e) w1) l w2 →
    attempts r w ((f, e) :: l) w2
| attempts_coord w ev l w2 :
    ev_is_coord ev = true →
    attempts r (emit ev w) l w2 →
    attempts r w l w2.


End Invariant.

(** ** Sample inputs *)

Module Sample.

(** An environment in which nothing fails and nobody interferes, and a
    stand-in for the digests that is injective. *)
Definition quiet : Env := λ _ _, Pass.
Definition digest (bs : list byte) : string := String.string_of_list_byte bs.
Definition walk (m : gmap string File) (root : string) : list string :=
  List.filter (String.prefix root) (map fst (map_to_list m)).

Definition a_txt : File :=
  mkFile Regular 420 100 (String.list_byte_of_string "AAAA") 1.
Definition b_txt : File :=
  mkFile Regular 420 100 (String.list_byte_of_string "BB") 1.
Definition linked : File :=
  mkFile Regular 420 100 (String.list_byte_of_string "CC") 2.

Definition cfg (limit : Z) (halt : bool) : Config :=
  mkConfig true limit 2 "/d" true false 0 "" halt true.

(** The same configuration without workers. *)
Definition no_workers : Config :=
  mkConfig true 2 0 "/d" false false 0 "" false true.


Definition files : gmap string File :=
  {[ "/d/a.txt" := a_txt; "/d/b.txt" := b_txt; "/d/l.txt" := linked ]}.
Definition world (ledger : gmap string Z) (c : chan) : World :=
  mkWorld files ledger c 18 1000 [].

(** The rename onto the original path fails; so does every rename; the
    copy writes other bytes than it read; another process removes the file
    just before [CopyFile] opens it; the file cannot be opened. *)
Definition rename_fails : Env := λ _ op,
  match op with
  | OpRename _ new => if String.eqb new "/d/a.txt" then Fail EACCES else Pass
  | _ => Pass
  end.
Definition renames_fail : Env := λ _ op,
  match op with OpRename _ _ => Fail EACCES | _ => Pass end.
Definition vanishes : Env := λ _ op,
  match op with
  | OpOpen p => if String.eqb p "/d/a.txt" then Ext (ExtRemove "/d/a.txt") else Pass
  | _ => Pass
  end.
Definition unreadable : Env := λ _ op,
  match op with
  | OpOpen p => if String.eqb p "/d/a.txt" then Fail EACCES else Pass
  | _ => Pass
  end.

(** A fresh rebalancer, one whose shutdown has been asked for, and one
    whose ledger has two passes for the first file. *)
Definition fresh : World := world ∅ ChOpen.
Definition stopping : World := world ∅ ChClosed.
Definition twice_done : World := world {[ "/d/a.txt" := 2 ]} ChOpen.

(** The pool of two workers when the first file is in the channel. *)
Definition pool : Pool :=
  mkPool ["/d/b.txt"; "/d/l.txt"] ["/d/a.txt"] false [true; true] [] 0.

End Sample.

(** * More of the program

    ** pkg/rebalance/rebalance.go: the accessors *)

Section Accessors.

Context (env : Env).
Context (Walk : gmap string File → string → list string).

(** [GetFiles]. *)
Definition GetFiles (r : Config) : Fn (list string * option error) := func (
  res ← call (GatherFiles Walk r);
  return_ res).

(** [GetPassInfo]; the named result [current] starts at 1. *)
Definition GetPassInfo (r : Config) : Fn (Z * Z) := func (
  (* Get current pass from the first file in DB, or default to 1 *)
  let current := 1 in
  '(files, err) ← call (GatherFiles Walk r);
  when_ (bool_decide (is_Some err) || bool_decide (length files = 0%nat))
    (return_ (1, PassesLimit r));;
  (* Try to get the count from the first file to estimate current pass *)
  current ← match files with
            | file0 :: _ =>
                '(count, err) ← call (GetRebalanceCount env file0);
                mret (match err with
                      | None => int_add count 1
                      | Some _ => current
                      end)
            | [] => mret current
            end;
  (* If passes limit is 0, it means unlimited - return a large number *)
  when_ (bool_decide (PassesLimit r <= 0)) (return_ (current, 999));;
  return_ (current, PassesLimit r)).

End Accessors.

(** ** pkg/rebalance/rebalance.go: [truncatePath] *)

Definition int_sub (a b : Z) : Z := int_wrap (a - b).

(** [filepath.Separator] of the Unix build. *)
Definition Separator : Ascii.ascii :=
  match "/" with
  | String c _ => c
  | EmptyString => Ascii.zero
  end.

(** [len] of a Go string. *)
Definition len (s : string) : Z := Z.of_nat (String.length s).

(** [filepath.Split]: the path up to and including the last separator, and
    what follows it. *)
Fixpoint filepath_Split (path : string) : string * string :=
  match path with
  | EmptyString => ("", "")
  | String c rest =>
      let '(dir, file) := filepath_Split rest in
      match dir with
      | EmptyString =>
          if Ascii.eqb c Separator then (String c "", file) else ("", String c file)
      | _ => (String c dir, file)
      end
  end.

(** [strings.Split(s, "/")]. *)
Fixpoint strings_Split (s : string) : list string :=
  match s with
  | EmptyString => [""]
  | String c rest =>
      let l := strings_Split rest in
      if Ascii.eqb c Separator then "" :: l
      else match l with
           | x :: l' => String c x :: l'
           | [] => [String c ""]
           end
  end.

(** The loop of [truncatePath], from the last directory to the first. *)
Fixpoint truncate_dirs (dirs : list string) (remainingLen : Z) (result : string)
    : string :=
  match dirs with
  | [] => result
  | d :: dirs' =>
      if len d <=? remainingLen
      then truncate_dirs dirs' (int_sub remainingLen (int_add (len d) 1))
             (d +:+ "/" +:+ result)
      else result
  end.

Section Truncate.

(** [filepath.Dir] of the standard library. *)
Context (filepath_Dir : string → string).

(** [truncatePath]; [None] is the panic of a slice out of range. *)
Definition truncatePath (path : string) (maxLen : Z) : option string :=
  if len path <=? maxLen then Some path
  else
    (* Split the path to get the filename *)
    let '(_, filename) := filepath_Split path in
    (* If just the filename is too long, truncate it *)
    if len filename >=? int_sub maxLen 3 then
      let low := int_sub (len filename) (int_sub maxLen 3) in
      if (0 <=? low) && (low <=? len filename)
      then Some ("..." +:+ String.substring (Z.to_nat low)
                             (String.length filename - Z.to_nat low) filename)
      else None
    else
      (* Otherwise, keep the filename and add as much of the path as will fit *)
      let remainingLen := int_sub (int_sub maxLen (len filename)) 3 in
      let dirs := strings_Split (filepath_Dir path) in
      let result := truncate_dirs (rev dirs) remainingLen "" in
      Some ("..." +:+ "/" +:+ result +:+ filename).

End Truncate.

(** ** More vocabulary *)

(** A step of [CopyFile] after the temp file was opened has failed. *)
Definition ev_copy_failed (tmp : string) (ev : Event) : bool :=
  match ev with
  | EvSys (OpIoCopy _ dst) (Some _) => String.eqb dst tmp
  | EvSys (OpChtimes p _) (Some _) => String.eqb p tmp
  | _ => false
  end.

(** The events of a run in which no worker takes a file: the coordinator
    and stale-file removal only. *)
Definition ev_is_idle (ev : Event) : bool :=
  match ev with
  | EvSys (OpRemove _) _ | EvIsShuttingDown _ | EvInitiateShutdown
  | EvGather _ | EvGo _ | EvProgress _ => true
  | _ => false
  end.

Section Passes.
Context (env : Env) (SHA256 MD5 : list byte → string).

(** [RebalanceFile] called [n] times in a row on one path, as a caller that
    rebalances in passes does; the results in order. *)
Fixpoint passes (n : nat) (r : Config) (filePath : string)
    : Fn (list (option error)) :=
  match n with
  | O => λ w, Done [] w
  | S n' => λ w,
      match RebalanceFile env SHA256 MD5 r filePath w with
      | Done e w' =>
          match passes n' r filePath w' with
          | Done es w'' => Done (e :: es) w''
          | Panicked w'' => Panicked w''
          end
      | Panicked w' => Panicked w'
      end
  end.

End Passes.

(** ** More sample inputs *)

Module SampleMore.
Import Sample.

(** [filepath.Dir] on clean paths with a directory part; a disk on which
    the copy runs out of space; a tree with a stale temp file. *)
Definition dir (p : string) : string :=
  let d := (filepath_Split p).1 in String.substring 0 (String.length d - 1) d.


Definition stale : World :=
  mkWorld (<["/d/a.txt.balance" := b_txt]> files) ∅ ChOpen 18 1000 [].

End SampleMore.

(** * Proofs

    ** Path names, system calls and symbolic execution *)

Lemma string_length_app (a b : string) :
  String.length (a +:+ b) = (String.length a + String.length b)%nat.
Proof. induction a; simpl; auto. Qed.

Lemma app_ne_self (p s : string) : s ≠ "" → p +:+ s ≠ p.
Proof.
  intros Hs Heq. apply (f_equal String.length) in Heq.
  rewrite string_length_app in Heq. destruct s; [done|]. simpl in Heq. lia.
Qed.

Lemma tmp_ne p : p +:+ ".balance" ≠ p.
Proof. by apply app_ne_self. Qed.
Lemma rec_ne p : p +:+ ".recovered" ≠ p.
Proof. by apply app_ne_self. Qed.
Lemma tmp_rec_ne p : p +:+ ".balance" ≠ p +:+ ".recovered".
Proof. intros H. by apply (inj (String.append p)) in H. Qed.

(** What an answer of a system call says about the directory tree. *)
Lemma stat_sem_Ok p d t m f m' : stat_sem p d t m = Ok (f, m') → m' = m ∧ m !! p = Some f.
Proof. unfold stat_sem. destruct (m !! p); naive_solver. Qed.
Lemma stat_sem_Err p d t m e : stat_sem p d t m = Err e → e = ENOENT ∧ m !! p = None.
Proof. unfold stat_sem. destruct (m !! p); naive_solver. Qed.
Lemma fstat_sem_Ok h d t m f m' : fstat_sem h d t m = Ok (f, m') → m' = m ∧ f = h.
Proof. unfold fstat_sem. naive_solver. Qed.
Lemma fstat_sem_Err h d t m e : fstat_sem h d t m = Err e → False.
Proof. done. Qed.
Lemma creat_sem_Ok p md um d t m u m' :
  creat_sem p md um d t m = Ok (u, m') →
  open_err (m !! p) = None ∧
  m' = <[p := mkFile Regular (from_option perm (N.ldiff md um) (m !! p)) t []
                (from_option nlink 1%N (m !! p))]> m.
Proof. unfold creat_sem. destruct (open_err (m !! p)); naive_solver. Qed.
Lemma creat_sem_Err p md um d t m e :
  creat_sem p md um d t m = Err e → open_err (m !! p) = Some e.
Proof. unfold creat_sem. destruct (open_err (m !! p)); naive_solver. Qed.
Lemma copy_sem_Ok dst h d t m u m' :
  copy_sem dst h d t m = Ok (u, m') →
  read_handle h = Ok (content h) ∧ m' = write_file dst (default (content h) d) t m.
Proof.
  unfold copy_sem, read_handle. destruct (kind h); naive_solver.
Qed.
Lemma copy_sem_Err dst h d t m e :
  copy_sem dst h d t m = Err e → e = EISDIR ∧ kind h = Directory.
Proof. unfold copy_sem, read_handle. destruct (kind h); naive_solver. Qed.
Lemma hash_read_sem_Ok h d t m bs m' :
  hash_read_sem h d t m = Ok (bs, m') → m' = m ∧ bs = content h.
Proof. unfold hash_read_sem, read_handle. destruct (kind h); naive_solver. Qed.
Lemma hash_read_sem_Err h d t m e :
  hash_read_sem h d t m = Err e → e = EISDIR ∧ kind h = Directory.
Proof. unfold hash_read_sem, read_handle. destruct (kind h); naive_solver. Qed.
Lemma chtimes_sem_Ok p t' d t m u m' :
  chtimes_sem p t' d t m = Ok (u, m') →
  ∃ f, m !! p = Some f ∧ m' = <[p := mkFile (kind f) (perm f) t' (content f) (nlink f)]> m.
Proof. unfold chtimes_sem. destruct (m !! p); naive_solver. Qed.
Lemma chtimes_sem_Err p t' d t m e :
  chtimes_sem p t' d t m = Err e → e = ENOENT ∧ m !! p = None.
Proof. unfold chtimes_sem. destruct (m !! p); naive_solver. Qed.
Lemma chmod_sem_Ok p md d t m u m' :
  chmod_sem p md d t m = Ok (u, m') →
  ∃ f, m !! p = Some f ∧ m' = <[p := mkFile (kind f) md (mtime f) (content f) (nlink f)]> m.
Proof. unfold chmod_sem. destruct (m !! p); naive_solver. Qed.
Lemma chmod_sem_Err p md d t m e :
  chmod_sem p md d t m = Err e → e = ENOENT ∧ m !! p = None.
Proof. unfold chmod_sem. destruct (m !! p); naive_solver. Qed.
Lemma remove_sem_Ok p d t m u m' :
  remove_sem p d t m = Ok (u, m') → is_Some (m !! p) ∧ m' = delete p m.
Proof. unfold remove_sem. destruct (m !! p); naive_solver. Qed.
Lemma remove_sem_Err p d t m e :
  remove_sem p d t m = Err e → e = ENOENT ∧ m !! p = None.
Proof. unfold remove_sem. destruct (m !! p); naive_solver. Qed.
Lemma rename_sem_Ok o n d t m u m' :
  rename_sem o n d t m = Ok (u, m') →
  ∃ f, m !! o = Some f ∧ m' = <[n := f]> (delete o m).
Proof.
  unfold rename_sem. destruct (m !! o); [|done].
  destruct (kind <$> m !! n) as [[]|]; naive_solver.
Qed.
Lemma rename_sem_Err o n d t m e :
  rename_sem o n d t m = Err e →
  (e = ENOENT ∧ m !! o = None) ∨ (e = EISDIR ∧ is_Some (m !! o)).
Proof.
  unfold rename_sem. destruct (m !! o); [|naive_solver].
  destruct (kind <$> m !! n) as [[]|]; naive_solver.
Qed.

Lemma write_file_insert p bs now f (m : gmap string File) :
  kind f = Regular →
  write_file p bs now (<[p := f]> m) = <[p := mkFile Regular (perm f) now bs (nlink f)]> m.
Proof.
  intros Hk. unfold write_file. rewrite lookup_insert_eq, Hk.
  by rewrite insert_insert_eq.
Qed.


Lemma eqb_tmp_path p : String.eqb (p +:+ ".balance") p = false.
Proof. apply String.eqb_neq, tmp_ne. Qed.
Lemma eqb_rec_path p : String.eqb (p +:+ ".recovered") p = false.
Proof. apply String.eqb_neq, rec_ne. Qed.

Lemma IsNotExist_PathError op p e :
  IsNotExist (PathError op p e) = bool_decide (e = ENOENT).
Proof. by destruct e. Qed.
Lemma IsNotExist_LinkError op o n e :
  IsNotExist (LinkError op o n e) = bool_decide (e = ENOENT).
Proof. by destruct e. Qed.

Lemma trace_ext_nil (l : list Event) : l = l ++ [].
Proof. by rewrite app_nil_r. Qed.
Lemma trace_ext_snoc (l T evs : list Event) e :
  T = l ++ evs → T ++ [e] = l ++ (evs ++ [e]).
Proof. intros ->. by rewrite app_assoc. Qed.

Lemma interfered_quiet env op w : NoExt env → interfered env op w = w.
Proof. intros H. unfold interfered. by rewrite H. Qed.

Lemma interfered_inv env op w : ∃ m, interfered env op w = set_fs m w.
Proof.
  unfold interfered. destruct (inj_ext _); [by eexists|].
  exists (fs w). by destruct w.
Qed.

(** ** Symbolic execution of the monadic code

    [step_with keep H] brings the computation on the left of
    [H : prog w = X] to weak head normal form and splits on the term that
    blocks it: an answer of the environment, the outcome of a call, a
    configuration flag.  [run H] repeats it until every branch has
    returned. *)

Ltac head_scrut t :=
  lazymatch t with
  | match ?x with _ => _ end => head_scrut x
  | ?f ?x => let r := head_scrut f in lazymatch r with f => t | _ => r end
  | _ => t
  end.

Ltac whnf_lhs H :=
  lazymatch type of H with
  | ?l = ?rhs =>
    let l' := eval lazy head beta iota zeta delta
      [RebalanceFile rebalance_checks rebalance_replace rebalance_finish
       CopyFile CompareFileChecksum CompareFileSHA256
       CompareFileMD5 FileHashSHA256 FileHashMD5 GetLinkCount getLinkCountForPlatform
       GetRebalanceCount SetRebalanceCount InitiateShutdown isShuttingDown
       os_Lstat os_Stat os_Open File_Stat os_OpenFile_create_trunc io_Copy
       io_Copy_hash os_Chtimes os_Chmod os_Remove os_Rename os_result os_error
       sql_select_count sql_upsert_count
       func call mbind M_bind mret M_ret when_ return_ log_event
       select_shutdownChan close_shutdownChan sys_fs sys_db
       negb andb fst snd Mode ModTime IsRegular] in l in
    change (l' = rhs) in H
  end.

Ltac world_cbn H :=
  cbv beta iota zeta delta [set_fs set_db set_shutdownChan emit tick] in H;
  cbn [fs db shutdownChan umask clock trace kind perm mtime content nlink
       from_option default] in H.

Ltac paths_ne :=
  first [ apply tmp_ne | apply rec_ne | apply tmp_rec_ne
        | apply not_eq_sym; first [apply tmp_ne | apply rec_ne | apply tmp_rec_ne ]
        | assumption | apply not_eq_sym; assumption ].

Ltac map_simp_in H :=
  repeat first
    [ rewrite lookup_insert_eq in H
    | rewrite lookup_delete_eq in H
    | rewrite lookup_insert_ne in H by paths_ne
    | rewrite lookup_delete_ne in H by paths_ne
    | rewrite insert_insert_eq in H
    | rewrite write_file_insert in H by reflexivity ].

Ltac map_simp :=
  repeat first
    [ rewrite lookup_insert_eq
    | rewrite lookup_delete_eq
    | rewrite lookup_insert_ne by paths_ne
    | rewrite lookup_delete_ne by paths_ne
    | rewrite insert_insert_eq
    | rewrite write_file_insert by reflexivity ].

(* every closed [interfered] world: unchanged in a quiet environment, some
   other directory tree otherwise *)
Ltac settle_ext H :=
  repeat match type of H with
  | context [interfered ?env ?op ?w] =>
      first
        [ match goal with HN : NoExt _ |- _ => rewrite (interfered_quiet env op w HN) in H end
        | let m := fresh "m" in let Hm := fresh in
          destruct (interfered_inv env op w) as [m Hm]; rewrite Hm in H; clear Hm ]
  end.

Ltac inv_sem H E :=
  first
    [ apply stat_sem_Ok in E as [-> E]
    | apply stat_sem_Err in E as [-> E]
    | apply fstat_sem_Ok in E as [-> ->]
    | apply fstat_sem_Err in E; destruct E
    | apply creat_sem_Ok in E as [E ->]
    | apply creat_sem_Err in E
    | apply copy_sem_Ok in E as [E ->]
    | apply copy_sem_Err in E as [-> E]
    | apply hash_read_sem_Ok in E as [-> ->]
    | apply hash_read_sem_Err in E as [-> E]
    | apply chtimes_sem_Ok in E as (? & E & ->)
    | apply chtimes_sem_Err in E as [-> E]
    | apply chmod_sem_Ok in E as (? & E & ->)
    | apply chmod_sem_Err in E as [-> E]
    | apply remove_sem_Ok in E as [E ->]
    | apply remove_sem_Err in E as [-> E]
    | apply rename_sem_Ok in E as (? & E & ->)
    | apply rename_sem_Err in E as [[-> E]|[-> E]] ];
  try (map_simp_in E; revert H; simplify_eq; intros H).

(* [keep] says what to do with the equation on an answer of the oracle *)
Ltac step_with keep H :=
  whnf_lhs H; settle_ext H; world_cbn H; whnf_lhs H;
  lazymatch type of H with
  | ?l = _ =>
    let s := head_scrut l in
    lazymatch s with
    | Val _ _ => idtac
    | Ret _ _ => idtac
    | Panic _ => idtac
    | Done _ _ => idtac
    | Panicked _ => idtac
    | bool_decide (?c = ChClosed) =>
        first [ is_var c; destruct c;
                [ rewrite ?(bool_decide_eq_false_2 (ChOpen = ChClosed)) in * by done
                | rewrite ?(bool_decide_eq_true_2 (ChClosed = ChClosed)) in * by done ]
              | let v := eval cbv in s in change s with v in H ]
    | inj_fail (?env ?h ?op) =>
        first [ match goal with HF : NoFail _ |- _ => rewrite (HF h op) in H end
              | match goal with Hx : s = _ |- _ => rewrite Hx in H end
              | let Hi := fresh "Hi" in destruct s eqn:Hi; keep Hi ]
    | _ ?d ?t ?m =>
        lazymatch type of s with
        | result errno _ =>
            let E := fresh "E" in
            destruct s as [[? ?]|?] eqn:E; inv_sem H E
        | _ => first [ match goal with Hx : s = _ |- _ => rewrite Hx in H end
                     | destruct s eqn:? ]
        end
    | _ => first [ match goal with Hx : s = _ |- _ => rewrite Hx in H end
                 | destruct s eqn:? ]
    end
  end.

Ltac run H := repeat (step_with ltac:(fun Hi => idtac) H).
Ltac run_lean H := repeat (step_with ltac:(fun Hi => clear Hi) H).

(* the events added: [tr ++ evs] for the accumulated trace *)
Ltac ev_exists :=
  eexists; split;
    [ etrans; [ repeat (apply trace_ext_snoc); apply trace_ext_nil
              | cbn [app]; reflexivity ] |];
  cbn [app forallb existsb ev_is_check ev_is_replace ev_is_finish ev_ok
       ev_missing ev_replaced hashes renames andb orb];
  rewrite ?String.eqb_refl, ?eqb_tmp_path, ?eqb_rec_path;
  cbn [andb orb].

Ltac fin_hyps :=
  repeat match goal with
  | H : IsNotExist (PathError _ _ ?e) = true |- _ =>
      rewrite IsNotExist_PathError in H; apply bool_decide_eq_true in H; subst e
  | H : IsNotExist (PathError _ _ ?e) = false |- _ =>
      rewrite IsNotExist_PathError in H; apply bool_decide_eq_false in H
  | H : bool_decide _ = true |- _ => apply bool_decide_eq_true in H
  | H : bool_decide _ = false |- _ => apply bool_decide_eq_false in H
  end.

Ltac fin :=
  fin_hyps;
  unfold ledger_count; cbn [db fst snd Mode] in *;
  repeat match goal with H : _ !! _ = _ |- _ => rewrite H end;
  repeat split; try done; auto; try lia;
  try (repeat case_bool_decide; cbn [andb orb]; naive_solver).

Section PartSpecs.
Context (env : Env) (SHA256 MD5 : list byte → string).

(** The checks: they only read; they hand on a regular file that is in place
    and whose pass limit is not reached; a file found missing makes them
    return nil; they panic only in [InitiateShutdown]. *)
Lemma checks_spec r path w X :
  rebalance_checks env r path w = X →
  ∃ evs, trace (world_of X) = trace w ++ evs ∧ db (world_of X) = db w
    ∧ umask (world_of X) = umask w ∧ forallb ev_is_check evs = true
    ∧ match X with
      | Val (oc, si) w1 =>
          shutdownChan w1 = shutdownChan w ∧ forallb ev_ok evs = true
          ∧ oc = ledger_count w path ∧ kind si = Regular
          ∧ ¬ (PassesLimit r > 0 ∧ oc >= PassesLimit r)
          ∧ fs w1 !! path = Some si
      | Ret res w1 =>
          (existsb (ev_missing path) evs = true → res = None)
          ∧ (shutdownChan w1 = shutdownChan w
             ∨ HaltOnFileMissing r = true ∧ shutdownChan w = ChOpen
               ∧ shutdownChan w1 = ChClosed)
          ∧ (existsb (ev_missing path) evs = true → HaltOnFileMissing r = true →
             shutdownChan w1 = ChClosed)
      | Panic w1 => HaltOnFileMissing r = true ∧ shutdownChan w = ChClosed
      end.
Proof.
  intros H. destruct w as [fs0 db0 ch0 um0 clk0 tr0].
  cbn [world_of trace db umask fs shutdownChan].
  run_lean H.
  all: subst X; cbn [world_of trace db umask fs shutdownChan].
  all: ev_exists.
  all: fin.
Qed.

(** The replacement, in any environment: it starts with the look at the
    shutdown signal and never panics. *)
Lemma replace_spec r path f w X :
  rebalance_replace env SHA256 MD5 r path f w = X →
  ∃ post,
    trace (world_of X)
    = trace w ++ EvIsShuttingDown (bool_decide (shutdownChan w = ChClosed)) :: post
    ∧ db (world_of X) = db w ∧ umask (world_of X) = umask w
    ∧ forallb ev_is_replace post = true
    ∧ match X with
      | Val _ w1 =>
          shutdownChan w = ChOpen ∧ shutdownChan w1 = ChOpen
          ∧ existsb (ev_replaced path) post = true
          ∧ existsb (ev_missing path) post = false
      | Ret res w1 =>
          (shutdownChan w = ChClosed → post = [] ∧ res = None ∧ fs w1 = fs w)
          ∧ existsb (ev_replaced path) post = false
          ∧ (existsb (ev_missing path) post = true → res = None)
          ∧ (shutdownChan w1 = shutdownChan w
             ∨ HaltOnFileMissing r = true ∧ shutdownChan w = ChOpen
               ∧ shutdownChan w1 = ChClosed)
          ∧ (existsb (ev_missing path) post = true → HaltOnFileMissing r = true →
             shutdownChan w1 = ChClosed)
      | Panic _ => False
      end.
Proof.
  intros H. destruct w as [fs0 db0 ch0 um0 clk0 tr0].
  cbn [world_of trace db umask fs shutdownChan].
  run_lean H.
  all: subst X; cbn [world_of trace db umask fs shutdownChan].
  all: ev_exists.
  all: fin_hyps.
  all: repeat split; try done; auto.
  all: try (by destruct ch0).
  all: try (repeat case_bool_decide; by cbn [andb orb]).
Qed.

End PartSpecs.

Section ReplaceQuiet.
Context (env : Env) (SHA256 MD5 : list byte → string).


Ltac solve_copy_of :=
  unfold copy_of, digest_of; cbn [kind mtime content ModTime];
  repeat match goal with
  | H : String.eqb (MD5 _) (MD5 _) = true |- _ => apply String.eqb_eq in H
  | H : String.eqb (SHA256 _) (SHA256 _) = true |- _ => apply String.eqb_eq in H
  | H : String.eqb (if String.eqb (ChecksumType _) "" then _ else _) _ = _ |- _ =>
      rewrite H
  end;
  split; [reflexivity|]; split; [reflexivity|]; split; [by symmetry|];
  let HG := fresh in intros HG; by rewrite HG.

Ltac solve_hashes :=
  split; [reflexivity|]; split; [reflexivity|];
  let Hd := fresh in intros Hd;
  repeat match goal with
  | H : String.eqb (MD5 _) (MD5 _) = true |- _ => apply String.eqb_eq in H
  | H : String.eqb (SHA256 _) (SHA256 _) = true |- _ => apply String.eqb_eq in H
  end;
  first
  [ exfalso; apply Hd; assumption
  | eexists; split;
    [ unfold mismatch_error; cbv zeta;
      repeat match goal with
      | H : String.eqb (if String.eqb (ChecksumType _) "" then _ else _) _ = _ |- _ =>
          rewrite H
      end; reflexivity
    | let HR := fresh in intros HR; cbn [fs]; map_simp; try done;
      repeat match goal with
      | H : inj_fail _ = Some _ |- _ => rewrite HR in H; discriminate H
      end ] ].

(** The replacement when no other process interferes: which files it
    leaves where, by the digests it computed and the renames it tried. *)
Lemma replace_quiet r path f w X :
  NoExt env → fs w !! path = Some f → kind f = Regular →
  rebalance_replace env SHA256 MD5 r path f w = X →
  let tmp := path +:+ ".balance" in
  let rec := path +:+ ".recovered" in
  ∃ evs, trace (world_of X) = trace w ++ evs
  ∧ (∀ q, q ≠ path → q ≠ tmp → q ≠ rec → fs (world_of X) !! q = fs w !! q)
  ∧ match hashes evs with
    | [] => True
    | [(p1, _)] => p1 = path
    | [(p1, d1); (p2, d2)] =>
        p1 = path ∧ p2 = tmp
        ∧ (d1 ≠ d2 →
           ∃ w1, X = Ret (Some (mismatch_error r path d1 d2)) w1
             ∧ ((∀ h, inj_fail (env h (OpRemove tmp)) = None) → fs w1 !! tmp = None))
    | _ => False
    end
  ∧ match X with
    | Val _ w1 =>
        renames evs = [(tmp, path, None)]
        ∧ fs w1 !! tmp = None ∧ fs w1 !! rec = fs w !! rec
        ∧ ∃ t, fs w1 !! path = Some t ∧ copy_of env SHA256 MD5 r f t
    | Ret res w1 =>
        (renames evs = [] ∧ fs w1 !! path = Some f ∧ fs w1 !! rec = fs w !! rec)
        ∨ (∃ e r2 t,
             renames evs = [(tmp, path, Some e); (tmp, rec, r2)]
             ∧ res = Some (critical_error path e)
             ∧ fs w1 !! path = None
             ∧ match r2 with
               | None => fs w1 !! rec = Some t ∧ fs w1 !! tmp = None
               | Some _ => fs w1 !! tmp = Some t ∧ fs w1 !! rec = fs w !! rec
               end
             ∧ copy_of env SHA256 MD5 r f t)
    | Panic _ => False
    end.
Proof.
  intros HN Hf Hk H tmp rec. subst tmp rec.
  destruct w as [fs0 db0 ch0 um0 clk0 tr0].
  cbn [world_of trace db umask fs shutdownChan] in *.
  run H.
  all: subst X; cbn [world_of trace db umask fs shutdownChan].
  all: ev_exists.
  all: (split; [intros; map_simp; done|]).
  all: (split; [ first [ done | solve [solve_hashes] | idtac ] |]).
  all: try (left; repeat split; map_simp; done).
  all: try (right; unfold critical_error; do 3 eexists; split; [reflexivity|]; split; [reflexivity|];
            split; [by map_simp|]; split; [split; by map_simp|]; solve_copy_of).
  all: try (split; [reflexivity|]; split; [by map_simp|]; split; [by map_simp|];
            eexists; split; [by map_simp|]; solve_copy_of).
Qed.

End ReplaceQuiet.

(* the events added, for statements about failed calls *)
Ltac fail_exists :=
  eexists; split;
    [ etrans; [ repeat (apply trace_ext_snoc); apply trace_ext_nil
              | cbn [app]; reflexivity ] |];
  cbn [app forallb existsb last ev_failed ev_tolerated ev_missing andb orb];
  rewrite ?String.eqb_refl, ?eqb_tmp_path, ?eqb_rec_path;
  cbn [andb orb].

Section FinishSpecs.
Context (env : Env) (SHA256 MD5 : list byte → string).

(** The checks leave the files alone. *)
Lemma checks_quiet r path w X :
  NoExt env → rebalance_checks env r path w = X → fs (world_of X) = fs w.
Proof.
  intros HN H. destruct w as [fs0 db0 ch0 um0 clk0 tr0].
  run_lean H.
  all: by subst X.
Qed.

(** The last part always returns; it writes the ledger exactly when it
    returns nil under a positive pass limit. *)
Lemma finish_spec r path oc si w X :
  rebalance_finish env r path oc si w = X →
  ∃ evs, trace (world_of X) = trace w ++ evs
    ∧ umask (world_of X) = umask w
    ∧ shutdownChan (world_of X) = shutdownChan w
    ∧ forallb ev_is_finish evs = true
    ∧ match X with
      | Ret res w1 =>
          (res = None →
           db w1 = if bool_decide (PassesLimit r > 0)
                   then <[path := int_add oc 1]> (db w) else db w)
          ∧ (res ≠ None → db w1 = db w)
      | _ => False
      end.
Proof.
  intros H. destruct w as [fs0 db0 ch0 um0 clk0 tr0].
  cbn [world_of trace db umask fs shutdownChan].
  run_lean H.
  all: subst X; cbn [world_of trace db umask fs shutdownChan].
  all: ev_exists.
  all: repeat split; try done.
Qed.

(** It changes mode and time of the file at most. *)
Lemma finish_quiet r path oc si w X t :
  NoExt env → fs w !! path = Some t →
  rebalance_finish env r path oc si w = X →
  (∀ q, q ≠ path → fs (world_of X) !! q = fs w !! q)
  ∧ ∃ t', fs (world_of X) !! path = Some t'
      ∧ content t' = content t ∧ kind t' = kind t.
Proof.
  intros HN Hf H. destruct w as [fs0 db0 ch0 um0 clk0 tr0].
  cbn [world_of trace db umask fs shutdownChan] in *.
  run_lean H.
  all: subst X; cbn [world_of trace db umask fs shutdownChan].
  all: (split; [intros; by map_simp|]).
  all: eexists; split; [by map_simp|]; try done.
Qed.

(** Which failed calls each part gets over.  The checks return nil only
    over a file found missing, and they panic only in [InitiateShutdown],
    called over a missing file. *)
Lemma checks_failures r path w X :
  rebalance_checks env r path w = X →
  ∃ evs, trace (world_of X) = trace w ++ evs
    ∧ match X with
      | Val _ _ => existsb ev_failed evs = false
      | Ret res _ => res = None → forallb (ev_tolerated path) evs = true
      | Panic w1 =>
          existsb (ev_missing path) evs = true
          ∧ last evs = Some EvInitiateShutdown
          ∧ shutdownChan w1 = ChClosed
      end.
Proof.
  intros H. destruct w as [fs0 db0 ch0 um0 clk0 tr0].
  cbn [world_of trace db umask fs shutdownChan].
  run_lean H.
  all: subst X; cbn [world_of trace db umask fs shutdownChan].
  all: fail_exists.
  all: fin.
Qed.

(** The replacement goes through only when no call fails, and returns nil
    only at the shutdown check or over the original found missing when it
    is removed. *)
Lemma replace_failures r path f w X :
  rebalance_replace env SHA256 MD5 r path f w = X →
  ∃ evs, trace (world_of X) = trace w ++ evs
    ∧ match X with
      | Val _ _ => existsb ev_failed evs = false
      | Ret res _ => res = None → forallb (ev_tolerated path) evs = true
      | Panic _ => False
      end.
Proof.
  intros H. destruct w as [fs0 db0 ch0 um0 clk0 tr0].
  cbn [world_of trace db umask fs shutdownChan].
  run_lean H.
  all: subst X; cbn [world_of trace db umask fs shutdownChan].
  all: fail_exists.
  all: fin.
Qed.

(** The last part returns nil only when no call has failed. *)
Lemma finish_failures r path oc si w X :
  rebalance_finish env r path oc si w = X →
  ∃ evs, trace (world_of X) = trace w ++ evs
    ∧ match X with
      | Ret res _ => res = None → existsb ev_failed evs = false
      | _ => False
      end.
Proof.
  intros H. destruct w as [fs0 db0 ch0 um0 clk0 tr0].
  cbn [world_of trace db umask fs shutdownChan].
  run_lean H.
  all: subst X; cbn [world_of trace db umask fs shutdownChan].
  all: fail_exists.
  all: fin.
Qed.

End FinishSpecs.

(** ** Lists of events *)

Lemma events_since_ext w w' evs :
  trace w' = trace w ++ evs → events_since w w' = evs.
Proof. intros E. unfold events_since. by rewrite E, drop_app_length. Qed.


Lemma renames_app l1 l2 : renames (l1 ++ l2) = renames l1 ++ renames l2.
Proof.
  induction l1 as [|[[]| | | | | | |] l1 IH]; cbn [renames app]; auto.
  by rewrite IH.
Qed.



Lemma renames_In o n r evs :
  In (EvSys (OpRename o n) r) evs ↔ In (o, n, r) (renames evs).
Proof.
  induction evs as [|ev evs IH]; [done|].
  destruct ev as [[]| | | | | | |]; cbn [renames In]; rewrite IH; intuition congruence.
Qed.

Lemma attempted_In f e evs : In (EvWorker f e) evs ↔ In (f, e) (attempted evs).
Proof.
  induction evs as [|ev evs IH]; [done|].
  destruct ev; cbn [attempted In]; rewrite IH; intuition congruence.
Qed.

Lemma forallb_impl {A} (p q : A → bool) l :
  (∀ x, p x = true → q x = true) → forallb p l = true → forallb q l = true.
Proof. rewrite !forallb_forall. auto. Qed.

Lemma forallb_existsb_false {A} (p q : A → bool) l :
  (∀ x, p x = true → q x = false) → forallb p l = true → existsb q l = false.
Proof.
  intros Hpq. induction l as [|x l IH]; [done|]. cbn [forallb existsb].
  intros [Hx Hl]%andb_true_iff. by rewrite (Hpq x Hx), IH.
Qed.

Lemma existsb_In {A} (p : A → bool) l :
  existsb p l = true ↔ ∃ x, In x l ∧ p x = true.
Proof. apply existsb_exists. Qed.

Lemma check_is_file ev : ev_is_check ev = true → ev_is_file ev = true.
Proof. by destruct ev as [[]| | | | | | |]. Qed.
Lemma replace_is_file ev : ev_is_replace ev = true → ev_is_file ev = true.
Proof. by destruct ev as [[]| | | | | | |]. Qed.
Lemma finish_is_file ev : ev_is_finish ev = true → ev_is_file ev = true.
Proof. by destruct ev as [[]| | | | | | |]. Qed.
Lemma check_not_mutates ev : ev_is_check ev = true → ev_mutates ev = false.
Proof. by destruct ev as [[]| | | | | | |]. Qed.
Lemma check_not_replaced p ev : ev_is_check ev = true → ev_replaced p ev = false.
Proof. by destruct ev as [[] []| | | | | | |]. Qed.
Lemma finish_not_replaced p ev : ev_is_finish ev = true → ev_replaced p ev = false.
Proof. by destruct ev as [[] []| | | | | | |]. Qed.

Lemma check_no_renames evs : forallb ev_is_check evs = true → renames evs = [].
Proof.
  induction evs as [|ev evs IH]; [done|]. cbn [forallb].
  intros [Hx Hl]%andb_true_iff.
  destruct ev as [[]| | | | | | |]; try done; cbn [renames]; auto.
Qed.
Lemma finish_no_renames evs : forallb ev_is_finish evs = true → renames evs = [].
Proof.
  induction evs as [|ev evs IH]; [done|]. cbn [forallb].
  intros [Hx Hl]%andb_true_iff.
  destruct ev as [[]| | | | | | |]; try done; cbn [renames]; auto.
Qed.
Lemma file_not_go evs : forallb ev_is_file evs = true → filter ev_is_go evs = [].
Proof.
  induction evs as [|ev evs IH]; [done|]. cbn [forallb].
  intros [Hx Hl]%andb_true_iff. destruct ev; try done; cbn; auto.
Qed.

Section Decomposition.
Context (env : Env) (SHA256 MD5 : list byte → string).

(** ** The three parts of [RebalanceFile] *)

Lemma RebalanceFile_phases r path w R :
  RebalanceFile env SHA256 MD5 r path w = R →
  (∃ w1, rebalance_checks env r path w = Panic w1 ∧ R = Panicked w1)
  ∨ (∃ res w1, rebalance_checks env r path w = Ret res w1 ∧ R = Done res w1)
  ∨ (∃ oc si w1, rebalance_checks env r path w = Val (oc, si) w1
       ∧ ((∃ res w2, rebalance_replace env SHA256 MD5 r path si w1 = Ret res w2
             ∧ R = Done res w2)
          ∨ (∃ w2 res w3,
               rebalance_replace env SHA256 MD5 r path si w1 = Val () w2
               ∧ rebalance_finish env r path oc si w2 = Ret res w3
               ∧ R = Done res w3))).
Proof.
  intros <-. unfold RebalanceFile, func, mbind, M_bind.
  destruct (rebalance_checks env r path w) as [[oc si] w1|res w1|w1] eqn:EA;
    [|right; left; eauto|left; eauto].
  right; right. exists oc, si, w1. split; [done|].
  destruct (rebalance_replace env SHA256 MD5 r path si w1) as [[] w2|res w2|w2] eqn:EB.
  - right. pose proof (finish_spec env r path oc si w2 _ eq_refl) as (? & _ & _ & _ & _ & HC).
    cbv beta iota.
    destruct (rebalance_finish env r path oc si w2) as [? ?|res w3|?] eqn:EC; [done| |done].
    by exists w2, res, w3.
  - left. eauto.
  - by pose proof (replace_spec env SHA256 MD5 r path si w1 _ EB) as (? & _ & _ & _ & _ & ?).
Qed.

(** When no call is made to fail, the checks return no error. *)
Lemma checks_nofail r path w res w1 :
  NoFail env → rebalance_checks env r path w = Ret res w1 → res = None.
Proof.
  intros HF H. destruct w as [fs0 db0 ch0 um0 clk0 tr0].
  run_lean H.
  all: by simplify_eq.
Qed.

(** With the file in place and nobody interfering, the checks let only a
    regular file through, and no hard-linked one when those are skipped. *)
Lemma checks_quiet_val r path w f oc si w1 :
  NoExt env → fs w !! path = Some f →
  rebalance_checks env r path w = Val (oc, si) w1 →
  HasSuffix path ".balance" = false
  ∧ (SkipHardlinks r = true → (nlink f <= 1)%N).
Proof.
  intros HN Hf H. destruct w as [fs0 db0 ch0 um0 clk0 tr0].
  cbn [fs] in Hf.
  run_lean H.
  all: simplify_eq.
  all: split; [done|]; intros; try done.
  all: by apply N.ltb_ge.
Qed.

Lemma checks_suffix r path w :
  HasSuffix path ".balance" = true → rebalance_checks env r path w = Ret None w.
Proof.
  intros Hs. unfold rebalance_checks, mbind, M_bind. by rewrite Hs.
Qed.

End Decomposition.

(** Split a call of [RebalanceFile] into the parts that ran, with what each
    is known to do and the events of the whole call. *)
Ltac phases env SHA256 MD5 H :=
  let EA := fresh "EA" in let EB := fresh "EB" in let EC := fresh "EC" in
  destruct (RebalanceFile_phases env SHA256 MD5 _ _ _ _ H)
    as [(?w1 & EA & ?)|[(?res & ?w1 & EA & ?)
       |(?oc & ?si & ?w1 & EA & [(?res & ?w2 & EB & ?)|(?w2 & ?res & ?w3 & EB & EC & ?)])]];
  pose proof (checks_spec env _ _ _ _ EA) as (?evsA & ?TA & ?DA & ?UA & ?FA & ?HA);
  cbn [world_of] in *;
  try (pose proof (replace_spec env SHA256 MD5 _ _ _ _ _ EB)
         as (?evsB & ?TB & ?DB & ?UB & ?FB & ?HB));
  try (pose proof (finish_spec env _ _ _ _ _ _ EC) as (?evsC & ?TC & ?UC & ?SC & ?FC & ?HC));
  cbn [world_of] in *;
  clear H; simplify_eq; cbn [result_world];
  match goal with
  | TA : trace _ = _ ++ _, TB : trace _ = _ ++ _, TC : trace _ = _ ++ _ |- _ =>
      rewrite TB, TA, <- !app_assoc in TC; cbn [app] in TC;
      rewrite ?(events_since_ext _ _ _ TC)
  | TA : trace _ = _ ++ _, TB : trace _ = _ ++ _ |- _ =>
      rewrite TA, <- !app_assoc in TB; cbn [app] in TB;
      rewrite ?(events_since_ext _ _ _ TB)
  | TA : trace _ = _ ++ _ |- _ => rewrite ?(events_since_ext _ _ _ TA)
  end.

Lemma int_add_1 z : int_min <= z < int_max → int_add z 1 = z + 1.
Proof.
  unfold int_min, int_max, int_add, int_wrap. intros.
  rewrite Z.mod_small; lia.
Qed.

Lemma existsb_cons_false {A} (p : A → bool) x l :
  p x = false → existsb p (x :: l) = existsb p l.
Proof. intros E. cbn [existsb]. by rewrite E. Qed.

Section PerFile.
Context (env : Env) (SHA256 MD5 : list byte → string).

(** C6, as the code has it: one call of [RebalanceFile] leaves the counts of
    all other paths alone; a call that fails, panics or skips the file
    leaves the ledger as it was; a call that replaced the file and returned
    nil has written the old count plus one when the pass limit is positive,
    and has not touched the ledger when the limit is zero or negative.  So
    the count never decreases, and with a positive limit it grows by exactly
    one on each successful replacement. *)
Theorem RebalanceFile_ledger_increment r path w :
  let R := RebalanceFile env SHA256 MD5 r path w in
  let w' := result_world R in
  let evs := events_since w w' in
  let replaced := existsb (ev_replaced path) evs in
  (∀ q, q ≠ path → db w' !! q = db w !! q)
  ∧ (R ≠ Done None w' → db w' = db w)
  ∧ (replaced = false → db w' = db w)
  ∧ (R = Done None w' → replaced = true →
       db w' = if bool_decide (PassesLimit r > 0)
               then <[path := int_add (ledger_count w path) 1]> (db w)
               else db w)
  ∧ (int_min <= ledger_count w path < int_max →
       ledger_count w path <= ledger_count w' path
       ∧ (R = Done None w' → replaced = true → PassesLimit r > 0 →
            ledger_count w' path = ledger_count w path + 1)).
Proof.
  intros R w' evs replaced. subst replaced evs w' R.
  remember (RebalanceFile env SHA256 MD5 r path w) as R eqn:H. symmetry in H.
  phases env SHA256 MD5 H.
  - (* the checks panic *)
    unfold ledger_count. rewrite DA. repeat split; try done; try lia.
  - (* the checks return *)
    unfold ledger_count. rewrite DA, (forallb_existsb_false _ _ _ (check_not_replaced path) FA).
    repeat split; try done; try lia.
  - (* the replacement returns *)
    destruct HB as (_ & HB & _). unfold ledger_count. rewrite DB, DA.
    rewrite existsb_app, (forallb_existsb_false _ _ _ (check_not_replaced path) FA).
    rewrite existsb_cons_false by done. rewrite HB.
    repeat split; try done; try lia.
  - (* all three parts ran *)
    destruct HA as (_ & _ & -> & _). destruct HC as [HC1 HC2].
    rewrite DB, DA in HC1, HC2.
    destruct HB as (_ & _ & HB & _).
    rewrite existsb_app, (forallb_existsb_false _ _ _ (check_not_replaced path) FA).
    rewrite existsb_cons_false by done.
    rewrite existsb_app, HB. cbn [orb].
    assert (Hq : ∀ q, q ≠ path → db w3 !! q = db w !! q).
    { intros q Hq. destruct res; [by rewrite HC2|]. rewrite HC1 by done.
      case_bool_decide; [by rewrite lookup_insert_ne|done]. }
    repeat split; try done.
    + intros Hne. apply HC2. by intros ->.
    + intros [= ->]. auto.
    + unfold ledger_count at 2. destruct res; [by rewrite HC2|]. rewrite HC1 by done.
      case_bool_decide; [|done].
      rewrite lookup_insert_eq. cbn. rewrite int_add_1 by done. lia.
    + intros [= ->] _ Hl. unfold ledger_count at 1. rewrite HC1 by done.
      rewrite bool_decide_eq_true_2 by done.
      rewrite lookup_insert_eq. cbn. by rewrite int_add_1.
Qed.

(** Inside one call of [RebalanceFile] the shutdown signal is consulted at
    most once, after the checks (which change neither files nor ledger) and
    before the copy; a call that finds the signal set returns nil at once,
    and after that point the call never looks at the signal again. *)
Lemma RebalanceFile_consults_once r path w :
  let R := RebalanceFile env SHA256 MD5 r path w in
  let w' := result_world R in
  ∃ pre rest, events_since w w' = pre ++ rest
    ∧ forallb ev_is_check pre = true
    ∧ existsb ev_is_consult pre = false
    ∧ existsb ev_mutates pre = false
    ∧ match rest with
      | [] => True
      | ev :: post =>
          ev = EvIsShuttingDown (bool_decide (shutdownChan w = ChClosed))
          ∧ existsb ev_is_consult post = false
          ∧ (shutdownChan w = ChClosed → post = [] ∧ R = Done None w')
      end.
Proof.
  intros R w'. subst w' R.
  remember (RebalanceFile env SHA256 MD5 r path w) as R eqn:H. symmetry in H.
  assert (Hc : ∀ l, forallb ev_is_check l = true → existsb ev_is_consult l = false).
  { intros l. apply forallb_existsb_false. by intros [[]| | | | | | |]. }
  assert (Hm : ∀ l, forallb ev_is_check l = true → existsb ev_mutates l = false).
  { intros l. apply forallb_existsb_false, check_not_mutates. }
  assert (Hr : ∀ l, forallb ev_is_replace l = true → existsb ev_is_consult l = false).
  { intros l. apply forallb_existsb_false. by intros [[]| | | | | | |]. }
  assert (Hf : ∀ l, forallb ev_is_finish l = true → existsb ev_is_consult l = false).
  { intros l. apply forallb_existsb_false. by intros [[]| | | | | | |]. }
  phases env SHA256 MD5 H.
  - exists evsA, []. rewrite app_nil_r. repeat split; auto.
  - exists evsA, []. rewrite app_nil_r. repeat split; auto.
  - destruct HA as (HS & _). rewrite HS in *. destruct HB as (HB & _).
    eexists evsA, (_ :: evsB). repeat split; auto.
    + by destruct (HB H) as (-> & ?).
    + by destruct (HB H) as (? & -> & ?).
  - destruct HA as (HS & _). rewrite HS in *. destruct HB as (HB & _).
    eexists evsA, (_ :: evsB ++ evsC). repeat split; auto.
    + rewrite existsb_app, Hr, Hf; auto.
    + congruence.
    + congruence.
Qed.

Lemma ok_not_missing p l : forallb ev_ok l = true → existsb (ev_missing p) l = false.
Proof. apply forallb_existsb_false. by intros [[] []| | | | | | |]. Qed.

Lemma ok_tolerated p l : forallb ev_ok l = true → forallb (ev_tolerated p) l = true.
Proof. apply forallb_impl. by intros [[] []| | | | | | |]. Qed.

Lemma unfailed_tolerated p l :
  existsb ev_failed l = false → forallb (ev_tolerated p) l = true.
Proof.
  induction l as [|ev l IH]; [done|]. cbn [existsb forallb].
  intros [Hx Hl]%orb_false_iff. rewrite (IH Hl), andb_true_r.
  by destruct ev as [[] []| | | | | | |].
Qed.

(** C7, as the code has it: unless the call panics in [InitiateShutdown]
    (halt-on-missing with the signal set already), [RebalanceFile] returns;
    it returns nil without touching anything for a path with the temp
    suffix; nil, with files and ledger as they were, for a hard-linked file
    when those are skipped, for a file that is not regular and for a file
    that is not there; and nil whenever the call itself finds the file
    missing before it has replaced it (at the link count, at the check that
    the file exists, or at the removal of the original), in which case
    halt-on-missing has closed the shutdown channel.  At every other
    point a missing file is an error like any failed call: a call that
    returns nil has got over no failure but these and the removal of the
    temp file; once it has replaced the file a call returns nil only when
    none of its calls has failed; and a call that cannot open the original,
    for the copy or for the digest, returns an error. *)
Theorem RebalanceFile_soft_conditions r path w :
  HaltOnFileMissing r = false ∨ shutdownChan w = ChOpen →
  ∃ res w', RebalanceFile env SHA256 MD5 r path w = Done res w'
  ∧ (HasSuffix path ".balance" = true → res = None ∧ w' = w)
  ∧ (NoExt env → NoFail env →
       match fs w !! path with
       | Some f => SkipHardlinks r = true ∧ (1 < nlink f)%N ∨ kind f ≠ Regular
       | None => True
       end →
       res = None ∧ db w' = db w ∧ fs w' = fs w)
  ∧ (existsb (ev_missing path) (events_since w w') = true →
     existsb (ev_replaced path) (events_since w w') = false →
     res = None ∧ (HaltOnFileMissing r = true → shutdownChan w' = ChClosed))
  ∧ (res = None → forallb (ev_tolerated path) (events_since w w') = true)
  ∧ (res = None → existsb (ev_replaced path) (events_since w w') = true →
     existsb ev_failed (events_since w w') = false)
  ∧ (∀ e, In (EvSys (OpOpen path) (Some e)) (events_since w w') → res ≠ None).
Proof.
  intros Hs.
  assert (Hopen : ∀ (res : option error) evs e,
            (res = None → forallb (ev_tolerated path) evs = true) →
            In (EvSys (OpOpen path) (Some e)) evs → res ≠ None).
  { intros res evs e Ht Hin ->.
    by apply (proj1 (forallb_forall _ _) (Ht eq_refl)) in Hin. }
  remember (RebalanceFile env SHA256 MD5 r path w) as R eqn:H. symmetry in H.
  pose proof H as H0. phases env SHA256 MD5 H0.
  - exfalso. destruct HA as [HA1 HA2]. destruct Hs; congruence.
  - exists res, w1. rewrite (events_since_ext _ _ _ TA). split; [done|].
    destruct (checks_failures env _ _ _ _ EA) as (evs' & T' & HF').
    cbn [world_of] in T'. rewrite TA in T'. apply app_inv_head in T'. subst evs'.
    split; [|split; [|split; [|split; [|split]]]].
    + intros Hx. rewrite (checks_suffix env _ _ _ Hx) in EA. by simplify_eq.
    + intros HN HF _. split; [by eapply checks_nofail|].
      split; [done|]. by apply (checks_quiet env _ _ _ _ HN EA).
    + intros Hm _. destruct HA as (HA1 & _ & HA3). auto.
    + done.
    + intros _. by rewrite (forallb_existsb_false _ _ _ (check_not_replaced path) FA).
    + intros e. by apply Hopen.
  - exists res, w2. rewrite (events_since_ext _ _ _ TB).
    destruct (checks_failures env _ _ _ _ EA) as (evsA' & TA' & HFA).
    cbn [world_of] in TA'. rewrite TA in TA'. apply app_inv_head in TA'. subst evsA'.
    destruct (replace_failures env SHA256 MD5 _ _ _ _ _ EB) as (evsB' & TB' & HFB).
    cbn [world_of] in TB'.
    assert (Htol : res = None →
              forallb (ev_tolerated path)
                (evsA ++ EvIsShuttingDown (bool_decide (shutdownChan w1 = ChClosed))
                      :: evsB) = true).
    { intros Hr. rewrite forallb_app, (unfailed_tolerated _ _ HFA). cbn [andb].
      specialize (HFB Hr). rewrite TA, <- app_assoc in TB'.
      assert (evsB' = EvIsShuttingDown
        (bool_decide (shutdownChan w1 = ChClosed)) :: evsB) as ->; [|done].
      rewrite TB in TB'. by apply app_inv_head, app_inv_head in TB'. }
    split; [done|]. split; [|split; [|split; [|split; [|split]]]].
    + intros Hx. rewrite (checks_suffix env _ _ _ Hx) in EA. by simplify_eq.
    + intros HN HF Hc. exfalso.
      pose proof (checks_quiet env _ _ _ _ HN EA) as Hfs. cbn [world_of] in Hfs.
      destruct HA as (_ & _ & _ & Hk & _ & Hsi). rewrite Hfs in Hsi.
      rewrite Hsi in Hc.
      destruct (checks_quiet_val env _ _ _ _ _ _ _ HN Hsi EA) as [_ Hl].
      destruct Hc as [[Hc1 Hc2]|Hc]; [|done]. specialize (Hl Hc1). lia.
    + destruct HA as (_ & Hok & _). destruct HB as (_ & _ & HB & _ & HB5).
      rewrite existsb_app, (ok_not_missing _ _ Hok). cbn [orb existsb ev_missing].
      auto.
    + done.
    + intros _. destruct HB as (_ & HB & _).
      rewrite existsb_app, (forallb_existsb_false _ _ _ (check_not_replaced path) FA).
      cbn [orb existsb ev_replaced]. by rewrite HB.
    + intros e. by apply Hopen.
  - exists res, w3. rewrite (events_since_ext _ _ _ TC).
    destruct (checks_failures env _ _ _ _ EA) as (evsA' & TA' & HFA).
    cbn [world_of] in TA'. rewrite TA in TA'. apply app_inv_head in TA'. subst evsA'.
    destruct (replace_failures env SHA256 MD5 _ _ _ _ _ EB) as (evsB' & TB' & HFB).
    destruct (finish_failures env _ _ _ _ _ _ EC) as (evsC' & TC' & HFC).
    cbn [world_of] in TB', TC'.
    assert (evsB' = EvIsShuttingDown (bool_decide (shutdownChan w1 = ChClosed))
                      :: evsB) as ->.
    { rewrite TB in TB'. by apply app_inv_head in TB'. }
    assert (evsC' = evsC) as ->.
    { rewrite TC' in TC. rewrite TB, TA in TC.
      rewrite <- ?app_assoc in TC. cbn [app] in TC.
      apply app_inv_head, app_inv_head in TC. injection TC as TC.
      by apply app_inv_head in TC. }
    assert (Hun : res = None →
              existsb ev_failed
                (evsA ++ EvIsShuttingDown (bool_decide (shutdownChan w1 = ChClosed))
                      :: evsB ++ evsC) = false).
    { intros Hr. rewrite existsb_app, HFA. cbn [orb].
      change (EvIsShuttingDown ?b :: evsB ++ evsC)
        with ((EvIsShuttingDown b :: evsB) ++ evsC).
      by rewrite existsb_app, HFB, (HFC Hr). }
    split; [done|]. split; [|split; [|split; [|split; [|split]]]].
    + intros Hx. rewrite (checks_suffix env _ _ _ Hx) in EA. by simplify_eq.
    + intros HN HF Hc. exfalso.
      pose proof (checks_quiet env _ _ _ _ HN EA) as Hfs. cbn [world_of] in Hfs.
      destruct HA as (_ & _ & _ & Hk & _ & Hsi). rewrite Hfs in Hsi.
      rewrite Hsi in Hc.
      destruct (checks_quiet_val env _ _ _ _ _ _ _ HN Hsi EA) as [_ Hl].
      destruct Hc as [[Hc1 Hc2]|Hc]; [|done]. specialize (Hl Hc1). lia.
    + intros _. destruct HB as (_ & _ & HB & _).
      rewrite existsb_app. cbn [existsb ev_replaced orb].
      rewrite existsb_app, HB. cbn [orb]. by rewrite orb_true_r.
    + intros Hr. by apply unfailed_tolerated, Hun.
    + intros Hr _. by apply Hun.
    + intros e. apply Hopen. intros Hr. by apply unfailed_tolerated, Hun.
Qed.

(** C5: with a positive pass limit that the ledger's count for the path has
    reached, [RebalanceFile] returns nil, leaves the ledger as it is and
    makes no call that copies, removes, renames or otherwise changes a
    file. *)
Theorem RebalanceFile_pass_limit_noop r path w :
  NoFail env →
  PassesLimit r > 0 → ledger_count w path >= PassesLimit r →
  HaltOnFileMissing r = false ∨ shutdownChan w = ChOpen →
  ∃ w', RebalanceFile env SHA256 MD5 r path w = Done None w'
  ∧ db w' = db w
  ∧ ledger_count w' path = ledger_count w path
  ∧ existsb ev_mutates (events_since w w') = false
  ∧ (NoExt env → fs w' = fs w).
Proof.
  intros HF HL Hc Hs.
  remember (RebalanceFile env SHA256 MD5 r path w) as R eqn:H. symmetry in H.
  pose proof H as H0. phases env SHA256 MD5 H0.
  - exfalso. destruct HA as [HA1 HA2]. destruct Hs; congruence.
  - exists w1. rewrite (events_since_ext _ _ _ TA).
    rewrite (checks_nofail env _ _ _ _ _ HF EA) in *.
    unfold ledger_count. rewrite DA. repeat split; try done.
    + by apply (forallb_existsb_false _ _ _ check_not_mutates).
    + intros HN. by apply (checks_quiet env _ _ _ _ HN EA).
  - exfalso. destruct HA as (_ & _ & -> & _ & HA & _). auto.
  - exfalso. destruct HA as (_ & _ & -> & _ & HA & _). auto.
Qed.

(** What any call of [RebalanceFile] does to the trace and to the shutdown
    signal. *)
Lemma RebalanceFile_trace r path w :
  let R := RebalanceFile env SHA256 MD5 r path w in
  ∃ evs, trace (result_world R) = trace w ++ evs
    ∧ forallb ev_is_file evs = true
    ∧ (HaltOnFileMissing r = false →
       shutdownChan (result_world R) = shutdownChan w
       ∧ ∃ res, R = Done res (result_world R)).
Proof.
  intros R. subst R.
  remember (RebalanceFile env SHA256 MD5 r path w) as R eqn:H. symmetry in H.
  phases env SHA256 MD5 H.
  - exists evsA. split; [done|]. split; [by eapply forallb_impl, FA; apply check_is_file|].
    intros Hh. destruct HA; congruence.
  - exists evsA. split; [done|]. split; [by eapply forallb_impl, FA; apply check_is_file|].
    intros Hh. split; [|by eauto]. destruct HA as (_ & [?|(? & _)] & _); congruence.
  - eexists. split; [done|]. split.
    + rewrite forallb_app. cbn [forallb ev_is_file andb].
      rewrite (forallb_impl _ _ _ check_is_file FA).
      by rewrite (forallb_impl _ _ _ replace_is_file FB).
    + intros Hh. split; [|by eauto]. destruct HA as (<- & _).
      destruct HB as (_ & _ & _ & [?|(? & _)] & _); congruence.
  - eexists. split; [done|]. split.
    + rewrite forallb_app. cbn [forallb ev_is_file andb]. rewrite forallb_app.
      rewrite (forallb_impl _ _ _ check_is_file FA).
      rewrite (forallb_impl _ _ _ replace_is_file FB).
      by rewrite (forallb_impl _ _ _ finish_is_file FC).
    + intros Hh. split; [|by eauto]. destruct HA as (<- & _).
      destruct HB as (HB1 & HB2 & _). congruence.
Qed.

End PerFile.

(** The same split when no other process interferes and the file is in
    place: what each part does to the files. *)
Ltac phases_quiet env SHA256 MD5 HN Hf H :=
  let EA := fresh "EA" in let EB := fresh "EB" in let EC := fresh "EC" in
  destruct (RebalanceFile_phases env SHA256 MD5 _ _ _ _ H)
    as [(?w1 & EA & ?)|[(?res & ?w1 & EA & ?)
       |(?oc & ?si & ?w1 & EA & [(?res & ?w2 & EB & ?)|(?w2 & ?res & ?w3 & EB & EC & ?)])]];
  clear H;
  pose proof (checks_spec env _ _ _ _ EA) as (?evsA & ?TA & ?DA & ?UA & ?FA & ?HA);
  pose proof (checks_quiet env _ _ _ _ HN EA) as ?QA;
  cbn [world_of] in *;
  try (destruct HA as (_ & _ & _ & ?Hk & _ & ?Hsi);
       match goal with
       | Hsi : fs _ !! _ = Some _, QA : fs _ = fs _ |- _ =>
           pose proof Hsi as ?Hw1; rewrite QA, Hf in Hsi;
           apply (inj Some) in Hsi; subst
       end);
  try (match goal with Hw1 : fs _ !! _ = Some _, Hk : kind _ = Regular |- _ =>
         pose proof (replace_quiet env SHA256 MD5 _ _ _ _ _ HN Hw1 Hk EB)
           as (?evsB & ?TB & ?QB & ?HH & ?HB)
       end);
  simplify_eq; cbn [world_of result_world] in *.

Section PerFileQuiet.
Context (env : Env) (SHA256 MD5 : list byte → string).

(** C1: when nobody else touches the files and there is no entry at the
    temp path [path.balance], a call of [RebalanceFile] that returns nil,
    be it after replacing the file or after skipping it, leaves at the path
    a file of the same kind whose content has the digest of the content
    before, and the same bytes unless a copy was garbled. *)
Theorem RebalanceFile_content_invariant r path w f w' :
  NoExt env → fs w !! path = Some f →
  fs w !! (path +:+ ".balance") = None →
  RebalanceFile env SHA256 MD5 r path w = Done None w' →
  ∃ f', fs w' !! path = Some f' ∧ kind f' = kind f
    ∧ same_content env SHA256 MD5 r f f'.
Proof.
  intros HN Hf _ H. phases_quiet env SHA256 MD5 HN Hf H.
  - exists f. rewrite QA. by repeat split.
  - destruct HB as [(_ & HB & _)|(? & ? & ? & _ & ? & _)]; [|done].
    exists si. by repeat split.
  - destruct HB as (_ & _ & _ & t & Ht & Hkt & _ & Hd & Hc).
    destruct (finish_quiet env _ _ _ _ _ _ _ HN Ht EC) as (_ & t' & Ht' & Hc' & Hk').
    cbn [world_of] in *. exists t'. split; [done|]. split; [congruence|].
    split; [by rewrite Hc'|]. intros HG. rewrite Hc'. auto.
Qed.

Lemma renames_total evsA evsB evsC :
  forallb ev_is_check evsA = true → forallb ev_is_finish evsC = true →
  renames (evsA ++ evsB ++ evsC) = renames evsB.
Proof.
  intros HA HC.
  by rewrite !renames_app, (check_no_renames _ HA), (finish_no_renames _ HC), app_nil_r.
Qed.


(** C2, as the code has it: when nobody else touches the files and there
    is no entry at the temp path, a rename of the temp file onto the
    original path that fails makes [RebalanceFile] try the rename to
    [path.recovered], whose result the code does not look at, and return
    the critical error, whose message names that path; the original path is
    then empty, and a verified copy of the content is in the recovery file
    when that second rename went through, and still in the temp file when
    it did not.  In every other outcome the original path holds the
    content. *)
Theorem RebalanceFile_rename_failure r path w f :
  NoExt env → fs w !! path = Some f →
  fs w !! (path +:+ ".balance") = None →
  let R := RebalanceFile env SHA256 MD5 r path w in
  let w' := result_world R in
  let evs := events_since w w' in
  let tmp := path +:+ ".balance" in
  let rec := path +:+ ".recovered" in
  (∀ e, In (EvSys (OpRename tmp path) (Some e)) evs →
     R = Done (Some (critical_error path e)) w'
     ∧ Error (critical_error path e)
       = "CRITICAL: rename failed, data saved to " +:+ rec +:+ ": "
           +:+ Error (LinkError "rename" tmp path e)
     ∧ fs w' !! path = None
     ∧ ∃ r2 t, In (EvSys (OpRename tmp rec) r2) evs
         ∧ kind t = Regular ∧ same_content env SHA256 MD5 r f t
         ∧ match r2 with
           | None => fs w' !! rec = Some t ∧ fs w' !! tmp = None
           | Some _ => fs w' !! tmp = Some t ∧ fs w' !! rec = fs w !! rec
           end)
  ∧ ((∀ e, ¬ In (EvSys (OpRename tmp path) (Some e)) evs) →
     ∃ t, fs w' !! path = Some t ∧ kind t = kind f
       ∧ same_content env SHA256 MD5 r f t).
Proof.
  intros HN Hf _ R w' evs tmp rec. subst evs w' R.
  remember (RebalanceFile env SHA256 MD5 r path w) as R eqn:H. symmetry in H.
  phases_quiet env SHA256 MD5 HN Hf H.
  - rewrite (events_since_ext _ _ _ TA), QA. split.
    + intros e He%renames_In. by rewrite (check_no_renames _ FA) in He.
    + intros _. exists f. by repeat split.
  - rewrite (events_since_ext _ _ _ TA), QA. split.
    + intros e He%renames_In. by rewrite (check_no_renames _ FA) in He.
    + intros _. exists f. by repeat split.
  - rewrite TA, <- app_assoc in TB. rewrite (events_since_ext _ _ _ TB).
    destruct HB as [(HB & Hp & _)|(e & r2 & t & HB & -> & Hp & Hr & Hkt & _ & Hd & Hc)].
    + split.
      * intros e He%renames_In. rewrite renames_app, (check_no_renames _ FA) in He.
        by rewrite HB in He.
      * intros _. exists si. by repeat split.
    + split.
      * intros e' He%renames_In.
        rewrite renames_app, (check_no_renames _ FA), HB in He. cbn [app In] in He.
        destruct He as [He|[He|[]]]; simplify_eq.
        2:{ by destruct (rec_ne path). }
        split; [done|]. split; [done|]. split; [done|].
        exists r2, t. split.
        { apply renames_In. rewrite renames_app, HB. apply in_or_app. right.
          cbn [In]. auto. }
        split; [done|]. split; [by split|].
        destruct r2; [by rewrite <- QA|done].
      * intros He. exfalso. apply (He e). apply renames_In.
        rewrite renames_app, HB. apply in_or_app. right. cbn [In]. auto.
  - pose proof (finish_spec env _ _ _ _ _ _ EC) as (evsC & TC & _ & _ & FC & _).
    cbn [world_of] in TC.
    rewrite TB, TA, <- !app_assoc in TC. rewrite (events_since_ext _ _ _ TC).
    destruct HB as (HB & _ & _ & t & Ht & Hkt & _ & Hd & Hc).
    destruct (finish_quiet env _ _ _ _ _ _ _ HN Ht EC) as (_ & t' & Ht' & Hc' & Hk').
    cbn [world_of] in *. split.
    + intros e He%renames_In. rewrite (renames_total _ _ _ FA FC), HB in He.
      cbn [In] in He. destruct He as [He|[]]. done.
    + intros _. exists t'. split; [done|]. split; [congruence|].
      split; [by rewrite Hc'|]. intros HG. rewrite Hc'. auto.
Qed.


End PerFileQuiet.

(** ** The coordinator *)

Lemma extends_refl P w : extends P w w.
Proof. exists []. by rewrite app_nil_r. Qed.

Lemma extends_trans P w1 w2 w3 :
  extends P w1 w2 → extends P w2 w3 → extends P w1 w3.
Proof.
  intros (l1 & E1 & H1) (l2 & E2 & H2). exists (l1 ++ l2).
  rewrite E2, E1, app_assoc, forallb_app, H1, H2. done.
Qed.

Lemma extends_emit P ev w : P ev = true → extends P w (emit ev w).
Proof. intros H. exists [ev]. cbn. by rewrite H. Qed.

Lemma extends_impl (P Q : Event → bool) w w' :
  (∀ ev, P ev = true → Q ev = true) → extends P w w' → extends Q w w'.
Proof. intros H (l & E & Hl). exists l. eauto using forallb_impl. Qed.

Section Primitives.
Context (env : Env) (SHA256 MD5 : list byte → string).
Context (Walk : gmap string File → string → list string).
Context (Shuffle : list string → list string).

Lemma interfered_trace op w :
  trace (interfered env op w) = trace w
  ∧ shutdownChan (interfered env op w) = shutdownChan w
  ∧ db (interfered env op w) = db w.
Proof. unfold interfered. by destruct (inj_ext _). Qed.

Lemma os_Remove_spec {R} p w :
  ∃ err w1, os_Remove (R:=R) env p w = Val err w1
    ∧ extends ev_is_file w w1 ∧ shutdownChan w1 = shutdownChan w.
Proof.
  unfold os_Remove, os_error, sys_fs, mbind, M_bind.
  destruct (interfered_trace (OpRemove p) w) as (Et & Es & _).
  revert Et Es. generalize (interfered env (OpRemove p) w). intros w0 Et Es.
  assert (Hx : ∀ e m, extends ev_is_file w (emit (EvSys (OpRemove p) e) (tick (set_fs m w0)))
                    ∧ extends ev_is_file w (emit (EvSys (OpRemove p) e) (tick w0))).
  { intros e m. split; eexists [_]; cbn; by rewrite Et. }
  destruct (inj_fail _).
  - do 2 eexists. split; [done|]. split; [apply (Hx _ ∅)|done].
  - destruct (remove_sem _ _ _ _) as [[[] m2]|e].
    + do 2 eexists. split; [done|]. split; [apply (Hx None m2)|done].
    + do 2 eexists. split; [done|]. split; [apply (Hx _ ∅)|done].
Qed.

Lemma cleanup_loop_spec {R} l w :
  ∃ w1, for_range (R:=R) l (λ path, os_Remove env path;; mret ()) w = Val () w1
    ∧ extends ev_is_file w w1 ∧ shutdownChan w1 = shutdownChan w.
Proof.
  revert w. induction l as [|p l IH]; intros w.
  - exists w. split; [done|]. split; [apply extends_refl|done].
  - cbn [for_range]. unfold mbind at 1, M_bind at 1. unfold mbind at 1, M_bind at 1.
    destruct (os_Remove_spec (R:=R) p w) as (err & w1 & -> & X1 & S1).
    cbn. destruct (IH w1) as (w2 & -> & X2 & S2).
    exists w2. split; [done|]. split; [by eapply extends_trans|congruence].
Qed.

Lemma cleanupBalanceFiles_spec r w :
  ∃ w1, cleanupBalanceFiles env Walk r w = Done None w1
    ∧ extends ev_is_file w w1 ∧ shutdownChan w1 = shutdownChan w.
Proof.
  unfold cleanupBalanceFiles, func, walk_collect, mbind, M_bind.
  match goal with |- context [for_range ?l ?f w] =>
    destruct (cleanup_loop_spec (R:=option error) l w) as (w1 & E & X & S) end.
  unfold mbind, M_bind in E. rewrite E. cbn. eauto.
Qed.

Lemma GatherFiles_spec r w :
  GatherFiles Walk r w
  = Done (List.filter (λ p, match fs w !! p with
                            | Some info => IsRegular (Mode info)
                            | None => false
                            end) (Walk (fs w) (RootPath r)), None) w.
Proof. done. Qed.

Lemma isShuttingDown_spec w :
  isShuttingDown w
  = Done (bool_decide (shutdownChan w = ChClosed))
      (emit (EvIsShuttingDown (bool_decide (shutdownChan w = ChClosed))) w).
Proof. done. Qed.

Lemma InitiateShutdown_spec w :
  InitiateShutdown w
  = match shutdownChan w with
    | ChOpen => Done () (set_shutdownChan ChClosed (emit EvInitiateShutdown w))
    | ChClosed => Panicked (emit EvInitiateShutdown w)
    end.
Proof. unfold InitiateShutdown, func, mbind, M_bind, close_shutdownChan. cbn. by destruct (shutdownChan w). Qed.

End Primitives.

Section Turns.
Context (env : Env) (SHA256 MD5 : list byte → string).
Context (Walk : gmap string File → string → list string).
Context (Shuffle : list string → list string).

(** One turn of the coordinator and one turn of a worker, spelled out. *)
Lemma coordinator_step_eq p w :
  coordinator_step p w =
  if fileChanClosed p then Done p w else
  match pending p with
  | f :: rest =>
      let b := bool_decide (shutdownChan w = ChClosed) in
      Done (if b
            then mkPool (pending p) (fileChan p) true (running p)
                   (resultChan p) (processedCount p)
            else mkPool rest (fileChan p ++ [f]) false (running p)
                   (resultChan p) (processedCount p))
        (emit (EvIsShuttingDown b) w)
  | [] => Done (mkPool [] (fileChan p) true (running p)
                  (resultChan p) (processedCount p)) w
  end.
Proof.
  unfold coordinator_step, func, mbind, M_bind, when_, call, return_.
  destruct (fileChanClosed p); [done|]. cbn.
  destruct (pending p); [done|].
  rewrite isShuttingDown_spec. by destruct (bool_decide _).
Qed.

Lemma worker_step_eq r progress i p w :
  worker_step env SHA256 MD5 r progress i p w =
  if negb (default false (running p !! i)) then Done p w else
  match fileChan p with
  | f :: queue =>
      let b := bool_decide (shutdownChan w = ChClosed) in
      let w1 := emit (EvIsShuttingDown b) w in
      if b
      then Done (mkPool (pending p) queue (fileChanClosed p)
                   (<[i := false]> (running p)) (resultChan p) (processedCount p)) w1
      else
        match RebalanceFile env SHA256 MD5 r f w1 with
        | Done e w2 =>
            let n := int_add (processedCount p) 1 in
            let w3 := emit (EvWorker f e) w2 in
            Done (mkPool (pending p) queue (fileChanClosed p) (running p)
                    (resultChan p ++ [e]) n)
              (if progress then emit (EvProgress n) w3 else w3)
        | Panicked w2 => Panicked w2
        end
  | [] =>
      Done (if fileChanClosed p
            then mkPool (pending p) [] true (<[i := false]> (running p))
                   (resultChan p) (processedCount p)
            else p) w
  end.
Proof.
  unfold worker_step, func, mbind, M_bind, when_, call, return_, log_event.
  destruct (negb _); [done|]. cbn.
  destruct (fileChan p) as [|f queue]; [by destruct (fileChanClosed p)|].
  rewrite isShuttingDown_spec. destruct (bool_decide _); [reflexivity|].
  cbv zeta. unfold mret, M_ret. destruct (RebalanceFile _ _ _ _ _ _) as [e w2|w2]; [|done].
  by destruct progress.
Qed.

Lemma step_extends r progress a p w :
  extends ev_is_work w (result_world (step env SHA256 MD5 r progress a p w)).
Proof.
  destruct a as [|i|]; cbn [step].
  - rewrite coordinator_step_eq. destruct (fileChanClosed p); [apply extends_refl|].
    destruct (pending p); [apply extends_refl|]. by apply extends_emit.
  - rewrite worker_step_eq. destruct (negb _); [apply extends_refl|].
    destruct (fileChan p) as [|f queue]; [apply extends_refl|].
    cbv zeta. destruct (bool_decide _); [by apply extends_emit|].
    eapply extends_trans; [by apply (extends_emit _ (EvIsShuttingDown false))|].
    pose proof (RebalanceFile_trace env SHA256 MD5 r f
                  (emit (EvIsShuttingDown false) w)) as (evs & E & F & _).
    assert (X : extends ev_is_work (emit (EvIsShuttingDown false) w)
                  (result_world (RebalanceFile env SHA256 MD5 r f
                                   (emit (EvIsShuttingDown false) w)))).
    { exists evs. split; [done|]. eapply forallb_impl, F. by intros []. }
    destruct (RebalanceFile _ _ _ _ _ _) as [e w2|w2]; [|done].
    cbn [result_world] in *. eapply extends_trans; [done|].
    destruct progress.
    + eapply extends_trans; by apply extends_emit.
    + by apply extends_emit.
  - unfold func, mbind, M_bind, call. rewrite InitiateShutdown_spec.
    destruct (shutdownChan w); cbn; eexists [_]; done.
Qed.

Lemma run_schedule_extends r progress sched p w :
  extends ev_is_work w
    (result_world (run_schedule env SHA256 MD5 r progress sched p w)).
Proof.
  revert p w. induction sched as [|a sched IH]; intros p w; cbn [run_schedule].
  - apply extends_refl.
  - pose proof (step_extends r progress a p w) as X.
    destruct (step _ _ _ _ _ _ _ _) as [p' w'|w']; [|done].
    eapply extends_trans; [done|apply IH].
Qed.


End Turns.


Section TurnInvariant.
Context (env : Env) (SHA256 MD5 : list byte → string).
Context (Walk : gmap string File → string → list string).
Context (Shuffle : list string → list string).

(** ** The run without shutdown *)



Lemma attempts_one r f e w w1 :
  RebalanceFile env SHA256 MD5 r f w = Done e w1 →
  attempts env SHA256 MD5 r w [(f, e)] (emit (EvWorker f e) w1).
Proof. intros H. eapply attempts_call; [done|]. constructor. Qed.






End TurnInvariant.

Section Schedules.
Context (env : Env) (SHA256 MD5 : list byte → string).
Context (Walk : gmap string File → string → list string).
Context (Shuffle : list string → list string).





End Schedules.

Section RunUnfolded.
Context (env : Env) (SHA256 MD5 : list byte → string).
Context (Walk : gmap string File → string → list string).
Context (Shuffle : list string → list string).

Lemma launch_eq {R} l w :
  for_range (R:=R) l (λ i, log_event (EvGo i)) w
  = Val () (foldl (λ w i, emit (EvGo i) w) w l).
Proof.
  revert w. induction l as [|i l IH]; intros w; [done|].
  cbn [for_range foldl]. unfold mbind at 1, M_bind at 1. cbn. apply IH.
Qed.

Lemma launch_world l w :
  trace (foldl (λ w i, emit (EvGo i) w) w l) = trace w ++ map EvGo l
  ∧ shutdownChan (foldl (λ w i, emit (EvGo i) w) w l) = shutdownChan w.
Proof.
  revert w. induction l as [|i l IH]; intros w; cbn [foldl map].
  - by rewrite app_nil_r.
  - destruct (IH (emit (EvGo i) w)) as [-> ->]. cbn. by rewrite <- app_assoc.
Qed.

(** [Run], spelled out. *)
Lemma Run_eq r progress sched w :
  let w1 := if CleanupBalanceFiles r
            then result_world (cleanupBalanceFiles env Walk r w) else w in
  let files := List.filter (λ p, match fs w1 !! p with
                                 | Some info => IsRegular (Mode info)
                                 | None => false
                                 end) (Walk (fs w1) (RootPath r)) in
  let w2 := emit (EvGather files) w1 in
  Run env SHA256 MD5 Walk Shuffle r progress sched w =
  if bool_decide (length files = 0%nat) then Done None w2 else
  let files' := if RandomOrder r then Shuffle files else files in
  let n := Z.to_nat (Concurrency r) in
  let w3 := foldl (λ w i, emit (EvGo i) w) w2 (seq 0 n) in
  let pool := mkPool files' [] false (replicate n true) [] 0 in
  match run_schedule env SHA256 MD5 r progress sched pool w3 with
  | Panicked w4 => Panicked w4
  | Done p4 w4 =>
      match run_schedule env SHA256 MD5 r progress (drain p4) p4 w4 with
      | Panicked w5 => Panicked w5
      | Done p5 w5 =>
          let b := bool_decide (shutdownChan w5 = ChClosed) in
          let w6 := emit (EvIsShuttingDown b) w5 in
          let w7 := if b then result_world (cleanupBalanceFiles env Walk r w6)
                    else w6 in
          let w8 := if progress then emit (EvProgress (processedCount p5)) w7
                    else w7 in
          Done (if existsb (λ e : option error, bool_decide (is_Some e))
                     (resultChan p5)
                then Some (Errorf "some files failed to rebalance") else None) w8
      end
  end.
Proof.
  intros w1 files w2.
  unfold Run, func. unfold mbind at 1, M_bind at 1.
  assert (E1 : when_ (CleanupBalanceFiles r)
                 (err ← call (cleanupBalanceFiles env Walk r);
                  match err with
                  | Some err => return_ (Some (Wrapf ("failed to cleanup .balance files: " +:+ Error err) err))
                  | None => mret ()
                  end) w = Val (R:=option error) () w1).
  { subst w1. unfold when_. destruct (CleanupBalanceFiles r); [|done].
    unfold mbind, M_bind, call.
    by destruct (cleanupBalanceFiles_spec env Walk r w) as (w' & -> & _). }
  rewrite E1. clear E1.
  unfold mbind at 1, M_bind at 1. unfold call at 1. rewrite GatherFiles_spec.
  fold files. cbv beta iota.
  unfold mbind at 1, M_bind at 1. unfold mret at 1, M_ret at 1. cbv beta iota.
  unfold mbind at 1, M_bind at 1. unfold log_event at 1. fold w2. cbv beta iota.
  unfold mbind at 1, M_bind at 1. unfold when_ at 1.
  destruct (bool_decide (length files = 0%nat)); [done|].
  unfold mret at 1, M_ret at 1. cbv beta iota zeta.
  unfold mbind at 1, M_bind at 1. rewrite launch_eq. cbv beta iota.
  unfold mbind at 1, M_bind at 1. unfold call at 1.
  destruct (run_schedule _ _ _ _ _ _ _ _) as [p4 w4|w4]; [|done].
  unfold mbind at 1, M_bind at 1. unfold call at 1.
  destruct (run_schedule _ _ _ _ _ _ _ _) as [p5 w5|w5]; [|done].
  unfold mbind at 1, M_bind at 1. unfold call at 1. rewrite isShuttingDown_spec.
  cbv beta iota.
  unfold mbind at 1, M_bind at 1. unfold when_ at 1.
  destruct (bool_decide (shutdownChan w5 = ChClosed)).
  - unfold mbind at 1, M_bind at 1. unfold call at 1.
    destruct (cleanupBalanceFiles_spec env Walk r (emit (EvIsShuttingDown true) w5))
      as (w' & -> & _).
    cbn [result_world]. unfold mret at 1, M_ret at 1. cbv beta iota.
    destruct progress; cbn; by destruct (existsb _ _).
  - unfold mret at 1, M_ret at 1. cbv beta iota.
    destruct progress; cbn; by destruct (existsb _ _).
Qed.

End RunUnfolded.





Section Workers.
Context (env : Env) (SHA256 MD5 : list byte → string).
Context (Walk : gmap string File → string → list string).
Context (Shuffle : list string → list string).











End Workers.


Section Aggregate.
Context (env : Env) (SHA256 MD5 : list byte → string).
Context (Walk : gmap string File → string → list string).
Context (Shuffle : list string → list string).





End Aggregate.

Section ShutdownPoints.
Context (env : Env) (SHA256 MD5 : list byte → string).

(** C9, as the code has it: the shutdown signal is consulted by the
    coordinator once before each file it enqueues, by a worker once before
    each file it starts, and once more inside [RebalanceFile], after the
    checks and before the copy.  A worker that finds it set stops without
    calling [RebalanceFile]; a call of [RebalanceFile] that finds it set
    returns nil at once without touching the file; past that point the call
    never looks at the signal again, and neither does the worker before the
    call has ended. *)
Theorem shutdown_check_points r progress path i p w :
  let b := bool_decide (shutdownChan w = ChClosed) in
  let w1 := emit (EvIsShuttingDown b) w in
  (let R := RebalanceFile env SHA256 MD5 r path w in
   ∃ pre rest, events_since w (result_world R) = pre ++ rest
     ∧ forallb ev_is_check pre = true
     ∧ existsb ev_is_consult pre = false
     ∧ existsb ev_mutates pre = false
     ∧ match rest with
       | [] => True
       | ev :: post =>
           ev = EvIsShuttingDown b
           ∧ existsb ev_is_consult post = false
           ∧ (b = true → post = [] ∧ R = Done None (result_world R))
       end)
  ∧ (fileChanClosed p = false → ∀ f rest, pending p = f :: rest →
     ∃ p', coordinator_step p w = Done p' w1
       ∧ fileChan p' = if b then fileChan p else fileChan p ++ [f])
  ∧ (running p !! i = Some true → ∀ f queue, fileChan p = f :: queue →
     let X := worker_step env SHA256 MD5 r progress i p w in
     if b then ∃ p', X = Done p' w1 ∧ running p' !! i = Some false
     else
       let R := RebalanceFile env SHA256 MD5 r f w1 in
       ∃ post, events_since w (result_world X)
               = EvIsShuttingDown false :: events_since w1 (result_world R) ++ post
         ∧ existsb ev_is_consult post = false).
Proof.
  intros b w1. split; [|split].
  - destruct (RebalanceFile_consults_once env SHA256 MD5 r path w)
      as (pre & rest & E & F1 & F2 & F3 & Hr).
    exists pre, rest. do 4 (split; [done|]).
    destruct rest as [|ev post]; [done|]. destruct Hr as (-> & Hp & Hc).
    split; [done|]. split; [done|]. intros Hb. apply Hc.
    by apply bool_decide_eq_true in Hb.
  - intros Hc f rest Hp. rewrite coordinator_step_eq, Hc, Hp. cbv zeta.
    fold b. eexists. split; [done|]. by destruct b.
  - intros Hr f queue Hq. cbv zeta. rewrite worker_step_eq, Hr, Hq.
    cbn [negb default from_option id]. cbv zeta. fold b. fold w1. destruct b eqn:Eb.
    + eexists. split; [done|]. cbn. apply list_lookup_insert_eq.
      by apply lookup_lt_Some in Hr.
    + pose proof (RebalanceFile_trace env SHA256 MD5 r f w1) as (evsF & EF & _).
      cbv zeta in EF. rewrite (events_since_ext _ _ _ EF).
      destruct (RebalanceFile env SHA256 MD5 r f w1) as [e w2|w2];
        cbn [result_world] in *.
      * exists (EvWorker f e :: if progress
                                then [EvProgress (int_add (processedCount p) 1)]
                                else []).
        split; [|by destruct progress].
        apply events_since_ext. destruct progress; cbn; rewrite EF; cbn;
          by rewrite <- !app_assoc.
      * exists []. split; [|done]. apply events_since_ext. cbn [result_world].
        rewrite EF, app_nil_r. subst w1. cbn. by rewrite <- app_assoc.
Qed.

End ShutdownPoints.

(** C8, as the code has it: the first [InitiateShutdown] closes the channel
    and the second one panics, for it closes the channel again. *)
Theorem InitiateShutdown_twice_panics w :
  shutdownChan w = ChOpen →
  ∃ w1 w2, InitiateShutdown w = Done () w1
    ∧ shutdownChan w1 = ChClosed
    ∧ InitiateShutdown w1 = Panicked w2.
Proof.
  intros Ho. rewrite InitiateShutdown_spec, Ho. do 2 eexists.
  split; [done|]. split; [done|]. by rewrite InitiateShutdown_spec.
Qed.

(** ** The theorems at sample inputs *)

Import Sample.

Ltac find_in := vm_compute; repeat (first [left; reflexivity | right]).

Lemma quiet_NoExt : NoExt quiet.
Proof. intros h op. reflexivity. Defined.
Lemma quiet_NoFail : NoFail quiet.
Proof. intros h op. reflexivity. Defined.

(** Content invariance on a successful rebalance of [/d/a.txt]. *)
Lemma RebalanceFile_content_invariant_witness :
  ∃ f', fs (result_world (RebalanceFile quiet digest digest (cfg 2 false)
                            "/d/a.txt" fresh)) !! "/d/a.txt" = Some f'
    ∧ kind f' = kind a_txt
    ∧ same_content quiet digest digest (cfg 2 false) a_txt f'.
Proof.
  apply (RebalanceFile_content_invariant quiet digest digest (cfg 2 false)
           "/d/a.txt" fresh a_txt).
  - exact quiet_NoExt.
  - vm_compute. reflexivity.
  - vm_compute. reflexivity.
  - vm_compute. reflexivity.
Defined.

(** The rename onto [/d/a.txt] is refused. *)
Lemma RebalanceFile_rename_failure_witness :
  ∃ w', RebalanceFile rename_fails digest digest (cfg 2 false) "/d/a.txt" fresh
        = Done (Some (critical_error "/d/a.txt" EACCES)) w'
    ∧ fs w' !! "/d/a.txt" = None.
Proof.
  assert (HN : NoExt rename_fails) by (intros h [] ; cbn; try reflexivity; by destruct (String.eqb _ _)).
  assert (Hf : fs fresh !! "/d/a.txt" = Some a_txt) by (vm_compute; reflexivity).
  assert (Ht : fs fresh !! ("/d/a.txt" +:+ ".balance") = None)
    by (vm_compute; reflexivity).
  destruct (RebalanceFile_rename_failure rename_fails digest digest (cfg 2 false)
              "/d/a.txt" fresh a_txt HN Hf Ht) as [H _].
  destruct (H EACCES) as (HR & _ & Hp & _); [find_in|].
  eexists. split; [exact HR|exact Hp].
Defined.


(** Limit 2 and two passes in the ledger. *)
Lemma RebalanceFile_pass_limit_noop_witness :
  ∃ w', RebalanceFile quiet digest digest (cfg 2 false) "/d/a.txt" twice_done
        = Done None w'
    ∧ db w' = db twice_done
    ∧ ledger_count w' "/d/a.txt" = ledger_count twice_done "/d/a.txt"
    ∧ existsb ev_mutates (events_since twice_done w') = false
    ∧ (NoExt quiet → fs w' = fs twice_done).
Proof.
  apply (RebalanceFile_pass_limit_noop quiet digest digest (cfg 2 false)
           "/d/a.txt" twice_done).
  - exact quiet_NoFail.
  - cbn. lia.
  - vm_compute. discriminate.
  - left. reflexivity.
Defined.

(** When the second rename is refused as well, the critical error still
    names the recovery path, but there is no recovery file: the copy is
    where it was made. *)
Lemma recovery_rename_can_fail :
  ∃ e w', RebalanceFile renames_fail digest digest (cfg 2 false) "/d/a.txt" fresh
          = Done (Some e) w'
    ∧ Error e = "CRITICAL: rename failed, data saved to /d/a.txt.recovered: "
                +:+ "rename /d/a.txt.balance /d/a.txt: permission denied"
    ∧ fs w' !! "/d/a.txt" = None
    ∧ fs w' !! "/d/a.txt.recovered" = None
    ∧ fs w' !! "/d/a.txt.balance" = Some a_txt.
Proof. eexists _, _. split; [vm_compute; reflexivity|]. by vm_compute. Qed.

(** With limit 2 the first success creates the count at 1. *)
Lemma RebalanceFile_ledger_increment_witness :
  ledger_count (result_world (RebalanceFile quiet digest digest (cfg 2 false)
                                "/d/a.txt" fresh)) "/d/a.txt" = 1.
Proof.
  destruct (RebalanceFile_ledger_increment quiet digest digest (cfg 2 false)
              "/d/a.txt" fresh) as (_ & _ & _ & _ & H).
  destruct H as [_ H]; [vm_compute; split; [discriminate|reflexivity]|].
  rewrite H; [reflexivity| | |].
  - vm_compute. reflexivity.
  - vm_compute. reflexivity.
  - cbn. lia.
Defined.

(** With limit 0 the file is replaced, nil is returned, and the ledger has
    no count for it. *)
Lemma ledger_not_incremented_without_limit :
  ∃ w', RebalanceFile quiet digest digest (cfg 0 false) "/d/a.txt" fresh
        = Done None w'
    ∧ existsb (ev_replaced "/d/a.txt") (events_since fresh w') = true
    ∧ ledger_count fresh "/d/a.txt" = 0
    ∧ ledger_count w' "/d/a.txt" = 0.
Proof. eexists. split; [vm_compute; reflexivity|]. by vm_compute. Qed.

(** A file that is not there, with halt-on-missing on. *)
Lemma RebalanceFile_soft_conditions_witness :
  ∃ w', RebalanceFile quiet digest digest (cfg 2 true) "/d/zz.txt" fresh
        = Done None w'
    ∧ shutdownChan w' = ChClosed.
Proof.
  destruct (RebalanceFile_soft_conditions quiet digest digest (cfg 2 true)
              "/d/zz.txt" fresh) as (res & w' & HR & _ & _ & Hm & _).
  - right. reflexivity.
  - assert (E : w' = result_world (RebalanceFile quiet digest digest (cfg 2 true)
                                     "/d/zz.txt" fresh))
      by (rewrite HR; reflexivity).
    subst w'. destruct Hm as [-> Hc].
    + vm_compute. reflexivity.
    + vm_compute. reflexivity.
    + eexists. split; [exact HR|]. apply Hc. reflexivity.
Defined.

(** When the file vanishes between the check that it exists and the copy,
    the call returns the error of [CopyFile]. *)
Lemma vanished_during_copy_is_error :
  ∃ w', RebalanceFile vanishes digest digest (cfg 2 false) "/d/a.txt" fresh
        = Done (Some (Wrapf "copy failed: open /d/a.txt: no such file or directory"
                        (PathError "open" "/d/a.txt" ENOENT))) w'
    ∧ fs fresh !! "/d/a.txt" = Some a_txt
    ∧ fs w' !! "/d/a.txt" = None.
Proof. eexists. split; [vm_compute; reflexivity|]. by vm_compute. Qed.

(** Two calls on a fresh rebalancer. *)
Lemma InitiateShutdown_twice_panics_witness :
  ∃ w1 w2, InitiateShutdown fresh = Done () w1
    ∧ shutdownChan w1 = ChClosed
    ∧ InitiateShutdown w1 = Panicked w2.
Proof. apply InitiateShutdown_twice_panics. reflexivity. Defined.

(** A worker that finds the signal set. *)
Lemma shutdown_check_points_witness :
  ∃ p', worker_step quiet digest digest (cfg 2 false) true 0 pool stopping
        = Done p' (emit (EvIsShuttingDown true) stopping)
    ∧ running p' !! 0%nat = Some false.
Proof.
  destruct (shutdown_check_points quiet digest digest (cfg 2 false) true
              "/d/a.txt" 0 pool stopping) as (_ & _ & H).
  exact (H eq_refl "/d/a.txt" [] eq_refl).
Defined.

(** A call of [RebalanceFile] that starts when shutdown has been asked for
    observes it and returns without replacing the file. *)
Lemma RebalanceFile_observes_shutdown :
  ∃ w', RebalanceFile quiet digest digest (cfg 2 false) "/d/a.txt" stopping
        = Done None w'
    ∧ In (EvIsShuttingDown true) (events_since stopping w')
    ∧ existsb ev_mutates (events_since stopping w') = false.
Proof.
  eexists. split; [vm_compute; reflexivity|]. split; [find_in|by vm_compute].
Qed.




(** * Further properties

    ** The ledger *)

Section Ledger.
Context (env : Env).

(** One call of each ledger function, in any environment. *)
Lemma GetRebalanceCount_spec path w :
  ∃ c e w', GetRebalanceCount env path w = Done (c, e) w'
    ∧ db w' = db w ∧ shutdownChan w' = shutdownChan w
    ∧ trace w' = trace w ++ [EvSys (OpDbGet path)
                               (inj_fail (env (trace w) (OpDbGet path)))]
    ∧ match inj_fail (env (trace w) (OpDbGet path)) with
      | None => c = ledger_count w path ∧ e = None
      | Some x => c = 0 ∧ e = Some (SqlError x)
      end.
Proof.
  unfold GetRebalanceCount, func, mbind, M_bind, sql_select_count, sys_db.
  destruct (interfered_trace env (OpDbGet path) w) as (Et & Es & Ed).
  revert Et Es Ed. generalize (interfered env (OpDbGet path) w). intros w0 Et Es Ed.
  unfold ledger_count. destruct (inj_fail _) as [x|]; cbn.
  - do 3 eexists. split; [done|]. cbn. by rewrite Et, Es, Ed.
  - rewrite Ed. destruct (db w !! path) as [c|]; cbn;
      do 3 eexists; (split; [done|]); cbn; by rewrite Et, Es, ?Ed.
Qed.

Lemma SetRebalanceCount_spec path n w :
  ∃ e w', SetRebalanceCount env path n w = Done e w'
    ∧ shutdownChan w' = shutdownChan w
    ∧ trace w' = trace w ++ [EvSys (OpDbSet path n)
                               (inj_fail (env (trace w) (OpDbSet path n)))]
    ∧ match inj_fail (env (trace w) (OpDbSet path n)) with
      | None => e = None ∧ db w' = <[path := n]> (db w)
      | Some x => e = Some (SqlError x) ∧ db w' = db w
      end.
Proof.
  unfold SetRebalanceCount, func, mbind, M_bind, sql_upsert_count, sys_db.
  destruct (interfered_trace env (OpDbSet path n) w) as (Et & Es & Ed).
  revert Et Es Ed. generalize (interfered env (OpDbSet path n) w). intros w0 Et Es Ed.
  destruct (inj_fail _) as [x|]; cbn.
  - do 2 eexists. split; [done|]. cbn. by rewrite Et, Es, ?Ed.
  - do 2 eexists. split; [done|]. cbn. by rewrite Et, Es, ?Ed.
Qed.

(** X1: a count that was set is the count that is read back. *)
Theorem SetRebalanceCount_then_Get path n w :
  NoFail env →
  ∃ w1 w2, SetRebalanceCount env path n w = Done None w1
    ∧ GetRebalanceCount env path w1 = Done (n, None) w2
    ∧ db w2 = <[path := n]> (db w).
Proof.
  intros HF.
  destruct (SetRebalanceCount_spec path n w) as (e & w1 & E1 & _ & _ & H1).
  rewrite HF in H1. destruct H1 as [-> D1].
  destruct (GetRebalanceCount_spec path w1) as (c & e & w2 & E2 & D2 & _ & _ & H2).
  rewrite HF in H2. destruct H2 as [-> ->].
  exists w1, w2. split; [done|]. split; [|congruence].
  rewrite E2. unfold ledger_count. by rewrite D1, lookup_insert_eq.
Qed.

(** X2: a path without a row reads as count 0 with no error, and reading
    never changes the ledger, whether the read fails or not. *)
Theorem GetRebalanceCount_no_row path w :
  db w !! path = None →
  ∃ e w', GetRebalanceCount env path w = Done (0, e) w'
    ∧ db w' = db w
    ∧ (inj_fail (env (trace w) (OpDbGet path)) = None → e = None).
Proof.
  intros Hn.
  destruct (GetRebalanceCount_spec path w) as (c & e & w' & E & D & _ & _ & H).
  unfold ledger_count in H. rewrite Hn in H.
  destruct (inj_fail _); destruct H as [-> ->]; eexists _, w'; by rewrite E.
Qed.

(** X3: the last write wins; a write touches no other path's row; and a
    write that fails leaves the ledger as it was. *)
Theorem SetRebalanceCount_upsert path n m w :
  ∃ e1 w1 e2 w2,
    SetRebalanceCount env path n w = Done e1 w1
    ∧ SetRebalanceCount env path m w1 = Done e2 w2
    ∧ (∀ q, q ≠ path → db w2 !! q = db w !! q)
    ∧ (e2 = None → db w2 !! path = Some m)
    ∧ (e1 ≠ None → db w1 = db w)
    ∧ (e2 ≠ None → db w2 = db w1).
Proof.
  destruct (SetRebalanceCount_spec path n w) as (e1 & w1 & E1 & _ & _ & H1).
  destruct (SetRebalanceCount_spec path m w1) as (e2 & w2 & E2 & _ & _ & H2).
  exists e1, w1, e2, w2. split; [done|]. split; [done|].
  destruct (inj_fail (env (trace w) _)); destruct H1 as [-> D1];
    destruct (inj_fail (env (trace w1) _)); destruct H2 as [-> D2];
    rewrite D2, ?D1; split_and!; try done;
    intros; by rewrite ?lookup_insert_eq, ?lookup_insert_ne.
Qed.

End Ledger.

(** ** Copying and comparing files *)

Section FileUtil.
Context (env : Env) (SHA256 MD5 : list byte → string).

Lemma CopyFile_quiet src dst w X f :
  NoExt env → NoFail env → src ≠ dst →
  fs w !! src = Some f → kind f ≠ Directory → open_err (fs w !! dst) = None →
  CopyFile env src dst w = X →
  ∃ w' t, X = Done None w' ∧ fs w' !! dst = Some t
    ∧ kind t = Regular ∧ mtime t = mtime f
    ∧ perm t = from_option perm (N.ldiff (perm f) (umask w)) (fs w !! dst)
    ∧ nlink t = from_option nlink 1%N (fs w !! dst)
    ∧ (NoGarble env → content t = content f)
    ∧ (∀ q, q ≠ dst → fs w' !! q = fs w !! q)
    ∧ db w' = db w ∧ shutdownChan w' = shutdownChan w ∧ umask w' = umask w.
Proof.
  intros HN HF Hne Hs Hk Hd H. destruct w as [fs0 db0 ch0 um0 clk0 tr0].
  cbn [trace db umask fs shutdownChan] in *.
  run_lean H.
  subst X. eexists _, _. split; [reflexivity|]. cbn [fs db shutdownChan umask].
  split; [by map_simp|]. cbn [kind mtime perm nlink content Mode ModTime snd].
  split_and!; try done.
  - intros HG. by rewrite HG.
  - intros q Hq. rewrite lookup_insert_ne by done. unfold write_file.
    rewrite lookup_insert_eq. cbn [kind]. by rewrite !lookup_insert_ne.
Qed.

Lemma CopyFile_missing src dst w X :
  NoExt env → fs w !! src = None →
  CopyFile env src dst w = X →
  ∃ e w', X = Done (Some e) w' ∧ fs w' = fs w ∧ db w' = db w
    ∧ (NoFail env → e = PathError "open" src ENOENT).
Proof.
  intros HN Hs H. destruct w as [fs0 db0 ch0 um0 clk0 tr0].
  cbn [trace db umask fs shutdownChan] in *.
  run H.
  all: subst X; eexists _, _; split; [reflexivity|]; cbn [fs db].
  all: split_and!; try done; try congruence.
  all: intros HF; by rewrite HF in *.
Qed.

Lemma Compare_quiet orig copy t w X a b :
  NoExt env → NoFail env →
  fs w !! orig = Some a → fs w !! copy = Some b →
  kind a ≠ Directory → kind b ≠ Directory →
  CompareFileChecksum env SHA256 MD5 orig copy t w = X →
  let digest := if String.eqb t ChecksumMD5 then MD5 else SHA256 in
  let name := if String.eqb t ChecksumMD5 then "MD5" else "SHA256" in
  ∃ w', X = Done (if String.eqb (digest (content a)) (digest (content b))
                  then (true, "")
                  else (false, name +:+ " mismatch: " +:+ digest (content a)
                                 +:+ " != " +:+ digest (content b))) w'
    ∧ fs w' = fs w ∧ db w' = db w ∧ shutdownChan w' = shutdownChan w.
Proof.
  intros HN HF Ha Hb Hka Hkb H. destruct w as [fs0 db0 ch0 um0 clk0 tr0].
  cbn [trace db umask fs shutdownChan] in *.
  run_lean H.
  all: subst X; eexists; split; [reflexivity|done].
Qed.

Lemma Compare_missing orig copy t w X :
  NoExt env → NoFail env → fs w !! orig = None →
  CompareFileChecksum env SHA256 MD5 orig copy t w = X →
  ∃ w', X = Done (false, "error hashing original: open " +:+ orig
                           +:+ ": no such file or directory") w'
    ∧ fs w' = fs w ∧ db w' = db w.
Proof.
  intros HN HF Ha H. destruct w as [fs0 db0 ch0 um0 clk0 tr0].
  cbn [trace db umask fs shutdownChan] in *.
  run_lean H.
  all: subst X; eexists; split; [reflexivity|done].
Qed.

Lemma same_entry_refl a : same_entry a a.
Proof. by split_and!. Qed.

Lemma same_entry_eq a b : a = b → same_entry a b.
Proof. intros ->. apply same_entry_refl. Qed.

(** X4: [CopyFile] of a regular file onto another path that has no entry,
    or a regular file without other links, with nothing in the way (no
    failure, no other process) returns nil; the target is then a regular
    file with the content and the modification time of the source; a new
    target gets the permission bits of the source that the umask leaves,
    an existing one keeps its own bits; the source is as before, and no
    other path is created, removed or changed in type, permission bits or,
    directories apart, content and time. *)
Theorem CopyFile_copies src dst w f :
  NoExt env → NoFail env → src ≠ dst →
  fs w !! src = Some f → kind f = Regular →
  match fs w !! dst with
  | Some t0 => kind t0 = Regular ∧ nlink t0 = 1%N
  | None => True
  end →
  ∃ w' t, CopyFile env src dst w = Done None w' ∧ fs w' !! dst = Some t
    ∧ kind t = Regular ∧ mtime t = mtime f
    ∧ perm t = from_option perm (N.ldiff (perm f) (umask w)) (fs w !! dst)
    ∧ nlink t = 1%N
    ∧ (NoGarble env → content t = content f)
    ∧ fs w' !! src = Some f
    ∧ (∀ q, q ≠ dst → same_entry (fs w' !! q) (fs w !! q)).
Proof.
  intros HN HF Hne Hs Hk Hd.
  assert (Ho : open_err (fs w !! dst) = None).
  { destruct (fs w !! dst) as [t0|]; [|done]. unfold open_err.
    by destruct Hd as [-> _]. }
  assert (Hk' : kind f ≠ Directory) by (by rewrite Hk).
  destruct (CopyFile_quiet src dst w _ f HN HF Hne Hs Hk' Ho eq_refl)
    as (w' & t & E & Ht & ? & ? & ? & Hn & ? & Hq & _).
  exists w', t. split_and!; try done.
  - rewrite Hn. destruct (fs w !! dst) as [t0|]; [by destruct Hd|done].
  - by rewrite Hq.
  - intros q Hq'. apply same_entry_eq. by apply Hq.
Qed.

(** X5: [CopyFile] of a source that is not there returns an error, the
    not-exist error of [open] unless the call was made to fail otherwise,
    and creates nothing. *)
Theorem CopyFile_missing_source src dst w :
  NoExt env → fs w !! src = None →
  ∃ e w', CopyFile env src dst w = Done (Some e) w'
    ∧ fs w' = fs w
    ∧ (NoFail env → e = PathError "open" src ENOENT ∧ IsNotExist e = true).
Proof.
  intros HN Hs.
  destruct (CopyFile_missing src dst w _ HN Hs eq_refl) as (e & w' & E & ? & _ & He).
  exists e, w'. split_and!; try done. intros HF. by rewrite (He HF).
Qed.

(** X6: with both files readable and nothing failing, [CompareFileChecksum]
    answers true exactly when the digests of the two contents agree, MD5
    for the type [md5] and SHA256 for every other type, and on a mismatch
    the reason shows both digests; it changes neither files nor ledger. *)
Theorem CompareFileChecksum_decides orig copy t w a b :
  NoExt env → NoFail env →
  fs w !! orig = Some a → fs w !! copy = Some b →
  kind a ≠ Directory → kind b ≠ Directory →
  let digest := if String.eqb t ChecksumMD5 then MD5 else SHA256 in
  let name := if String.eqb t ChecksumMD5 then "MD5" else "SHA256" in
  ∃ ok reason w',
    CompareFileChecksum env SHA256 MD5 orig copy t w = Done (ok, reason) w'
    ∧ (ok = true ↔ digest (content a) = digest (content b))
    ∧ (ok = true → reason = "")
    ∧ (ok = false → reason = name +:+ " mismatch: " +:+ digest (content a)
                               +:+ " != " +:+ digest (content b))
    ∧ fs w' = fs w ∧ db w' = db w.
Proof.
  intros HN HF Ha Hb Hka Hkb digest name.
  destruct (Compare_quiet orig copy t w _ a b HN HF Ha Hb Hka Hkb eq_refl)
    as (w' & E & ? & ? & _).
  fold digest name in E.
  destruct (String.eqb_spec (digest (content a)) (digest (content b))) as [Heq|Hne].
  - exists true, "", w'. split_and!; done.
  - eexists false, _, w'. split; [exact E|]. split_and!; try done.
Qed.

(** X7: when the original is not there, the comparison answers false with
    the open error as the reason. *)
Theorem CompareFileChecksum_missing_original orig copy t w :
  NoExt env → NoFail env → fs w !! orig = None →
  ∃ w', CompareFileChecksum env SHA256 MD5 orig copy t w
        = Done (false, "error hashing original: open " +:+ orig
                         +:+ ": no such file or directory") w'
    ∧ fs w' = fs w.
Proof.
  intros HN HF Ha.
  destruct (Compare_missing orig copy t w _ HN HF Ha eq_refl) as (w' & E & ? & _).
  by exists w'.
Qed.

(** X8: a copy made by [CopyFile] passes [CompareFileChecksum] against its
    source, whatever the checksum type, unless the copy was garbled. *)
Theorem CopyFile_then_Compare src dst t w f :
  NoExt env → NoFail env → NoGarble env → src ≠ dst →
  fs w !! src = Some f → kind f ≠ Directory → open_err (fs w !! dst) = None →
  ∃ w1 w2, CopyFile env src dst w = Done None w1
    ∧ CompareFileChecksum env SHA256 MD5 src dst t w1 = Done (true, "") w2
    ∧ fs w2 = fs w1.
Proof.
  intros HN HF HG Hne Hs Hk Hd.
  destruct (CopyFile_quiet src dst w _ f HN HF Hne Hs Hk Hd eq_refl)
    as (w1 & c & E & Hc & Hkc & _ & _ & _ & Hcc & Hq & _).
  assert (Hs1 : fs w1 !! src = Some f) by (by rewrite Hq).
  assert (Hkc' : kind c ≠ Directory) by (by rewrite Hkc).
  destruct (Compare_quiet src dst t w1 _ f c HN HF Hs1 Hc Hk Hkc' eq_refl)
    as (w2 & E2 & ? & _).
  exists w1, w2. split; [done|]. split; [|done].
  rewrite E2, (Hcc HG). cbv zeta. by rewrite String.eqb_refl.
Qed.



End FileUtil.

(** ** More on one call of [RebalanceFile] *)

Lemma eqb_path_tmp p : String.eqb p (p +:+ ".balance") = false.
Proof. apply String.eqb_neq. intros H. by destruct (tmp_ne p). Qed.


Lemma rename_sem_ok o n d t (m : gmap string File) f :
  m !! o = Some f → m !! n = None →
  rename_sem o n d t m = Ok ((), <[n := f]> (delete o m)).
Proof. intros Ho Hn. unfold rename_sem. by rewrite Ho, Hn. Qed.

(** [run_lean] for a run in which no rename can be refused. *)
Ltac run_renaming H :=
  repeat (whnf_lhs H; settle_ext H; world_cbn H; whnf_lhs H;
          try (erewrite rename_sem_ok in H by (map_simp; done));
          step_with ltac:(fun Hi => clear Hi) H).

Section FileMore.
Context (env : Env) (SHA256 MD5 : list byte → string).

(** The last part, when no other process interferes: a nil result means the
    file at the path has the mode and time of the original again. *)
Lemma finish_meta r path oc si w X t :
  NoExt env → fs w !! path = Some t → kind t = kind si →
  rebalance_finish env r path oc si w = X →
  ∃ evs res w', X = Ret res w' ∧ trace w' = trace w ++ evs
    ∧ existsb (ev_copy_failed (path +:+ ".balance")) evs = false
    ∧ (NoFail env → res = None)
    ∧ (res = None →
       fs w' !! path = Some (mkFile (kind t) (perm si) (mtime si) (content t) (nlink t))).
Proof.
  intros HN Hf Hk H. destruct w as [fs0 db0 ch0 um0 clk0 tr0].
  cbn [world_of trace db umask fs shutdownChan] in *.
  run H.
  all: subst X; eexists _, _, _; split; [reflexivity|];
    cbn [world_of trace db umask fs shutdownChan].
  all: split; [etrans; [repeat (apply trace_ext_snoc); apply trace_ext_nil
                      | cbn [app]; reflexivity]|].
  all: cbn [existsb ev_copy_failed orb]; rewrite ?eqb_path_tmp; cbn [orb].
  all: split; [done|].
  all: (split; [intros HF; repeat match goal with
          | Hi : inj_fail _ = Some _ |- _ => rewrite HF in Hi; discriminate Hi
          end; try done|]).
  all: try done.
  all: intros _; map_simp; fin_hyps; cbn [Mode ModTime fst snd] in *.
  all: unfold Mode, ModTime in *;
    repeat match goal with Hx : (_, _) = (_, _) |- _ => injection Hx as ? ? end;
    rewrite ?Hf; destruct t; cbn in *; congruence.
Qed.

(** The checks let a regular file through when nothing is in the way. *)
Lemma checks_ok r path w f :
  NoExt env → NoFail env →
  HasSuffix path ".balance" = false →
  fs w !! path = Some f → kind f = Regular →
  (SkipHardlinks r = true → (nlink f <= 1)%N) →
  ¬ (PassesLimit r > 0 ∧ ledger_count w path >= PassesLimit r) →
  ∃ w1, rebalance_checks env r path w = Val (ledger_count w path, f) w1
    ∧ fs w1 = fs w ∧ db w1 = db w ∧ shutdownChan w1 = shutdownChan w
    ∧ umask w1 = umask w.
Proof.
  intros HN HF Hs Hf Hk Hl Hp.
  remember (rebalance_checks env r path w) as X eqn:H. symmetry in H.
  destruct w as [fs0 db0 ch0 um0 clk0 tr0].
  unfold ledger_count in *. cbn [world_of trace db umask fs shutdownChan] in *.
  run_lean H.
  all: fin_hyps; subst X.
  all: repeat match goal with Hx : (_ <? _)%N = true |- _ => apply N.ltb_lt in Hx end.
  all: try (exfalso; cbn [Mode fst] in *; first [lia | tauto | congruence]).
  all: eexists; split; [reflexivity|done].
Qed.

(** The replacement goes through when nothing is in the way. *)
Lemma replace_ok r path w f :
  NoExt env → NoFail env → NoGarble env →
  shutdownChan w = ChOpen →
  fs w !! path = Some f → kind f = Regular →
  open_err (fs w !! (path +:+ ".balance")) = None →
  ∃ w2 t, rebalance_replace env SHA256 MD5 r path f w = Val () w2
    ∧ fs w2 !! path = Some t ∧ kind t = Regular ∧ content t = content f
    ∧ nlink t = from_option nlink 1%N (fs w !! (path +:+ ".balance"))
    ∧ fs w2 !! (path +:+ ".balance") = None
    ∧ db w2 = db w ∧ shutdownChan w2 = ChOpen ∧ umask w2 = umask w.
Proof.
  intros HN HF HG Ho Hf Hk Hd.
  remember (rebalance_replace env SHA256 MD5 r path f w) as X eqn:H. symmetry in H.
  destruct w as [fs0 db0 ch0 um0 clk0 tr0].
  cbn [world_of trace db umask fs shutdownChan] in *. subst ch0.
  run_renaming H.
  all: subst X; rewrite ?HG in *; cbn [default from_option] in *.
  all: try (rewrite String.eqb_refl in *; discriminate).
  all: try (exfalso; congruence).
  all: eexists _, _; split; [reflexivity|];
         cbn [fs db shutdownChan umask]; map_simp; split_and!; done.
Qed.

(** With the limit reached and the file in place, the checks return nil
    and leave everything as it is. *)
Lemma checks_limit_reached r path w f :
  NoExt env → NoFail env →
  fs w !! path = Some f →
  PassesLimit r > 0 → ledger_count w path >= PassesLimit r →
  ∃ w1, rebalance_checks env r path w = Ret None w1
    ∧ fs w1 = fs w ∧ db w1 = db w ∧ shutdownChan w1 = shutdownChan w
    ∧ umask w1 = umask w.
Proof.
  intros HN HF Hf Hp Hl.
  remember (rebalance_checks env r path w) as X eqn:H. symmetry in H.
  destruct w as [fs0 db0 ch0 um0 clk0 tr0].
  unfold ledger_count in *. cbn [world_of trace db umask fs shutdownChan] in *.
  run_lean H.
  all: fin_hyps; subst X.
  all: try (exfalso; cbn [Mode fst default] in *; first [lia | tauto | congruence]).
  all: eexists; split; [reflexivity|done].
Qed.


(** X9: when no other process interferes and there is no entry at the
    temp path, one call of [RebalanceFile] leaves every path but the file
    itself, its temp file and its recovery file as it was, however the call
    ends: none is created or removed, none changes its type or permission
    bits nor, directories apart, its content or time. *)
Theorem RebalanceFile_touches_only_its_paths r path w q :
  NoExt env → fs w !! (path +:+ ".balance") = None →
  q ≠ path → q ≠ path +:+ ".balance" → q ≠ path +:+ ".recovered" →
  same_entry (fs (result_world (RebalanceFile env SHA256 MD5 r path w)) !! q)
    (fs w !! q).
Proof.
  intros HN _ Hq1 Hq2 Hq3. apply same_entry_eq.
  remember (RebalanceFile env SHA256 MD5 r path w) as R eqn:H. symmetry in H.
  destruct (RebalanceFile_phases env SHA256 MD5 _ _ _ _ H)
    as [(w1 & EA & ->)|[(res & w1 & EA & ->)
       |(oc & si & w1 & EA & [(res & w2 & EB & ->)|(w2 & res & w3 & EB & EC & ->)])]];
    pose proof (checks_quiet env _ _ _ _ HN EA) as QA; cbn [world_of result_world] in *.
  - by rewrite QA.
  - by rewrite QA.
  - destruct (checks_spec env _ _ _ _ EA) as (_ & _ & _ & _ & _ & _ & _ & _ & Hk & _ & Hsi).
    destruct (replace_quiet env SHA256 MD5 _ _ _ _ _ HN Hsi Hk EB) as (_ & _ & QB & _).
    cbn [world_of] in QB. by rewrite QB, QA.
  - destruct (checks_spec env _ _ _ _ EA) as (_ & _ & _ & _ & _ & _ & _ & _ & Hk & _ & Hsi).
    destruct (replace_quiet env SHA256 MD5 _ _ _ _ _ HN Hsi Hk EB)
      as (_ & _ & QB & _ & _ & _ & _ & t & Ht & _).
    destruct (finish_quiet env _ _ _ _ _ _ _ HN Ht EC) as (QC & _).
    cbn [world_of] in *. by rewrite QC, QB, QA.
Qed.

(** X10: when no other process interferes and there is no entry at the
    temp path, a call that returns nil leaves the file with the kind,
    permission bits and modification time it had; and when the call
    replaced the file, no temp file is left. *)
Theorem RebalanceFile_preserves_metadata r path w f w' :
  NoExt env → fs w !! path = Some f →
  fs w !! (path +:+ ".balance") = None →
  RebalanceFile env SHA256 MD5 r path w = Done None w' →
  ∃ f', fs w' !! path = Some f'
    ∧ kind f' = kind f ∧ perm f' = perm f ∧ mtime f' = mtime f
    ∧ (existsb (ev_replaced path) (events_since w w') = true →
       fs w' !! (path +:+ ".balance") = None).
Proof.
  intros HN Hf _ H. phases_quiet env SHA256 MD5 HN Hf H.
  - exists f. rewrite QA, (events_since_ext _ _ _ TA).
    rewrite (forallb_existsb_false _ _ _ (check_not_replaced path) FA).
    by split_and!.
  - destruct HB as [(HB & Hp & _)|(? & ? & ? & _ & ? & _)]; [|done].
    exists si. rewrite TA, <- app_assoc in TB. rewrite (events_since_ext _ _ _ TB).
    split_and!; try done. intros [ev [Hin Hev]]%existsb_exists. exfalso.
    apply in_app_or in Hin as [Hin|Hin].
    + assert (Hx := proj1 (forallb_forall _ _) FA ev Hin).
      by rewrite (check_not_replaced path ev Hx) in Hev.
    + destruct ev as [[] []| | | | | | |]; try done.
      apply renames_In in Hin. by rewrite HB in Hin.
  - destruct HB as (_ & Htmp & _ & t & Ht & Hkt & _).
    destruct (finish_meta r path oc si w2 (Ret None w3) t HN Ht)
      as (evs & res & w3' & E & _ & _ & _ & Hm); [congruence|exact EC|].
    injection E as <- <-.
    destruct (finish_quiet env _ _ _ _ _ _ _ HN Ht EC) as (QC & _).
    cbn [world_of] in QC.
    eexists. split; [by apply Hm|]. cbn [kind perm mtime].
    split_and!; [congruence|done|done|].
    intros _. rewrite QC; [done|apply tmp_ne].
Qed.

(** X11: without halt-on-missing, [RebalanceFile] never panics and never
    touches the shutdown signal, in any environment. *)
Theorem RebalanceFile_returns_without_halt r path w :
  HaltOnFileMissing r = false →
  ∃ res w', RebalanceFile env SHA256 MD5 r path w = Done res w'
    ∧ shutdownChan w' = shutdownChan w.
Proof.
  intros Hh.
  destruct (RebalanceFile_trace env SHA256 MD5 r path w) as (evs & _ & _ & H).
  destruct (H Hh) as (Hs & res & HR). rewrite HR in *. by eexists _, _.
Qed.

(** X12: [RebalanceFile] panics nowhere but in [InitiateShutdown]: a call
    that panics runs with halt-on-missing, has found the file missing, and
    its last step was to ask for shutdown with the channel closed already;
    the ledger is as it was. *)
Theorem RebalanceFile_panics_only_in_halt r path w w' :
  RebalanceFile env SHA256 MD5 r path w = Panicked w' →
  HaltOnFileMissing r = true ∧ shutdownChan w' = ChClosed
  ∧ existsb (ev_missing path) (events_since w w') = true
  ∧ last (events_since w w') = Some EvInitiateShutdown
  ∧ db w' = db w.
Proof.
  intros H. pose proof H as H0. phases env SHA256 MD5 H0.
  destruct HA as [HA1 HA2].
  destruct (checks_failures env _ _ _ _ EA) as (evs' & T' & Hm & Hl & Hc).
  cbn [world_of] in T'. rewrite TA in T'. apply app_inv_head in T'. subst evs'.
  by split_and!.
Qed.


(** A clean pass over one file, step by step through the three parts. *)
Lemma clean_parts r path w f :
  NoExt env → NoFail env → NoGarble env →
  HasSuffix path ".balance" = false →
  fs w !! path = Some f → kind f = Regular →
  (SkipHardlinks r = true → (nlink f <= 1)%N) →
  ¬ (PassesLimit r > 0 ∧ ledger_count w path >= PassesLimit r) →
  shutdownChan w = ChOpen →
  open_err (fs w !! (path +:+ ".balance")) = None →
  ∃ w1 w2 w',
    rebalance_checks env r path w = Val (ledger_count w path, f) w1
    ∧ rebalance_replace env SHA256 MD5 r path f w1 = Val () w2
    ∧ rebalance_finish env r path (ledger_count w path) f w2 = Ret None w'
    ∧ fs w' !! path
      = Some (mkFile Regular (perm f) (mtime f) (content f)
                (from_option nlink 1%N (fs w !! (path +:+ ".balance"))))
    ∧ fs w' !! (path +:+ ".balance") = None
    ∧ db w' = (if bool_decide (PassesLimit r > 0)
               then <[path := int_add (ledger_count w path) 1]> (db w)
               else db w)
    ∧ shutdownChan w' = ChOpen ∧ umask w' = umask w.
Proof.
  intros HN HF HG Hs Hf Hk Hl Hp Ho Hd.
  destruct (checks_ok r path w f HN HF Hs Hf Hk Hl Hp) as (w1 & EA & QA & DA & SA & UA).
  destruct (replace_ok r path w1 f HN HF HG) as (w2 & t & EB & Ht & Hkt & Hct & Hnt & Htmp & DB & SB & UB);
    [congruence|by rewrite QA|done|by rewrite QA|].
  assert (Hkf : kind t = kind f) by congruence.
  destruct (finish_meta r path (ledger_count w path) f w2 _ t HN Ht Hkf eq_refl)
    as (evs & res & w3 & EC & _ & _ & Hn & Hm).
  rewrite (Hn HF) in *.
  destruct (finish_spec env _ _ _ _ _ _ EC) as (_ & _ & UC & SC & _ & HC & _).
  destruct (finish_quiet env _ _ _ _ _ _ _ HN Ht EC) as (QC & _).
  cbn [world_of] in *.
  exists w1, w2, w3. do 3 (split; [done|]).
  rewrite (Hm eq_refl), Hkt, Hct, Hnt, QA. split; [done|].
  split; [rewrite QC; [done|apply tmp_ne]|].
  rewrite (HC eq_refl), DB, DA. split; [done|]. split; congruence.
Qed.

(** X14: with nothing in the way (no failure, no garbled copy, no other
    process, shutdown not asked for, the pass limit not reached, no entry
    at the temp path), [RebalanceFile] on a regular file that is not
    skipped as hard-linked returns nil; the path then holds a regular file
    with the same content, permission bits and time, the temp file is gone,
    and the ledger has one pass more when a limit is in use. *)
Theorem RebalanceFile_succeeds r path w f :
  NoExt env → NoFail env → NoGarble env →
  HasSuffix path ".balance" = false →
  fs w !! path = Some f → kind f = Regular →
  (SkipHardlinks r = true → (nlink f <= 1)%N) →
  ¬ (PassesLimit r > 0 ∧ ledger_count w path >= PassesLimit r) →
  shutdownChan w = ChOpen →
  fs w !! (path +:+ ".balance") = None →
  ∃ w', RebalanceFile env SHA256 MD5 r path w = Done None w'
    ∧ fs w' !! path
      = Some (mkFile Regular (perm f) (mtime f) (content f) 1)
    ∧ fs w' !! (path +:+ ".balance") = None
    ∧ db w' = (if bool_decide (PassesLimit r > 0)
               then <[path := int_add (ledger_count w path) 1]> (db w)
               else db w)
    ∧ shutdownChan w' = ChOpen ∧ umask w' = umask w.
Proof.
  intros HN HF HG Hs Hf Hk Hl Hp Ho Hd.
  destruct (clean_parts r path w f HN HF HG Hs Hf Hk Hl Hp Ho)
    as (w1 & w2 & w' & EA & EB & EC & Hres); [by rewrite Hd|].
  rewrite Hd in Hres. cbn [from_option] in Hres.
  exists w'. split; [|exact Hres].
  unfold RebalanceFile, func, mbind, M_bind. by rewrite EA, EB, EC.
Qed.

(** X15: rebalancing one file in passes under a limit L: every call returns
    nil, the ledger counts the passes up to L and no further, and the file
    keeps content, permission bits and time throughout. *)
Theorem passes_respect_limit n r path w f :
  NoExt env → NoFail env → NoGarble env →
  HasSuffix path ".balance" = false →
  fs w !! path = Some f → kind f = Regular →
  (SkipHardlinks r = true → (nlink f <= 1)%N) →
  fs w !! (path +:+ ".balance") = None →
  shutdownChan w = ChOpen →
  0 < PassesLimit r <= int_max →
  0 <= ledger_count w path <= PassesLimit r →
  ∃ es w' f', passes env SHA256 MD5 n r path w = Done es w'
    ∧ length es = n ∧ Forall (λ e, e = None) es
    ∧ ledger_count w' path
      = Z.min (ledger_count w path + Z.of_nat n) (PassesLimit r)
    ∧ fs w' !! path = Some f'
    ∧ content f' = content f ∧ perm f' = perm f ∧ mtime f' = mtime f.
Proof.
  intros HN HF HG Hs. revert w f.
  induction n as [|n IH]; intros w f Hf Hk Hl Ht Ho HL Hc.
  { exists [], w, f. cbn [passes]. split_and!; try done. lia. }
  cbn [passes].
  destruct (decide (ledger_count w path >= PassesLimit r)) as [Hge|Hlt].
  - destruct (checks_limit_reached r path w f HN HF Hf) as (w1 & EA & QA & DA & SA & _);
      [lia|done|].
    assert (E : RebalanceFile env SHA256 MD5 r path w = Done None w1).
    { unfold RebalanceFile, func, mbind, M_bind. by rewrite EA. }
    rewrite E.
    assert (Hc1 : ledger_count w1 path = ledger_count w path)
      by (unfold ledger_count; by rewrite DA).
    destruct (IH w1 f) as (es & w' & f' & -> & Hlen & Hall & Hcnt & Hf' & ?);
      [by rewrite QA|done|done|by rewrite QA|congruence|done|by rewrite Hc1|].
    exists (None :: es), w', f'. split; [done|]. cbn [length].
    split; [by rewrite Hlen|]. split; [by constructor|].
    split; [rewrite Hcnt, Hc1; lia|done].
  - destruct (clean_parts r path w f)
      as (wa & wb & w1 & EA & EB & EC & Hp1 & Ht1 & D1 & S1 & _);
      try done. { lia. } { by rewrite Ht. }
    assert (E : RebalanceFile env SHA256 MD5 r path w = Done None w1).
    { unfold RebalanceFile, func, mbind, M_bind. by rewrite EA, EB, EC. }
    rewrite E.
    rewrite Ht in Hp1. cbn [from_option] in Hp1.
    rewrite bool_decide_eq_true_2 in D1 by lia.
    assert (Hc1 : ledger_count w1 path = ledger_count w path + 1).
    { unfold ledger_count at 1. rewrite D1, lookup_insert_eq. cbn.
      apply int_add_1. unfold int_min, int_max in *. lia. }
    destruct (IH w1 _ Hp1) as (es & w' & f' & -> & Hlen & Hall & Hcnt & Hf' & ? & ? & ?);
      [done|done|done|done|done|lia|].
    exists (None :: es), w', f'. split; [done|]. cbn [length].
    split; [by rewrite Hlen|]. split; [by constructor|].
    split; [rewrite Hcnt, Hc1; lia|done].
Qed.

End FileMore.

(** ** Stale temp files and the edges of [Run] *)

Section Cleanup.
Context (env : Env) (SHA256 MD5 : list byte → string).
Context (Walk : gmap string File → string → list string).
Context (Shuffle : list string → list string).

Lemma os_Remove_quiet {R} p w :
  NoExt env →
  ∃ err w1, os_Remove (R:=R) env p w = Val err w1
    ∧ db w1 = db w
    ∧ (fs w1 = fs w ∨ fs w1 = delete p (fs w))
    ∧ (NoFail env → fs w1 = delete p (fs w)).
Proof.
  intros HN. unfold os_Remove, os_error, sys_fs, mbind, M_bind.
  rewrite (interfered_quiet env _ w HN).
  destruct (inj_fail _) eqn:Ef.
  - do 2 eexists. split; [done|]. cbn. split; [done|]. split; [by left|].
    intros HF. by rewrite HF in Ef.
  - unfold remove_sem. destruct (fs w !! p) eqn:Ep.
    + do 2 eexists. split; [done|]. cbn. split; [done|]. split; [by right|done].
    + do 2 eexists. split; [done|]. cbn. split; [done|]. split; [by left|].
      intros _. symmetry. by apply delete_id.
Qed.

Lemma cleanup_loop_quiet {R} l w :
  NoExt env →
  ∃ w1, for_range (R:=R) l (λ path, os_Remove env path;; mret ()) w = Val () w1
    ∧ db w1 = db w
    ∧ (∀ q, fs w1 !! q = fs w !! q ∨ (In q l ∧ fs w1 !! q = None))
    ∧ (NoFail env → ∀ q, In q l → fs w1 !! q = None).
Proof.
  intros HN. revert w. induction l as [|p l IH]; intros w.
  - exists w. split_and!; try done. by left.
  - cbn [for_range]. unfold mbind at 1, M_bind at 1. unfold mbind at 1, M_bind at 1.
    destruct (os_Remove_quiet (R:=R) p w HN) as (err & w1 & -> & D1 & F1 & G1).
    cbn. destruct (IH w1) as (w2 & -> & D2 & F2 & G2).
    assert (Hq : ∀ q, fs w2 !! q = fs w !! q ∨ (In q (p :: l) ∧ fs w2 !! q = None)).
    { intros q. destruct (F2 q) as [E|[Hin E]]; [|right; split; [by right|done]].
      destruct F1 as [F1|F1]; rewrite E, F1; [by left|].
      destruct (decide (q = p)) as [->|Hne].
      - right. split; [by left|]. by rewrite lookup_delete_eq.
      - left. by rewrite lookup_delete_ne. }
    exists w2. split_and!; [done|congruence|done|].
    intros HF q [<-|Hin]; [|by apply G2].
    destruct (F2 p) as [E|[_ E]]; [|done].
    by rewrite E, (G1 HF), lookup_delete_eq.
Qed.


(** X17: when nothing fails and no other process interferes,
    [cleanupBalanceFiles] removes every regular file that the walk finds
    with a name ending in [.balance]. *)
Theorem cleanupBalanceFiles_removes_every_temp_file r w q f :
  NoExt env → NoFail env →
  In q (Walk (fs w) (RootPath r)) →
  fs w !! q = Some f → kind f = Regular → HasSuffix q ".balance" = true →
  fs (result_world (cleanupBalanceFiles env Walk r w)) !! q = None.
Proof.
  intros HN HF Hin Hf Hk Hs.
  unfold cleanupBalanceFiles, func, walk_collect, mbind, M_bind.
  match goal with |- context [for_range ?l ?f w] =>
    destruct (cleanup_loop_quiet (R:=option error) l w HN) as (w1 & E1 & _ & _ & G1) end.
  unfold mbind, M_bind in E1. rewrite E1. cbn. apply (G1 HF).
  apply filter_In. split; [done|]. rewrite Hf, Hs. unfold IsRegular, Mode. cbn.
  by rewrite bool_decide_eq_true_2.
Qed.

Lemma os_Remove_idle {R} p w :
  ∃ err w1, os_Remove (R:=R) env p w = Val err w1
    ∧ extends ev_is_idle w w1 ∧ shutdownChan w1 = shutdownChan w ∧ db w1 = db w.
Proof.
  unfold os_Remove, os_error, sys_fs, mbind, M_bind.
  destruct (interfered_trace env (OpRemove p) w) as (Et & Es & Ed).
  revert Et Es Ed. generalize (interfered env (OpRemove p) w). intros w0 Et Es Ed.
  assert (Hx : ∀ e m, extends ev_is_idle w (emit (EvSys (OpRemove p) e) (tick (set_fs m w0)))
                    ∧ extends ev_is_idle w (emit (EvSys (OpRemove p) e) (tick w0))).
  { intros e m. split; eexists [_]; cbn; by rewrite Et. }
  destruct (inj_fail _).
  - do 2 eexists. split; [done|]. split; [apply (Hx _ ∅)|done].
  - destruct (remove_sem _ _ _ _) as [[[] m2]|e].
    + do 2 eexists. split; [done|]. split; [apply (Hx None m2)|done].
    + do 2 eexists. split; [done|]. split; [apply (Hx _ ∅)|done].
Qed.

Lemma cleanup_loop_idle {R} l w :
  ∃ w1, for_range (R:=R) l (λ path, os_Remove env path;; mret ()) w = Val () w1
    ∧ extends ev_is_idle w w1 ∧ shutdownChan w1 = shutdownChan w ∧ db w1 = db w.
Proof.
  revert w. induction l as [|p l IH]; intros w.
  - exists w. split; [done|]. split; [apply extends_refl|done].
  - cbn [for_range]. unfold mbind at 1, M_bind at 1. unfold mbind at 1, M_bind at 1.
    destruct (os_Remove_idle (R:=R) p w) as (err & w1 & -> & X1 & S1 & D1).
    cbn. destruct (IH w1) as (w2 & -> & X2 & S2 & D2).
    exists w2. split; [done|]. split; [by eapply extends_trans|split; congruence].
Qed.

Lemma cleanupBalanceFiles_idle r w :
  ∃ w1, cleanupBalanceFiles env Walk r w = Done None w1
    ∧ extends ev_is_idle w w1 ∧ shutdownChan w1 = shutdownChan w ∧ db w1 = db w.
Proof.
  unfold cleanupBalanceFiles, func, walk_collect, mbind, M_bind.
  match goal with |- context [for_range ?l ?f w] =>
    destruct (cleanup_loop_idle (R:=option error) l w) as (w1 & E & X & S) end.
  unfold mbind, M_bind in E. rewrite E. cbn. eauto.
Qed.

Lemma idle_not_attempted evs : forallb ev_is_idle evs = true → attempted evs = [].
Proof.
  induction evs as [|ev evs IH]; [done|]. cbn [forallb].
  intros [Hx Hl]%andb_true_iff. destruct ev; try done; cbn [attempted]; auto.
Qed.

(** A pool without a worker that can take a file: there is no worker at
    all, or shutdown was asked for while the channel was empty. *)
Lemma step_idle r progress a p w :
  resultChan p = [] →
  running p = [] ∨ (shutdownChan w = ChClosed ∧ fileChan p = []) →
  match step env SHA256 MD5 r progress a p w with
  | Done p' w' =>
      resultChan p' = []
      ∧ (running p' = [] ∨ (shutdownChan w' = ChClosed ∧ fileChan p' = []))
      ∧ extends ev_is_idle w w' ∧ db w' = db w ∧ fs w' = fs w
      ∧ (shutdownChan w = ChClosed → shutdownChan w' = ChClosed)
  | Panicked w' =>
      a = Signal ∧ extends ev_is_idle w w' ∧ db w' = db w
      ∧ shutdownChan w' = ChClosed
  end.
Proof.
  intros Hr Hi.
  destruct a as [|i|]; cbn [step].
  - rewrite coordinator_step_eq. destruct (fileChanClosed p).
    { split_and!; first [done | apply extends_refl]. }
    destruct (pending p) as [|f rest].
    { cbn. split_and!; first [done | apply extends_refl]. }
    cbv zeta. case_bool_decide as Hc; cbn.
    + split_and!; first [done | by apply extends_emit].
    + destruct Hi as [Hi|[? _]]; [|done].
      split_and!; first [done | by apply extends_emit | by left].
  - rewrite worker_step_eq. destruct Hi as [Hi|[Hc Hq]].
    { rewrite Hi. cbn. split_and!; first [done | apply extends_refl | by left]. }
    destruct (negb _).
    { split_and!; first [done | apply extends_refl | by right]. }
    rewrite Hq. destruct (fileChanClosed p); cbn.
    all: split_and!; first [done | apply extends_refl | by right].
  - unfold func, mbind, M_bind, call. rewrite InitiateShutdown_spec.
    destruct (shutdownChan w) eqn:Hc; cbn.
    + destruct Hi as [Hi|[? _]]; [|done].
      split_and!; first [done | by eexists [_] | by left].
    + split_and!; first [done | by eexists [_]].
Qed.

Lemma run_schedule_idle r progress sched p w :
  resultChan p = [] →
  running p = [] ∨ (shutdownChan w = ChClosed ∧ fileChan p = []) →
  match run_schedule env SHA256 MD5 r progress sched p w with
  | Done p' w' =>
      resultChan p' = []
      ∧ (running p' = [] ∨ (shutdownChan w' = ChClosed ∧ fileChan p' = []))
      ∧ extends ev_is_idle w w' ∧ db w' = db w ∧ fs w' = fs w
      ∧ (shutdownChan w = ChClosed → shutdownChan w' = ChClosed)
  | Panicked w' =>
      ¬ Forall (λ a, a ≠ Signal) sched ∧ extends ev_is_idle w w' ∧ db w' = db w
      ∧ shutdownChan w' = ChClosed
  end.
Proof.
  revert p w. induction sched as [|a sched IH]; intros p w Hr Hi; cbn [run_schedule].
  { split_and!; try done. apply extends_refl. }
  pose proof (step_idle r progress a p w Hr Hi) as HS.
  destruct (step _ _ _ _ _ _ _ _) as [p1 w1|w1].
  - destruct HS as (Hr1 & Hi1 & X1 & D1 & F1 & C1).
    specialize (IH p1 w1 Hr1 Hi1).
    destruct (run_schedule _ _ _ _ _ _ _ _) as [p2 w2|w2].
    + destruct IH as (? & ? & X2 & D2 & F2 & C2).
      split_and!; try done; [by eapply extends_trans|congruence|congruence|tauto].
    + destruct IH as (HnS & X2 & D2 & C2).
      split_and!; try done; [|by eapply extends_trans|congruence].
      intros HF. apply HnS. by inversion HF.
  - destruct HS as (-> & X1 & D1 & C1). split_and!; try done.
    intros HF. by inversion HF.
Qed.

Lemma drain_no_Signal p : Forall (λ a, a ≠ Signal) (drain p).
Proof.
  unfold drain. apply Forall_app. split.
  - apply Forall_forall. by intros a ->%elem_of_replicate_inv.
  - apply Forall_forall. intros a Ha%list_elem_of_In.
    apply in_flat_map in Ha as (i & _ & Ha%list_elem_of_In).
    by apply elem_of_replicate_inv in Ha as ->.
Qed.

Lemma launch_idle l : forallb ev_is_idle (map EvGo l) = true.
Proof. by induction l. Qed.

Lemma Run_idle r progress sched w :
  Concurrency r <= 0 ∨ shutdownChan w = ChClosed →
  let R := Run env SHA256 MD5 Walk Shuffle r progress sched w in
  extends ev_is_idle w (result_world R)
  ∧ db (result_world R) = db w
  ∧ (∀ res w', R = Done res w' → res = None)
  ∧ (Forall (λ a, a ≠ Signal) sched → ∃ w', R = Done None w')
  ∧ (CleanupBalanceFiles r = false → shutdownChan (result_world R) = ChOpen →
     fs (result_world R) = fs w).
Proof.
  intros Hc R. subst R. rewrite Run_eq. cbv zeta.
  set (w1 := if CleanupBalanceFiles r then _ else w).
  assert (H1 : extends ev_is_idle w w1 ∧ shutdownChan w1 = shutdownChan w
               ∧ db w1 = db w ∧ (CleanupBalanceFiles r = false → fs w1 = fs w)).
  { subst w1. destruct (CleanupBalanceFiles r).
    - destruct (cleanupBalanceFiles_idle r w) as (w' & -> & ? & ? & ?). by cbn.
    - split_and!; try done. apply extends_refl. }
  destruct H1 as (X1 & S1 & D1 & F1). clearbody w1.
  set (files := List.filter _ _). clearbody files.
  set (w2 := emit (EvGather files) w1).
  assert (X2 : extends ev_is_idle w w2).
  { eapply extends_trans; [done|]. by apply extends_emit. }
  case_bool_decide as Hlen.
  { cbn [result_world]. split_and!; try done.
    - by intros ?? [= <- _].
    - intros _. by eexists.
    - intros Hn _. by apply F1. }
  set (files' := if RandomOrder r then Shuffle files else files). clearbody files'.
  set (n := Z.to_nat (Concurrency r)).
  set (w3 := foldl _ w2 (seq 0 n)).
  destruct (launch_world (seq 0 n) w2) as [T3 S3]. fold w3 in T3, S3.
  assert (X3 : extends ev_is_idle w w3).
  { eapply extends_trans; [done|]. eexists. split; [done|apply launch_idle]. }
  assert (D3 : db w3 = db w ∧ fs w3 = fs w1).
  { assert (G : ∀ l w0, db (foldl (λ w i, emit (EvGo i) w) w0 l) = db w0
                      ∧ fs (foldl (λ w i, emit (EvGo i) w) w0 l) = fs w0).
    { induction l as [|i l IH]; intros w0; [done|]. cbn [foldl].
      destruct (IH (emit (EvGo i) w0)) as [-> ->]. done. }
    subst w3. destruct (G (seq 0 n) w2) as [-> ->]. subst w2. cbn. by rewrite D1. }
  destruct D3 as [D3 F3].
  set (pool := mkPool files' [] false (replicate n true) [] 0).
  assert (Hi : running pool = [] ∨ (shutdownChan w3 = ChClosed ∧ fileChan pool = [])).
  { destruct Hc as [Hc|Hc].
    - left. cbn. subst n. by replace (Z.to_nat (Concurrency r)) with 0%nat by lia.
    - right. split; [|done]. rewrite S3. cbn. congruence. }
  pose proof (run_schedule_idle r progress sched pool w3 eq_refl Hi) as H4.
  destruct (run_schedule _ _ _ _ _ _ pool w3) as [p4 w4|w4]; cbn [result_world].
  2: { destruct H4 as (HnS & X4 & D4 & C4). split_and!; try done.
       - by eapply extends_trans.
       - congruence.
       - congruence. }
  destruct H4 as (Hr4 & Hi4 & X4 & D4 & F4 & C4).
  pose proof (run_schedule_idle r progress (drain p4) p4 w4 Hr4 Hi4) as H5.
  destruct (run_schedule _ _ _ _ _ _ p4 w4) as [p5 w5|w5]; cbn [result_world].
  2: { destruct H5 as (HnS & _). destruct HnS. apply drain_no_Signal. }
  destruct H5 as (Hr5 & Hi5 & X5 & D5 & F5 & C5).
  rewrite Hr5. cbn [existsb].
  set (b := bool_decide (shutdownChan w5 = ChClosed)).
  set (w6 := emit (EvIsShuttingDown b) w5).
  set (w7 := if b then _ else w6).
  assert (H7 : extends ev_is_idle w6 w7 ∧ db w7 = db w6
               ∧ (shutdownChan w7 = ChOpen → fs w7 = fs w6)).
  { subst w7. destruct b eqn:Hb.
    - destruct (cleanupBalanceFiles_idle r w6) as (w' & -> & ? & S7 & ?).
      cbn [result_world]. split_and!; try done. rewrite S7. subst w6 b. cbn.
      apply bool_decide_eq_true in Hb. congruence.
    - split_and!; try done. apply extends_refl. }
  destruct H7 as (X7 & D7 & F7). clearbody w7.
  assert (X6 : extends ev_is_idle w w6).
  { eapply extends_trans; [done|]. eapply extends_trans; [done|].
    eapply extends_trans; [done|]. by apply extends_emit. }
  assert (H8 : ∀ z, extends ev_is_idle w (if progress then emit (EvProgress z) w7 else w7)
               ∧ db (if progress then emit (EvProgress z) w7 else w7) = db w
               ∧ (shutdownChan (if progress then emit (EvProgress z) w7 else w7) = ChOpen →
                  fs (if progress then emit (EvProgress z) w7 else w7) = fs w1)).
  { intros z. assert (X : extends ev_is_idle w w7) by by eapply extends_trans.
    assert (D : db w7 = db w) by (rewrite D7; subst w6; cbn; congruence).
    assert (F : shutdownChan w7 = ChOpen → fs w7 = fs w1).
    { intros Ho. rewrite (F7 Ho). subst w6. cbn. congruence. }
    destruct progress; [|done]. split_and!; try done.
    eapply extends_trans; [done|]. by apply extends_emit. }
  destruct (H8 (processedCount p5)) as (X8 & D8 & F8).
  split_and!; try done.
  - by intros ?? [= <- _].
  - intros _. by eexists.
  - intros Hn Ho. rewrite (F8 Ho). by apply F1.
Qed.

(** X18: [Run] with a concurrency of zero or less starts no worker: no
    file is attempted, the ledger is not touched, the only calls it makes
    are the removals of stale temp files, and if it returns it returns nil
    as if all had gone well; it does return when it has no progress channel
    to send on and nobody asks for shutdown during the run. *)
Theorem Run_without_workers r progress sched w :
  Concurrency r <= 0 →
  let R := Run env SHA256 MD5 Walk Shuffle r progress sched w in
  let w' := result_world R in
  forallb ev_is_idle (events_since w w') = true
  ∧ attempted (events_since w w') = []
  ∧ db w' = db w
  ∧ (∀ res w'', R = Done res w'' → res = None)
  ∧ (progress = false → Forall (λ a, a ≠ Signal) sched → R = Done None w')
  ∧ (CleanupBalanceFiles r = false → shutdownChan w' = ChOpen → fs w' = fs w).
Proof.
  intros Hc R w'. subst R w'.
  destruct (Run_idle r progress sched w (or_introl Hc)) as ((evs & T & F) & D & N & S & Q).
  rewrite (events_since_ext _ _ _ T).
  split_and!; try done; [by apply idle_not_attempted|].
  intros _ Hs. destruct (S Hs) as [w' ->]. done.
Qed.

(** X19: when shutdown was asked for before [Run] starts, [Run] hands no
    file to a worker: no file is attempted and the ledger is not touched,
    and if [Run] returns it returns nil; it does return when it has no
    progress channel to send on and nobody asks for shutdown a second
    time. *)
Theorem Run_after_shutdown r progress sched w :
  shutdownChan w = ChClosed →
  let R := Run env SHA256 MD5 Walk Shuffle r progress sched w in
  let w' := result_world R in
  forallb ev_is_idle (events_since w w') = true
  ∧ attempted (events_since w w') = []
  ∧ db w' = db w
  ∧ (∀ res w'', R = Done res w'' → res = None)
  ∧ (progress = false → Forall (λ a, a ≠ Signal) sched → R = Done None w').
Proof.
  intros Hc R w'. subst R w'.
  destruct (Run_idle r progress sched w (or_intror Hc)) as ((evs & T & F) & D & N & S & _).
  rewrite (events_since_ext _ _ _ T).
  split_and!; try done; [by apply idle_not_attempted|].
  intros _ Hs. destruct (S Hs) as [w' ->]. done.
Qed.

End Cleanup.

(** ** Progress display: [GetPassInfo] and [truncatePath] *)

Section PassInfo.
Context (env : Env).
Context (Walk : gmap string File → string → list string).

(** X20: [GetPassInfo] does not change the ledger.  With no regular file
    under the root it answers [(1, PassesLimit)], also for a limit of zero
    or less; otherwise the total is the limit, or 999 when there is none,
    and the current pass is one more than the count of the first gathered
    file, or 1 when that count cannot be read. *)
Theorem GetPassInfo_reports r w :
  ∃ files w0 current total w',
    GatherFiles Walk r w = Done (files, None) w0
    ∧ GetPassInfo env Walk r w = Done (current, total) w'
    ∧ db w' = db w
    ∧ match files with
      | [] => current = 1 ∧ total = PassesLimit r
      | file0 :: _ =>
          total = (if bool_decide (PassesLimit r <= 0) then 999 else PassesLimit r)
          ∧ current
            = match inj_fail (env (trace w) (OpDbGet file0)) with
              | None => int_add (ledger_count w file0) 1
              | Some _ => 1
              end
      end.
Proof.
  rewrite GatherFiles_spec.
  unfold GetPassInfo, func. unfold mbind at 1, M_bind at 1. unfold call at 1.
  rewrite GatherFiles_spec. cbv beta iota.
  match goal with |- context [List.filter ?p ?l] =>
    destruct (List.filter p l) as [|file0 files] end.
  { by eexists _, _, _, _, _. }
  unfold mbind at 1, M_bind at 1. cbn [when_ orb length bool_decide].
  rewrite (bool_decide_eq_false_2 (is_Some None)) by apply is_Some_None. cbn [orb].
  rewrite bool_decide_eq_false_2 by done. cbn [when_].
  unfold mret at 1, M_ret at 1. cbv beta iota.
  unfold mbind at 1, M_bind at 1. unfold mbind at 1, M_bind at 1. unfold call at 1.
  destruct (GetRebalanceCount_spec env file0 w) as (c & e & w1 & -> & D1 & _ & _ & H1).
  cbv beta iota. unfold mret at 1, M_ret at 1. cbv beta iota.
  unfold mbind at 1, M_bind at 1. unfold when_ at 1.
  destruct (inj_fail (env (trace w) (OpDbGet file0))) as [x|] eqn:Ef;
    destruct H1 as [-> ->];
    case_bool_decide; cbn;
    eexists _, _, _, _, _; (split; [reflexivity|]); (split; [reflexivity|]); cbn;
    rewrite ?Ef; done.
Qed.

End PassInfo.

Lemma int_wrap_small z : int_min <= z <= int_max → int_wrap z = z.
Proof.
  unfold int_min, int_max, int_wrap. intros. rewrite Z.mod_small; lia.
Qed.

Lemma len_app a b : len (a +:+ b) = len a + len b.
Proof. unfold len. rewrite string_length_app. lia. Qed.

Lemma len_nonneg s : 0 <= len s.
Proof. unfold len. lia. Qed.

Lemma substring_length n m s :
  (n + m <= String.length s)%nat → String.length (String.substring n m s) = m.
Proof.
  revert n m. induction s as [|c s IH]; intros n m H; cbn in *.
  - destruct n, m; cbn in *; try done; lia.
  - destruct n as [|n].
    + destruct m as [|m]; [done|]. cbn. f_equal. apply (IH 0%nat). lia.
    + apply IH. lia.
Qed.

Lemma filepath_Split_len path : len (filepath_Split path).2 <= len path.
Proof.
  unfold len. induction path as [|c path IH]; [done|]. cbn [filepath_Split].
  destruct (filepath_Split path) as [dir file]. cbn [snd] in *.
  destruct dir; [destruct (Ascii.eqb _ _)|]; cbn [snd String.length]; lia.
Qed.

Lemma truncate_dirs_len dirs remainingLen result :
  -1 <= remainingLen <= int_max - 3 →
  len (truncate_dirs dirs remainingLen result) <= len result + remainingLen + 1.
Proof.
  revert remainingLen result.
  induction dirs as [|d dirs IH]; intros n result Hn; cbn [truncate_dirs]; [lia|].
  pose proof (len_nonneg d).
  destruct (Z.leb_spec (len d) n); [|lia].
  unfold int_sub, int_add.
  rewrite (int_wrap_small (len d + 1)) by (unfold int_min, int_max in *; lia).
  rewrite int_wrap_small by (unfold int_min, int_max in *; lia).
  etrans; [apply IH; lia|]. rewrite !len_app. change (len "/") with 1. lia.
Qed.

Section TruncateProofs.
Context (filepath_Dir : string → string).

(** X21: for a width of at least 3, [truncatePath] returns a path that
    fits as it is; a longer one comes back shortened, starting with three
    dots, to at most the width plus two: the result can exceed the width
    it was asked for by the two separators it adds. *)
Theorem truncatePath_length path maxLen :
  3 <= maxLen <= int_max → len path <= int_max →
  ∃ s, truncatePath filepath_Dir path maxLen = Some s
    ∧ len s <= maxLen + 2
    ∧ (len path <= maxLen → s = path)
    ∧ (maxLen < len path → ∃ t, s = "..." +:+ t).
Proof.
  intros Hm Hp. unfold truncatePath.
  destruct (Z.leb_spec (len path) maxLen) as [Hle|Hgt].
  { exists path. split_and!; try done; lia. }
  pose proof (filepath_Split_len path) as Hf.
  destruct (filepath_Split path) as [dir filename]. cbn [snd] in Hf.
  pose proof (len_nonneg filename) as H0.
  unfold int_sub.
  rewrite (int_wrap_small (maxLen - 3)) by (unfold int_min, int_max in *; lia).
  destruct (Z.geb_spec (len filename) (maxLen - 3)) as [Hlong|Hshort].
  - rewrite int_wrap_small by (unfold int_min, int_max in *; lia).
    rewrite (proj2 (Z.leb_le 0 _)) by lia.
    rewrite (proj2 (Z.leb_le _ (len filename))) by lia. cbn [andb].
    eexists. split; [reflexivity|]. split_and!; [|lia|by eexists].
    rewrite len_app. change (len "...") with 3. unfold len at 1.
    rewrite substring_length; unfold len in *; lia.
  - rewrite (int_wrap_small (maxLen - len filename)) by (unfold int_min, int_max in *; lia).
    rewrite int_wrap_small by (unfold int_min, int_max in *; lia).
    eexists. split; [reflexivity|]. split_and!; [|lia|by eexists].
    pose proof (truncate_dirs_len (rev (strings_Split (filepath_Dir path)))
                  (maxLen - len filename - 3) "") as Hd.
    rewrite !len_app. change (len "...") with 3. change (len "/") with 1.
    change (len "") with 0 in Hd. lia.
Qed.

(** X22: for a width below 3, [truncatePath] panics on every path longer
    than the width: the slice of the file name starts beyond its end. *)
Theorem truncatePath_panics_below_3 path maxLen :
  maxLen < 3 → maxLen < len path →
  int_min <= maxLen - 3 → len path - (maxLen - 3) <= int_max →
  truncatePath filepath_Dir path maxLen = None.
Proof.
  intros Hm Hp Hlo Hhi. unfold truncatePath.
  destruct (Z.leb_spec (len path) maxLen) as [Hle|Hgt]; [lia|].
  pose proof (filepath_Split_len path) as Hf.
  destruct (filepath_Split path) as [dir filename]. cbn [snd] in Hf.
  pose proof (len_nonneg filename) as H0.
  unfold int_sub.
  rewrite (int_wrap_small (maxLen - 3)) by (unfold int_min, int_max in *; lia).
  destruct (Z.geb_spec (len filename) (maxLen - 3)) as [Hlong|Hshort]; [|lia].
  rewrite int_wrap_small by (unfold int_min, int_max in *; lia).
  rewrite (proj2 (Z.leb_gt _ (len filename))) by lia.
  by rewrite andb_false_r.
Qed.

End TruncateProofs.

(** ** The further properties on sample inputs *)

Import Sample SampleMore.

Lemma quiet_NoGarble : NoGarble quiet.
Proof. intros h op. reflexivity. Defined.

Lemma SetRebalanceCount_then_Get_witness :
  ∃ w1 w2, SetRebalanceCount quiet "/d/a.txt" 5 fresh = Done None w1
    ∧ GetRebalanceCount quiet "/d/a.txt" w1 = Done (5, None) w2
    ∧ db w2 = <["/d/a.txt" := 5]> (db fresh).
Proof.
  apply (SetRebalanceCount_then_Get quiet "/d/a.txt" 5 fresh).
  exact quiet_NoFail.
Defined.

Lemma GetRebalanceCount_no_row_witness :
  ∃ e w', GetRebalanceCount quiet "/d/a.txt" fresh = Done (0, e) w'
    ∧ db w' = db fresh
    ∧ (inj_fail (quiet (trace fresh) (OpDbGet "/d/a.txt")) = None → e = None).
Proof.
  apply (GetRebalanceCount_no_row quiet "/d/a.txt" fresh).
  vm_compute. reflexivity.
Defined.

Lemma CopyFile_copies_witness :
  ∃ w' t, CopyFile quiet "/d/a.txt" "/d/copy" fresh = Done None w'
    ∧ fs w' !! "/d/copy" = Some t
    ∧ kind t = Regular ∧ mtime t = mtime a_txt
    ∧ perm t = from_option perm (N.ldiff (perm a_txt) (umask fresh))
                 (fs fresh !! "/d/copy")
    ∧ nlink t = 1%N
    ∧ (NoGarble quiet → content t = content a_txt)
    ∧ fs w' !! "/d/a.txt" = Some a_txt
    ∧ (∀ q, q ≠ "/d/copy" → same_entry (fs w' !! q) (fs fresh !! q)).
Proof.
  apply (CopyFile_copies quiet "/d/a.txt" "/d/copy" fresh a_txt).
  - exact quiet_NoExt.
  - exact quiet_NoFail.
  - discriminate.
  - vm_compute. reflexivity.
  - reflexivity.
  - vm_compute. exact I.
Defined.

Lemma CopyFile_missing_source_witness :
  ∃ e w', CopyFile quiet "/d/none" "/d/copy" fresh = Done (Some e) w'
    ∧ fs w' = fs fresh
    ∧ (NoFail quiet → e = PathError "open" "/d/none" ENOENT ∧ IsNotExist e = true).
Proof.
  apply (CopyFile_missing_source quiet "/d/none" "/d/copy" fresh).
  - exact quiet_NoExt.
  - vm_compute. reflexivity.
Defined.

Lemma CompareFileChecksum_decides_witness :
  ∃ ok reason w',
    CompareFileChecksum quiet digest digest "/d/a.txt" "/d/b.txt" "md5" fresh
      = Done (ok, reason) w'
    ∧ (ok = true ↔ digest (content a_txt) = digest (content b_txt))
    ∧ (ok = true → reason = "")
    ∧ (ok = false → reason = "MD5" +:+ " mismatch: " +:+ digest (content a_txt)
                               +:+ " != " +:+ digest (content b_txt))
    ∧ fs w' = fs fresh ∧ db w' = db fresh.
Proof.
  apply (CompareFileChecksum_decides quiet digest digest
           "/d/a.txt" "/d/b.txt" "md5" fresh a_txt b_txt).
  - exact quiet_NoExt.
  - exact quiet_NoFail.
  - vm_compute. reflexivity.
  - vm_compute. reflexivity.
  - discriminate.
  - discriminate.
Defined.

Lemma CompareFileChecksum_missing_original_witness :
  ∃ w', CompareFileChecksum quiet digest digest "/d/none" "/d/b.txt" "sha256" fresh
        = Done (false, "error hashing original: open " +:+ "/d/none"
                         +:+ ": no such file or directory") w'
    ∧ fs w' = fs fresh.
Proof.
  apply (CompareFileChecksum_missing_original quiet digest digest
           "/d/none" "/d/b.txt" "sha256" fresh).
  - exact quiet_NoExt.
  - exact quiet_NoFail.
  - vm_compute. reflexivity.
Defined.

Lemma CopyFile_then_Compare_witness :
  ∃ w1 w2, CopyFile quiet "/d/a.txt" "/d/copy" fresh = Done None w1
    ∧ CompareFileChecksum quiet digest digest "/d/a.txt" "/d/copy" "sha256" w1
      = Done (true, "") w2
    ∧ fs w2 = fs w1.
Proof.
  apply (CopyFile_then_Compare quiet digest digest
           "/d/a.txt" "/d/copy" "sha256" fresh a_txt).
  - exact quiet_NoExt.
  - exact quiet_NoFail.
  - exact quiet_NoGarble.
  - discriminate.
  - vm_compute. reflexivity.
  - discriminate.
  - vm_compute. reflexivity.
Defined.

Lemma RebalanceFile_touches_only_its_paths_witness :
  same_entry
    (fs (result_world (RebalanceFile quiet digest digest (cfg 2 false)
                         "/d/a.txt" fresh)) !! "/d/b.txt")
    (fs fresh !! "/d/b.txt").
Proof.
  apply (RebalanceFile_touches_only_its_paths quiet digest digest (cfg 2 false)
           "/d/a.txt" fresh "/d/b.txt").
  - exact quiet_NoExt.
  - vm_compute. reflexivity.
  - discriminate.
  - discriminate.
  - discriminate.
Defined.

Lemma RebalanceFile_preserves_metadata_witness :
  ∃ f', fs (result_world (RebalanceFile quiet digest digest (cfg 2 false)
                            "/d/a.txt" fresh)) !! "/d/a.txt" = Some f'
    ∧ kind f' = kind a_txt ∧ perm f' = perm a_txt ∧ mtime f' = mtime a_txt
    ∧ (existsb (ev_replaced "/d/a.txt")
         (events_since fresh
            (result_world (RebalanceFile quiet digest digest (cfg 2 false)
                             "/d/a.txt" fresh))) = true →
       fs (result_world (RebalanceFile quiet digest digest (cfg 2 false)
                           "/d/a.txt" fresh)) !! ("/d/a.txt" +:+ ".balance") = None).
Proof.
  apply (RebalanceFile_preserves_metadata quiet digest digest (cfg 2 false)
           "/d/a.txt" fresh a_txt).
  - exact quiet_NoExt.
  - vm_compute. reflexivity.
  - vm_compute. reflexivity.
  - vm_compute. reflexivity.
Defined.

Lemma RebalanceFile_returns_without_halt_witness :
  ∃ res w', RebalanceFile unreadable digest digest (cfg 2 false) "/d/a.txt" stopping
            = Done res w'
    ∧ shutdownChan w' = shutdownChan stopping.
Proof.
  apply (RebalanceFile_returns_without_halt unreadable digest digest (cfg 2 false)
           "/d/a.txt" stopping).
  reflexivity.
Defined.

Lemma RebalanceFile_panics_only_in_halt_witness :
  let w' := result_world (RebalanceFile quiet digest digest (cfg 2 true)
                            "/d/none.txt" stopping) in
  HaltOnFileMissing (cfg 2 true) = true ∧ shutdownChan w' = ChClosed
  ∧ existsb (ev_missing "/d/none.txt") (events_since stopping w') = true
  ∧ last (events_since stopping w') = Some EvInitiateShutdown
  ∧ db w' = db stopping.
Proof.
  apply (RebalanceFile_panics_only_in_halt quiet digest digest (cfg 2 true)
           "/d/none.txt" stopping).
  vm_compute. reflexivity.
Defined.


Lemma RebalanceFile_succeeds_witness :
  ∃ w', RebalanceFile quiet digest digest (cfg 2 false) "/d/a.txt" fresh = Done None w'
    ∧ fs w' !! "/d/a.txt"
      = Some (mkFile Regular (perm a_txt) (mtime a_txt) (content a_txt) 1)
    ∧ fs w' !! ("/d/a.txt" +:+ ".balance") = None
    ∧ db w' = (if bool_decide (PassesLimit (cfg 2 false) > 0)
               then <["/d/a.txt" := int_add (ledger_count fresh "/d/a.txt") 1]> (db fresh)
               else db fresh)
    ∧ shutdownChan w' = ChOpen ∧ umask w' = umask fresh.
Proof.
  apply (RebalanceFile_succeeds quiet digest digest (cfg 2 false) "/d/a.txt" fresh a_txt).
  - exact quiet_NoExt.
  - exact quiet_NoFail.
  - exact quiet_NoGarble.
  - vm_compute. reflexivity.
  - vm_compute. reflexivity.
  - reflexivity.
  - intros _. vm_compute. discriminate.
  - vm_compute. intros [_ H]. apply H. reflexivity.
  - reflexivity.
  - vm_compute. reflexivity.
Defined.

Lemma passes_respect_limit_witness :
  ∃ es w' f', passes quiet digest digest 3 (cfg 2 false) "/d/a.txt" fresh = Done es w'
    ∧ length es = 3%nat ∧ Forall (λ e, e = None) es
    ∧ ledger_count w' "/d/a.txt"
      = Z.min (ledger_count fresh "/d/a.txt" + Z.of_nat 3) (PassesLimit (cfg 2 false))
    ∧ fs w' !! "/d/a.txt" = Some f'
    ∧ content f' = content a_txt ∧ perm f' = perm a_txt ∧ mtime f' = mtime a_txt.
Proof.
  apply (passes_respect_limit quiet digest digest 3 (cfg 2 false) "/d/a.txt" fresh a_txt).
  - exact quiet_NoExt.
  - exact quiet_NoFail.
  - exact quiet_NoGarble.
  - vm_compute. reflexivity.
  - vm_compute. reflexivity.
  - reflexivity.
  - intros _. vm_compute. discriminate.
  - vm_compute. reflexivity.
  - reflexivity.
  - vm_compute. split; [reflexivity|discriminate].
  - vm_compute. split; discriminate.
Defined.

Lemma cleanupBalanceFiles_removes_every_temp_file_witness :
  fs (result_world (cleanupBalanceFiles quiet walk (cfg 2 false) stale))
    !! "/d/a.txt.balance" = None.
Proof.
  apply (cleanupBalanceFiles_removes_every_temp_file quiet walk (cfg 2 false) stale
           "/d/a.txt.balance" b_txt).
  - exact quiet_NoExt.
  - exact quiet_NoFail.
  - find_in.
  - vm_compute. reflexivity.
  - reflexivity.
  - vm_compute. reflexivity.
Defined.

Lemma Run_without_workers_witness :
  let R := Run quiet digest digest walk id no_workers false [Coordinate; Work 0]
             fresh in
  let w' := result_world R in
  forallb ev_is_idle (events_since fresh w') = true
  ∧ attempted (events_since fresh w') = []
  ∧ db w' = db fresh
  ∧ (∀ res w'', R = Done res w'' → res = None)
  ∧ (false = false → Forall (λ a, a ≠ Signal) [Coordinate; Work 0] →
     R = Done None w')
  ∧ (CleanupBalanceFiles no_workers = false → shutdownChan w' = ChOpen →
     fs w' = fs fresh).
Proof.
  apply (Run_without_workers quiet digest digest walk id no_workers false
           [Coordinate; Work 0] fresh).
  vm_compute. discriminate.
Defined.

Lemma Run_after_shutdown_witness :
  let R := Run quiet digest digest walk id (cfg 2 false) false [Coordinate; Work 0]
             stopping in
  let w' := result_world R in
  forallb ev_is_idle (events_since stopping w') = true
  ∧ attempted (events_since stopping w') = []
  ∧ db w' = db stopping
  ∧ (∀ res w'', R = Done res w'' → res = None)
  ∧ (false = false → Forall (λ a, a ≠ Signal) [Coordinate; Work 0] →
     R = Done None w').
Proof.
  apply (Run_after_shutdown quiet digest digest walk id (cfg 2 false) false
           [Coordinate; Work 0] stopping).
  reflexivity.
Defined.

Lemma truncatePath_length_witness :
  ∃ s, truncatePath dir "xxxxxx/abcd/cccc" 11 = Some s
    ∧ len s <= 11 + 2
    ∧ (len "xxxxxx/abcd/cccc" <= 11 → s = "xxxxxx/abcd/cccc")
    ∧ (11 < len "xxxxxx/abcd/cccc" → ∃ t, s = "..." +:+ t).
Proof.
  apply (truncatePath_length dir "xxxxxx/abcd/cccc" 11).
  - vm_compute. split; discriminate.
  - vm_compute. discriminate.
Defined.

(** The bound on the length is reached: a result two longer than the
    width asked for. *)
Remark truncatePath_exceeds_width :
  truncatePath dir "xxxxxx/abcd/cccc" 11 = Some ".../abcd/cccc"
  ∧ len ".../abcd/cccc" = 11 + 2.
Proof. by vm_compute. Qed.

Lemma truncatePath_panics_below_3_witness :
  truncatePath dir "/d/a.txt" 2 = None.
Proof.
  apply (truncatePath_panics_below_3 dir "/d/a.txt" 2).
  - reflexivity.
  - reflexivity.
  - vm_compute. discriminate.
  - vm_compute. discriminate.
Defined.
